(** * MCTS (Minecraft Terrain Studio): the batch pipeline of [mcts.py]

    A shallow embedding of the core of [mcts.py]: the coordinate
    partitioner inside [organize_by_region], the per-tile sample
    extraction of [process_tiff_simple], the region emission of
    [generate_mca_file] and [generate_mca_batch], the two stage functions
    [s1] and [s2] with their checkpoint handling, and the resume path
    ([get_existing_projects], [resume_project]).

    Python integers are unbounded, so they are [Z]; [>>] is [Z.shiftr]
    (a floor shift) and [&] is [Z.land].  A Python [dict] that the program
    iterates over is an insertion-ordered association list; the skip-set of
    region file names is a [gset string].  The external collaborators
    (rasterio, anvil, the wall clock, the interactive prompt) are type
    classes; what the stages find on disk is an argument of theirs. *)

From Stdlib Require Import Ascii.
From stdpp Require Import base numbers list strings gmap pretty sorting.

Local Open Scope Z_scope.

(** ** Insertion-ordered dictionaries

    A Python [dict] keeps its keys in insertion order; assigning to a key
    that is present replaces the value in place, assigning to a new key
    appends it. *)

Module PyDict.
Section Dict.
Context {K V : Type} `{EqDecision K}.

Fixpoint get (k : K) (d : list (K * V)) : option V :=
  match d with
  | [] => None
  | (k', v) :: d' => if decide (k = k') then Some v else get k d'
  end.

(** [d[k] = v] *)
Fixpoint set (k : K) (v : V) (d : list (K * V)) : list (K * V) :=
  match d with
  | [] => [(k, v)]
  | (k', v') :: d' =>
      if decide (k = k') then (k, v) :: d' else (k', v') :: set k v d'
  end.

(** [d.update(other)] *)
Definition update (d other : list (K * V)) : list (K * V) :=
  foldl (fun acc kv => set kv.1 kv.2 acc) d other.

(** building a dict by assigning the pairs of a sequence in order *)
Definition of_seq (l : list (K * V)) : list (K * V) := update [] l.

(** what [defaultdict] returns for [d[k]] *)
Definition get_default (k : K) (dflt : V) (d : list (K * V)) : V :=
  default dflt (get k d).
End Dict.
End PyDict.

(** ** Coordinate partitioner (the body of the loop of [organize_by_region]) *)

Definition region_of (v : Z) : Z := Z.shiftr v 9.
Definition chunk_of (v : Z) : Z := Z.land (Z.shiftr v 4) 31.
Definition block_of (v : Z) : Z := Z.land v 15.

Record Decomp := mkDecomp {
  region_key : Z * Z;
  chunk_key : Z * Z;
  block_key : Z * Z
}.

Definition decompose (x z : Z) : Decomp :=
  {| region_key := (region_of x, region_of z);
     chunk_key := (chunk_of x, chunk_of z);
     block_key := (block_of x, block_of z) |}.

(** The inverse the specification speaks of: 512 columns per region and 16
    per chunk, as the comments of [organize_by_region] have it. *)
Definition recombine_axis (r c b : Z) : Z := r * 512 + c * 16 + b.

Definition recombine (d : Decomp) : Z * Z :=
  (recombine_axis (region_key d).1 (chunk_key d).1 (block_key d).1,
   recombine_axis (region_key d).2 (chunk_key d).2 (block_key d).2).

Definition organize_step
    (region_data : list ((Z * Z) * list ((Z * Z) * list ((Z * Z) * Z))))
    (item : (Z * Z) * Z)
    : list ((Z * Z) * list ((Z * Z) * list ((Z * Z) * Z))) :=
  let '((x, z), y) := item in
  let region_x := x ≫ 9 in
  let region_z := z ≫ 9 in
  let chunk_x := Z.land (x ≫ 4) 31 in
  let chunk_z := Z.land (z ≫ 4) 31 in
  let block_x := Z.land x 15 in
  let block_z := Z.land z 15 in
  let chunks := PyDict.get_default (region_x, region_z) [] region_data in
  let blocks := PyDict.get_default (chunk_x, chunk_z) [] chunks in
  PyDict.set (region_x, region_z)
    (PyDict.set (chunk_x, chunk_z)
       (PyDict.set (block_x, block_z) y blocks) chunks)
    region_data.

Definition organize_by_region (coords_data : list ((Z * Z) * Z))
    : list ((Z * Z) * list ((Z * Z) * list ((Z * Z) * Z))) :=
  foldl organize_step [] coords_data.

(** ** Paths and file names *)

Definition starts_with_slash (s : string) : bool :=
  match s with
  | String c _ => Ascii.eqb c "/"%char
  | EmptyString => false
  end.

Fixpoint ends_with_slash (s : string) : bool :=
  match s with
  | EmptyString => false
  | String c EmptyString => Ascii.eqb c "/"%char
  | String _ s' => ends_with_slash s'
  end.

(** [os.path.join(a, p)] for two components on a POSIX system *)
Definition path_join (a p : string) : string :=
  if starts_with_slash p then p
  else if String.eqb a "" || ends_with_slash a then a +:+ p
  else a +:+ "/" +:+ p.

Fixpoint basename_go (acc s : string) : string :=
  match s with
  | EmptyString => acc
  | String c s' =>
      if Ascii.eqb c "/"%char then basename_go "" s'
      else basename_go (acc +:+ String c "") s'
  end.

(** [os.path.basename(p)]: what follows the last slash *)
Definition basename (p : string) : string := basename_go "" p.

(** [f"r.{region_x}.{region_z}.mca"] *)
Definition region_file_name (region_x region_z : Z) : string :=
  "r." +:+ pretty region_x +:+ "." +:+ pretty region_z +:+ ".mca".

(** Python's [l[a:b]] and [l[a:]] with its treatment of negative and
    out-of-range bounds. *)
Definition slice_index {A} (l : list A) (i : Z) : nat :=
  let n := Z.of_nat (length l) in
  Z.to_nat (if bool_decide (i < 0) then Z.max 0 (n + i) else Z.min i n).

Definition py_slice {A} (l : list A) (a b : Z) : list A :=
  take (slice_index l b - slice_index l a)%nat (drop (slice_index l a) l).

Definition py_slice_from {A} (l : list A) (a : Z) : list A :=
  drop (slice_index l a) l.

Definition py_slice_to {A} (l : list A) (b : Z) : list A :=
  take (slice_index l b) l.

(** [enumerate(l, start)] *)
Fixpoint enumerate {A} (l : list A) (start : Z) : list (Z * A) :=
  match l with
  | [] => []
  | x :: l' => (start, x) :: enumerate l' (start + 1)
  end.

(** ** The checkpoint document

    The document is the dictionary that [get_config] creates and that [s1]
    and [s2] update; each key has the type the program writes it at, and a
    key that is absent is [None]. *)

Record Checkpoint := mkCheckpoint {
  ck_mode : option string;
  ck_is_dsm : option bool;
  ck_crs : option string;
  ck_bx : option Z;
  ck_by : option Z;
  ck_bs : option Z;
  ck_project_name : option string;
  ck_timestamp : option string;
  ck_current_step : option string;
  ck_step1_progress : option Z;
  ck_step1_complete : option bool;
  ck_min_elevation : option Z;
  ck_step2_batch : option Z;
  ck_mca_created : option Z;
  ck_step2_complete : option bool;
  ck_final_mca_count : option Z
}.

Definition set_timestamp (v : string) (c : Checkpoint) : Checkpoint :=
  mkCheckpoint (ck_mode c) (ck_is_dsm c) (ck_crs c) (ck_bx c) (ck_by c)
    (ck_bs c) (ck_project_name c) (Some v) (ck_current_step c)
    (ck_step1_progress c) (ck_step1_complete c) (ck_min_elevation c)
    (ck_step2_batch c) (ck_mca_created c) (ck_step2_complete c)
    (ck_final_mca_count c).

Definition set_current_step (v : string) (c : Checkpoint) : Checkpoint :=
  mkCheckpoint (ck_mode c) (ck_is_dsm c) (ck_crs c) (ck_bx c) (ck_by c)
    (ck_bs c) (ck_project_name c) (ck_timestamp c) (Some v)
    (ck_step1_progress c) (ck_step1_complete c) (ck_min_elevation c)
    (ck_step2_batch c) (ck_mca_created c) (ck_step2_complete c)
    (ck_final_mca_count c).

Definition set_step1_progress (v : Z) (c : Checkpoint) : Checkpoint :=
  mkCheckpoint (ck_mode c) (ck_is_dsm c) (ck_crs c) (ck_bx c) (ck_by c)
    (ck_bs c) (ck_project_name c) (ck_timestamp c) (ck_current_step c)
    (Some v) (ck_step1_complete c) (ck_min_elevation c)
    (ck_step2_batch c) (ck_mca_created c) (ck_step2_complete c)
    (ck_final_mca_count c).

Definition set_step1_complete (v : bool) (c : Checkpoint) : Checkpoint :=
  mkCheckpoint (ck_mode c) (ck_is_dsm c) (ck_crs c) (ck_bx c) (ck_by c)
    (ck_bs c) (ck_project_name c) (ck_timestamp c) (ck_current_step c)
    (ck_step1_progress c) (Some v) (ck_min_elevation c)
    (ck_step2_batch c) (ck_mca_created c) (ck_step2_complete c)
    (ck_final_mca_count c).

Definition set_min_elevation (v : Z) (c : Checkpoint) : Checkpoint :=
  mkCheckpoint (ck_mode c) (ck_is_dsm c) (ck_crs c) (ck_bx c) (ck_by c)
    (ck_bs c) (ck_project_name c) (ck_timestamp c) (ck_current_step c)
    (ck_step1_progress c) (ck_step1_complete c) (Some v)
    (ck_step2_batch c) (ck_mca_created c) (ck_step2_complete c)
    (ck_final_mca_count c).

Definition set_step2_batch (v : Z) (c : Checkpoint) : Checkpoint :=
  mkCheckpoint (ck_mode c) (ck_is_dsm c) (ck_crs c) (ck_bx c) (ck_by c)
    (ck_bs c) (ck_project_name c) (ck_timestamp c) (ck_current_step c)
    (ck_step1_progress c) (ck_step1_complete c) (ck_min_elevation c)
    (Some v) (ck_mca_created c) (ck_step2_complete c)
    (ck_final_mca_count c).

Definition set_mca_created (v : Z) (c : Checkpoint) : Checkpoint :=
  mkCheckpoint (ck_mode c) (ck_is_dsm c) (ck_crs c) (ck_bx c) (ck_by c)
    (ck_bs c) (ck_project_name c) (ck_timestamp c) (ck_current_step c)
    (ck_step1_progress c) (ck_step1_complete c) (ck_min_elevation c)
    (ck_step2_batch c) (Some v) (ck_step2_complete c)
    (ck_final_mca_count c).

Definition set_step2_complete (v : bool) (c : Checkpoint) : Checkpoint :=
  mkCheckpoint (ck_mode c) (ck_is_dsm c) (ck_crs c) (ck_bx c) (ck_by c)
    (ck_bs c) (ck_project_name c) (ck_timestamp c) (ck_current_step c)
    (ck_step1_progress c) (ck_step1_complete c) (ck_min_elevation c)
    (ck_step2_batch c) (ck_mca_created c) (Some v)
    (ck_final_mca_count c).

Definition set_final_mca_count (v : Z) (c : Checkpoint) : Checkpoint :=
  mkCheckpoint (ck_mode c) (ck_is_dsm c) (ck_crs c) (ck_bx c) (ck_by c)
    (ck_bs c) (ck_project_name c) (ck_timestamp c) (ck_current_step c)
    (ck_step1_progress c) (ck_step1_complete c) (ck_min_elevation c)
    (ck_step2_batch c) (ck_mca_created c) (ck_step2_complete c)
    (Some v).

(** ** Project management *)

Definition PROJECTS_DIR : string := "projects".

(** seconds *)
Definition CHECKPOINT_INTERVAL : Z := 10.

Record ProjectManager := mkProjectManager {
  pm_name : string;
  base_dir : string;
  input_dir : string;
  projected_dir : string;
  output_dir : string;
  temp_dir : string;
  checkpoint_file : string
}.

(** [ProjectManager.__init__] *)
Definition new_ProjectManager (project_name : string) : ProjectManager :=
  let base := path_join PROJECTS_DIR project_name in
  {| pm_name := project_name;
     base_dir := base;
     input_dir := path_join base "input";
     projected_dir := path_join base "tiff_projected";
     output_dir := path_join base "mca_output";
     temp_dir := path_join base "temp";
     checkpoint_file := path_join base "checkpoint.json" |}.

(** The wall clock.  Instants are in microseconds, the resolution of
    [datetime]; [clock n] is what the n-th modelled call of
    [datetime.now()] returns.  Calls whose result is only displayed (the
    start time [st], the progress bar) are not numbered. *)
Class Clock := {
  clock : nat -> Z;
  isoformat : Z -> string
}.

(** The part of the project on disk that the stages write, and the clock
    position: the checkpoint document if there is one, every document
    written so far (oldest first), and the paths of the reprojected tiles
    present (what [s1] tests with [os.path.exists]; a reprojection that
    raises is taken to leave no file). *)
Record Disk := mkDisk {
  ticks : nat;
  checkpoint_doc : option Checkpoint;
  saved : list Checkpoint;
  files : gset string
}.

Section CheckpointStore.
Context `{!Clock}.

(** [pm.save_checkpoint(data)]: stamps [data] itself (the caller's
    dictionary) and overwrites the document. *)
Definition save_checkpoint (data : Checkpoint) (d : Disk)
    : Checkpoint * Disk :=
  let data' := set_timestamp (isoformat (clock (ticks d))) data in
  (data', {| ticks := S (ticks d);
             checkpoint_doc := Some data';
             saved := saved d ++ [data'];
             files := files d |}).

(** [pm.delete_checkpoint()] *)
Definition delete_checkpoint (d : Disk) : Disk :=
  {| ticks := ticks d; checkpoint_doc := None;
     saved := saved d; files := files d |}.

(** [(b - a).total_seconds() >= n] for two instants *)
Definition elapsed_at_least (a b n : Z) : bool :=
  bool_decide (n * 1000000 <= b - a).
End CheckpointStore.

(** ** Sample extraction ([process_tiff_simple]) *)

(** The raster library.  [read_raster tiff_path base_x base_y] is the
    rasterio and numpy part of [process_tiff_simple]: the cells of the
    tile in raster order, each with its coordinates after the offset, the
    sign correction and the truncation to integers, and its truncated
    elevation; [None] when that part raises.  [reproject_raises inp outp
    crs] tells whether [reproject_tiff] raises. *)
Class Rasterio := {
  read_raster : string -> Z -> Z -> option (list ((Z * Z) * Z));
  reproject_raises : string -> string -> string -> bool
}.

Definition nodata_default : Z := -9999.

Section Extraction.
Context `{!Rasterio}.

(** Returns [(current_min, coords_data)], or [None] for the source's
    [(None, None)]. *)
Definition process_tiff_simple (tiff_path : string) (base_x base_y : Z)
    (nodata_value : Z) : option (Z * list ((Z * Z) * Z)) :=
  match read_raster tiff_path base_x base_y with
  | None => None
  | Some cells =>
      let valid := filter (fun c => c.2 ≠ nodata_value) cells in
      match valid with
      | [] => None
      | c :: rest =>
          let current_min := foldl Z.min c.2 (rest.*2) in
          let coords_data := PyDict.of_seq valid in
          Some (current_min, coords_data)
      end
  end.
End Extraction.

(** ** Region emission ([generate_mca_file], [generate_mca_batch]) *)

(** What the program builds with the anvil library: a chunk is its
    coordinates and the positions [(x, y, z)] at which a stone block was
    set, oldest first; a region is its coordinates and the chunks added. *)
Record EmptyChunk := mkChunk {
  ch_x : Z;
  ch_z : Z;
  ch_blocks : list (Z * Z * Z)
}.

Record EmptyRegion := mkRegion {
  rg_x : Z;
  rg_z : Z;
  rg_chunks : list EmptyChunk
}.

(** The region-container codec and the directory it writes into: whether
    [chunk.set_block(stone, x, y, z)], [region.add_chunk(chunk)] and
    [region.save(path)] raise, and what
    [glob.glob(os.path.join(dir, "*.mca"))] finds in the directory [dir]
    once the batches of a run are done. *)
Class Anvil := {
  set_block_raises : EmptyChunk -> Z -> Z -> Z -> bool;
  add_chunk_raises : EmptyRegion -> EmptyChunk -> bool;
  save_raises : string -> EmptyRegion -> bool;
  mca_files_after : string -> list string
}.

(** What the emission did: a region structure was built (or building it
    raised), a region was handed to [save] under a path (and [save] raised
    or not). *)
Inductive Event :=
  | EvBuild (region_x region_z min_elevation : Z)
      (result : option EmptyRegion)
  | EvSave (mca_path : string) (region : EmptyRegion) (raised : bool).

Record BatchState := mkBatchState {
  mca_count : Z;
  existing_mcas_set : gset string;
  events : list Event
}.

Section Emission.
Context `{!Anvil}.

Definition set_block (chunk : EmptyChunk) (x y z : Z) : EmptyChunk :=
  {| ch_x := ch_x chunk; ch_z := ch_z chunk;
     ch_blocks := ch_blocks chunk ++ [(x, y, z)] |}.

Definition add_chunk (region : EmptyRegion) (chunk : EmptyChunk)
    : EmptyRegion :=
  {| rg_x := rg_x region; rg_z := rg_z region;
     rg_chunks := rg_chunks region ++ [chunk] |}.

(** the body of the inner loop: one column of the chunk *)
Definition place_block (min_elevation : Z) (chunk : EmptyChunk)
    (entry : (Z * Z) * Z) : EmptyChunk :=
  let '((block_x, block_z), y) := entry in
  if bool_decide (min_elevation <= y <= 319) then
    if set_block_raises chunk block_x y block_z then chunk
    else set_block chunk block_x y block_z
  else chunk.

Definition build_chunk (min_elevation chunk_x chunk_z : Z)
    (block_coords : list ((Z * Z) * Z)) : EmptyChunk :=
  foldl (place_block min_elevation) (mkChunk chunk_x chunk_z [])
    block_coords.

(** the outer loop; [None] when [region.add_chunk] raises *)
Fixpoint add_chunks (min_elevation : Z) (region : EmptyRegion)
    (chunks_data : list ((Z * Z) * list ((Z * Z) * Z)))
    : option EmptyRegion :=
  match chunks_data with
  | [] => Some region
  | ((chunk_x, chunk_z), block_coords) :: rest =>
      let chunk := build_chunk min_elevation chunk_x chunk_z block_coords in
      if add_chunk_raises region chunk then None
      else add_chunks min_elevation (add_chunk region chunk) rest
  end.

Definition generate_mca_file (region_x region_z : Z)
    (chunks_data : list ((Z * Z) * list ((Z * Z) * Z)))
    (min_elevation : Z) (is_dsm : bool) : option EmptyRegion :=
  add_chunks min_elevation (mkRegion region_x region_z []) chunks_data.

(** the body of the loop of [generate_mca_batch] *)
Definition batch_step (min_elevation : Z) (output_dir : string)
    (is_dsm : bool) (st : BatchState)
    (item : (Z * Z) * list ((Z * Z) * list ((Z * Z) * Z)))
    : BatchState :=
  let '((region_x, region_z), chunks) := item in
  let mca_filename := region_file_name region_x region_z in
  if decide (mca_filename ∈ existing_mcas_set st) then st
  else
    let mca_path := path_join output_dir mca_filename in
    let built :=
      generate_mca_file region_x region_z chunks min_elevation is_dsm in
    match built with
    | None =>
        {| mca_count := mca_count st;
           existing_mcas_set := existing_mcas_set st;
           events := events st
                     ++ [EvBuild region_x region_z min_elevation built] |}
    | Some region =>
        if save_raises mca_path region then
          {| mca_count := mca_count st;
             existing_mcas_set := existing_mcas_set st;
             events := events st
                       ++ [EvBuild region_x region_z min_elevation built;
                           EvSave mca_path region true] |}
        else
          {| mca_count := mca_count st + 1;
             existing_mcas_set := {[mca_filename]} ∪ existing_mcas_set st;
             events := events st
                       ++ [EvBuild region_x region_z min_elevation built;
                           EvSave mca_path region false] |}
    end.

(** Returns the number of files created, the skip-set as the call
    leaves it (the caller's set is updated in place) and what was done. *)
Definition generate_mca_batch (batch_coords : list ((Z * Z) * Z))
    (base_x base_y min_elevation : Z) (output_dir : string)
    (existing_mcas_set : gset string) (is_dsm : bool) : BatchState :=
  let region_data := organize_by_region batch_coords in
  foldl (batch_step min_elevation output_dir is_dsm)
    (mkBatchState 0 existing_mcas_set []) region_data.
End Emission.

(** ** Stage 1: reprojection ([s1]) *)

Record S1State := mkS1State {
  processed_count : Z;
  skipped_count : Z;
  last_checkpoint_time : Z;
  checkpoint_data : Checkpoint;
  disk : Disk;
  (** the file names reported with [stat(fn, "Error: ...", "error")] *)
  errors : list string
}.

Section Stage1.
Context `{!Clock} `{!Rasterio}.

(** the body of the loop, for the item [tp] enumerated as [i] *)
Definition s1_step (pm : ProjectManager) (crs : string) (st : S1State)
    (item : Z * string) : S1State :=
  let '(i, tp) := item in
  let fn := basename tp in
  let op := path_join (projected_dir pm) fn in
  if decide (op ∈ files (disk st)) then
    {| processed_count := processed_count st;
       skipped_count := skipped_count st + 1;
       last_checkpoint_time := last_checkpoint_time st;
       checkpoint_data := checkpoint_data st;
       disk := disk st;
       errors := errors st |}
  else if reproject_raises tp op crs then
    {| processed_count := processed_count st;
       skipped_count := skipped_count st;
       last_checkpoint_time := last_checkpoint_time st;
       checkpoint_data := checkpoint_data st;
       disk := disk st;
       errors := errors st ++ [fn] |}
  else
    let current_time := clock (ticks (disk st)) in
    let d1 := {| ticks := S (ticks (disk st));
                 checkpoint_doc := checkpoint_doc (disk st);
                 saved := saved (disk st);
                 files := {[op]} ∪ files (disk st) |} in
    if elapsed_at_least (last_checkpoint_time st) current_time
         CHECKPOINT_INTERVAL then
      let data := set_current_step "project"
                    (set_step1_progress i (checkpoint_data st)) in
      let '(data', d2) := save_checkpoint data d1 in
      {| processed_count := processed_count st + 1;
         skipped_count := skipped_count st;
         last_checkpoint_time := current_time;
         checkpoint_data := data';
         disk := d2;
         errors := errors st |}
    else
      {| processed_count := processed_count st + 1;
         skipped_count := skipped_count st;
         last_checkpoint_time := last_checkpoint_time st;
         checkpoint_data := checkpoint_data st;
         disk := d1;
         errors := errors st |}.

(** the state when the loop starts; [last_checkpoint_time] is read from
    the clock *)
Definition s1_init (ckpt : Checkpoint) (d : Disk) : S1State :=
  {| processed_count := 0;
     skipped_count := 0;
     last_checkpoint_time := clock (ticks d);
     checkpoint_data := ckpt;
     disk := {| ticks := S (ticks d);
                checkpoint_doc := checkpoint_doc d;
                saved := saved d;
                files := files d |};
     errors := [] |}.

Definition s1_loop (pm : ProjectManager) (crs : string)
    (ckpt : Checkpoint) (tfs : list string) (d : Disk)
    : S1State :=
  let start_idx := default 0 (ck_step1_progress ckpt) in
  foldl (s1_step pm crs) (s1_init ckpt d)
    (enumerate (py_slice_from tfs start_idx) (start_idx + 1)).

(** [tfs] is what [glob] finds in the input directory.  Returns the
    stage's outcome and the state it leaves. *)
Definition s1 (pm : ProjectManager) (crs : string)
    (ckpt : Checkpoint) (tfs : list string) (d : Disk)
    : bool * S1State :=
  match tfs with
  | [] =>
      (false,
       {| processed_count := 0; skipped_count := 0;
          last_checkpoint_time := 0;
          checkpoint_data := ckpt; disk := d; errors := [] |})
  | _ =>
      let st := s1_loop pm crs ckpt tfs d in
      let data := set_step1_complete true
                    (set_step1_progress (Z.of_nat (length tfs))
                       (checkpoint_data st)) in
      let '(data', d') := save_checkpoint data (disk st) in
      (true,
       {| processed_count := processed_count st;
          skipped_count := skipped_count st;
          last_checkpoint_time := last_checkpoint_time st;
          checkpoint_data := data';
          disk := d';
          errors := errors st |})
  end.
End Stage1.

(** ** Stage 2: generation ([s2]) *)

Record S2State := mkS2State {
  total_mca_created : Z;
  s2_last_checkpoint_time : Z;
  s2_checkpoint_data : Checkpoint;
  s2_disk : Disk;
  s2_existing_mcas_set : gset string;
  (** what the emission did, oldest first *)
  s2_events : list Event;
  (** the tiles read to estimate the elevation floor, oldest first *)
  s2_sampled : list string
}.

Section Stage2.
Context `{!Clock} `{!Rasterio} `{!Anvil}.

(** the body of the sampling loop *)
Definition sample_step (bx by_ : Z) (me : Z) (tp : string) : Z :=
  match process_tiff_simple tp bx by_ nodata_default with
  | Some (cm, _) => if bool_decide (cm < me) then cm else me
  | None => me
  end.

Definition sample_tiles (tfs : list string) : list string :=
  let sample_size := Z.min 100 (Z.of_nat (length tfs)) in
  py_slice_to tfs sample_size.

(** the sampling loop, from [me = 0] *)
Definition estimate_floor (tfs : list string) (bx by_ : Z) : Z :=
  foldl (sample_step bx by_) 0 (sample_tiles tfs).

(** "Calculate or load minimum elevation": the floor, the checkpoint
    data and the disk afterwards, and the tiles sampled. *)
Definition floor_phase (tfs : list string) (bx by_ : Z)
    (ckpt : Checkpoint) (d : Disk)
    : Z * Checkpoint * Disk * list string :=
  match ck_min_elevation ckpt with
  | None =>
      let me := estimate_floor tfs bx by_ in
      let '(data', d') := save_checkpoint (set_min_elevation me ckpt) d in
      (me, data', d', sample_tiles tfs)
  | Some me => (me, ckpt, d, [])
  end.

(** the inner loop of a batch: the batch's coordinate map *)
Definition collect_step (bx by_ : Z) (batch_coords : list ((Z * Z) * Z))
    (tiff_path : string) : list ((Z * Z) * Z) :=
  match process_tiff_simple tiff_path bx by_ nodata_default with
  | Some (_, coords) =>
      match coords with
      | [] => batch_coords
      | _ => PyDict.update batch_coords coords
      end
  | None => batch_coords
  end.

Definition collect_batch (bx by_ : Z) (batch_files : list string)
    : list ((Z * Z) * Z) :=
  foldl (collect_step bx by_) [] batch_files.

Definition batch_files_of (tfs : list string) (bs batch_idx : Z)
    : list string :=
  let batch_start_idx := batch_idx * bs in
  let batch_end_idx :=
    Z.min (batch_start_idx + bs) (Z.of_nat (length tfs)) in
  py_slice tfs batch_start_idx batch_end_idx.

(** the body of the batch loop *)
Definition s2_step (pm : ProjectManager) (bx by_ bs me : Z)
    (tfs : list string) (st : S2State) (batch_idx : Z) : S2State :=
  let batch_coords := collect_batch bx by_ (batch_files_of tfs bs batch_idx) in
  let r :=
    match batch_coords with
    | [] => mkBatchState 0 (s2_existing_mcas_set st) []
    | _ =>
        generate_mca_batch batch_coords bx by_ me (output_dir pm)
          (s2_existing_mcas_set st)
          (default false (ck_is_dsm (s2_checkpoint_data st)))
    end in
  let total := total_mca_created st + mca_count r in
  let current_time := clock (ticks (s2_disk st)) in
  let d1 := {| ticks := S (ticks (s2_disk st));
               checkpoint_doc := checkpoint_doc (s2_disk st);
               saved := saved (s2_disk st);
               files := files (s2_disk st) |} in
  if elapsed_at_least (s2_last_checkpoint_time st) current_time
       CHECKPOINT_INTERVAL then
    let data := set_mca_created total
                  (set_step2_batch (batch_idx + 1)
                     (s2_checkpoint_data st)) in
    let '(data', d2) := save_checkpoint data d1 in
    {| total_mca_created := total;
       s2_last_checkpoint_time := current_time;
       s2_checkpoint_data := data';
       s2_disk := d2;
       s2_existing_mcas_set := existing_mcas_set r;
       s2_events := s2_events st ++ events r;
       s2_sampled := s2_sampled st |}
  else
    {| total_mca_created := total;
       s2_last_checkpoint_time := s2_last_checkpoint_time st;
       s2_checkpoint_data := s2_checkpoint_data st;
       s2_disk := d1;
       s2_existing_mcas_set := existing_mcas_set r;
       s2_events := s2_events st ++ events r;
       s2_sampled := s2_sampled st |}.

(** [tfs] is the sorted list [glob] finds in the reprojected directory
    and [existing_mca_paths] what it finds in the output directory before
    the batches.  [None] is the [ZeroDivisionError] of a batch size of 0;
    otherwise the stage's outcome and the state it leaves.  The final
    count of region files is the length of what [glob] finds in the
    output directory after the batches. *)
Definition s2 (pm : ProjectManager) (bx by_ bs : Z) (ckpt : Checkpoint)
    (tfs : list string) (existing_mca_paths : list string) (d : Disk)
    : option (bool * S2State) :=
  match tfs with
  | [] =>
      Some (false,
            {| total_mca_created := 0; s2_last_checkpoint_time := 0;
               s2_checkpoint_data := ckpt; s2_disk := d;
               s2_existing_mcas_set := ∅; s2_events := [];
               s2_sampled := [] |})
  | _ =>
      if decide (bs = 0) then None
      else
        let total_batches := (Z.of_nat (length tfs) + bs - 1) `div` bs in
        let start_batch := default 0 (ck_step2_batch ckpt) in
        let '(me, data0, d0, sampled) := floor_phase tfs bx by_ ckpt d in
        let existing : gset string :=
          list_to_set (basename <$> existing_mca_paths) in
        let st0 :=
          {| total_mca_created := 0;
             s2_last_checkpoint_time := clock (ticks d0);
             s2_checkpoint_data := data0;
             s2_disk := {| ticks := S (ticks d0);
                           checkpoint_doc := checkpoint_doc d0;
                           saved := saved d0;
                           files := files d0 |};
             s2_existing_mcas_set := existing;
             s2_events := [];
             s2_sampled := sampled |} in
        let st := foldl (s2_step pm bx by_ bs me tfs) st0
                    (seqZ start_batch (total_batches - start_batch)) in
        let final_mca_count :=
          Z.of_nat (length (mca_files_after (output_dir pm))) in
        let data := set_final_mca_count final_mca_count
                      (set_step2_complete true (s2_checkpoint_data st)) in
        let '(data', d') := save_checkpoint data (s2_disk st) in
        Some (true,
              {| total_mca_created := total_mca_created st;
                 s2_last_checkpoint_time := s2_last_checkpoint_time st;
                 s2_checkpoint_data := data';
                 s2_disk := d';
                 s2_existing_mcas_set := s2_existing_mcas_set st;
                 s2_events := s2_events st;
                 s2_sampled := s2_sampled st |})
  end.
End Stage2.

(** ** Project names ([validate_project_name])

    A Python [str] is a sequence of code points. *)

(** [str.isspace] of one code point, which is what [str.strip] removes *)
Definition is_space (c : Z) : bool :=
  bool_decide (9 <= c <= 13) || bool_decide (28 <= c <= 32)
  || bool_decide (c = 133) || bool_decide (c = 160)
  || bool_decide (c = 5760) || bool_decide (8192 <= c <= 8202)
  || bool_decide (c = 8232) || bool_decide (c = 8233)
  || bool_decide (c = 8239) || bool_decide (c = 8287)
  || bool_decide (c = 12288).

Fixpoint lstrip (s : list Z) : list Z :=
  match s with
  | c :: s' => if is_space c then lstrip s' else s
  | [] => []
  end.

Definition rstrip (s : list Z) : list Z := reverse (lstrip (reverse s)).

(** [name.strip()] *)
Definition strip (s : list Z) : list Z := rstrip (lstrip s).

(** the class [[a-zA-Z0-9_-]] *)
Definition name_char (c : Z) : bool :=
  bool_decide (97 <= c <= 122) || bool_decide (65 <= c <= 90)
  || bool_decide (48 <= c <= 57) || bool_decide (c = 95)
  || bool_decide (c = 45).

Fixpoint span_name (s : list Z) : list Z * list Z :=
  match s with
  | c :: s' =>
      if name_char c then let '(w, rest) := span_name s' in (c :: w, rest)
      else ([], s)
  | [] => ([], [])
  end.

(** [re.match(r'^[a-zA-Z0-9_-]+$', name)]: one or more characters of the
    class, up to the end of the string or to a newline that ends it *)
Definition name_matches (s : list Z) : bool :=
  let '(w, rest) := span_name s in
  negb (bool_decide (w = []))
  && (bool_decide (rest = []) || bool_decide (rest = [10])).

(** a [str] of code points below 256 as a string of the paths *)
Definition string_of_codes (s : list Z) : string :=
  foldr (fun c acc => String (ascii_of_N (Z.to_N c)) acc) "" s.

(** What [validate_project_name] returns: [(False, t(key))] or
    [(True, name)]. *)
Inductive Validation :=
  | Rejected (key : string)
  | Accepted (name : string).

(** [name] is what the prompt returns, [None] for Python's [None];
    [path_exists] is [os.path.exists]. *)
Definition validate_project_name (path_exists : string -> bool)
    (name : option (list Z)) : Validation :=
  match name with
  | None => Rejected "pn"
  | Some s =>
      if bool_decide (s = []) || bool_decide (length (strip s) = 0%nat)
      then Rejected "pn"
      else
        let name := strip s in
        if negb (name_matches name) then Rejected "pni"
        else if path_exists (path_join PROJECTS_DIR (string_of_codes name))
        then Rejected "pe"
        else Accepted (string_of_codes name)
  end.

(** ** The resume path ([get_existing_projects], [resume_project]) *)

(** What [checkpoint.json] of a project directory is: absent, present but
    such that opening or parsing it raises, or a document. *)
Inductive CheckpointFile :=
  | NoCheckpoint
  | Unreadable
  | Document (data : Checkpoint).

(** An entry of [os.listdir(PROJECTS_DIR)]. *)
Inductive DirEntry :=
  | PlainFile
  | Directory (checkpoint : CheckpointFile).

(** [pm.load_checkpoint()]: [None] when it raises, [Some None] for the
    source's [None]. *)
Definition load_checkpoint (f : CheckpointFile) : option (option Checkpoint) :=
  match f with
  | NoCheckpoint => Some None
  | Unreadable => None
  | Document data => Some (Some data)
  end.

(** the body of the loop of [get_existing_projects]; the bare [except]
    passes over a checkpoint that cannot be read *)
Definition existing_step (projects : list (string * Checkpoint))
    (entry : string * DirEntry) : list (string * Checkpoint) :=
  let '(proj_name, e) := entry in
  match e with
  | Directory checkpoint =>
      match checkpoint with
      | NoCheckpoint => projects
      | Unreadable => projects
      | Document data => projects ++ [(proj_name, data)]
      end
  | PlainFile => projects
  end.

Definition get_existing_projects (listing : list (string * DirEntry))
    : list (string * Checkpoint) :=
  foldl existing_step [] listing.

(** The interactive prompt: what [questionary.select(..., choices).ask()]
    returns. *)
Class Prompt := {
  select : list string -> option string
}.

(** What [resume_project] prints. *)
Inductive Message :=
  | MsgNoProjects
  | MsgResuming (proj_name : string)
  | MsgResumeStep (current_step : string).

Inductive ResumeResult :=
  | ResumeNone
  | ResumeProject (pm : ProjectManager) (checkpoint_data : Checkpoint)
  | ResumeRaised.

(** [f"{name} ({data.get('current_step', 'unknown')} -
    {data.get('timestamp', 'N/A')[:19]})"] *)
Definition choice_label (project : string * Checkpoint) : string :=
  let '(name, data) := project in
  name +:+ " (" +:+ default "unknown" (ck_current_step data) +:+ " - "
    +:+ String.substring 0 19 (default "N/A" (ck_timestamp data)) +:+ ")".

Section Resume.
Context `{!Prompt}.

(** Returns the source's pair ([ResumeNone] for [(None, None)],
    [ResumeRaised] when [choices.index] raises) and what was printed. *)
Definition resume_project (listing : list (string * DirEntry))
    : ResumeResult * list Message :=
  let projects := get_existing_projects listing in
  match projects with
  | [] => (ResumeNone, [MsgNoProjects])
  | _ =>
      let choices := choice_label <$> projects in
      match select choices with
      | None => (ResumeNone, [])
      | Some sel =>
          if String.eqb sel "" then (ResumeNone, [])
          else
            match list_find (fun c => c = sel) choices with
            | None => (ResumeRaised, [])
            | Some (idx, _) =>
                match projects !! idx with
                | None => (ResumeRaised, [])
                | Some (proj_name, checkpoint_data) =>
                    (ResumeProject (new_ProjectManager proj_name)
                       checkpoint_data,
                     [MsgResuming proj_name;
                      MsgResumeStep
                        (default "unknown"
                           (ck_current_step checkpoint_data))])
                end
            end
      end
  end.
End Resume.

(** ** The driver ([main]) *)

(** What the stages find on disk when they start: the [.tif] files of the
    input directory, the sorted [.tif] files of the reprojected directory
    and the region files of the output directory. *)
Record Inputs := mkInputs {
  in_input_tifs : list string;
  in_projected_tifs : list string;
  in_existing_mcas : list string
}.

Inductive MainResult :=
  (** [main] returned before running a stage *)
  | MainReturned
  (** the stages ran with this outcome; the disk afterwards *)
  | MainRan (ok : bool) (d : Disk)
  (** an exception reached [main]'s handler *)
  | MainError.

Section Driver.
Context `{!Clock} `{!Rasterio} `{!Anvil} `{!Prompt}.

(** [ok = s2(pm, ckpt['bx'], ckpt['by'], ckpt['bs'], ckpt)]: the outcome
    and the disk afterwards, [None] when a key is missing or [s2]
    raises. *)
Definition run_s2 (pm : ProjectManager) (ckpt : Checkpoint)
    (inp : Inputs) (d : Disk) : option (bool * Disk) :=
  match ck_bx ckpt, ck_by ckpt, ck_bs ckpt with
  | Some bx, Some by_, Some bs =>
      match s2 pm bx by_ bs ckpt (in_projected_tifs inp)
              (in_existing_mcas inp) d with
      | Some (ok, st) => Some (ok, s2_disk st)
      | None => None
      end
  | _, _, _ => None
  end.

(** [if ok: pm.delete_checkpoint()] *)
Definition finish (ok : bool) (d : Disk) : MainResult :=
  MainRan ok (if ok then delete_checkpoint d else d).

(** the stages of a mode, then [finish]; [ms] is ["project"],
    ["generate"] or ["all"] *)
Definition run_new (ms : string) (pm : ProjectManager) (cfg : Checkpoint)
    (inp : Inputs) (d : Disk) : MainResult :=
  if String.eqb ms "project" then
    match ck_crs cfg with
    | None => MainError
    | Some crs =>
        let '(ok, st) := s1 pm crs cfg (in_input_tifs inp) d in
        finish ok (disk st)
    end
  else if String.eqb ms "generate" then
    match run_s2 pm cfg inp d with
    | None => MainError
    | Some (ok, d') => finish ok d'
    end
  else if String.eqb ms "all" then
    match ck_crs cfg with
    | None => MainError
    | Some crs =>
        let '(ok, st) := s1 pm crs cfg (in_input_tifs inp) d in
        if ok then
          match run_s2 pm (checkpoint_data st) inp (disk st) with
          | None => MainError
          | Some (ok', d') => finish ok' d'
          end
        else finish ok (disk st)
    end
  else MainError.

(** the Resume branch of [main] *)
Definition run_resume (listing : list (string * DirEntry)) (inp : Inputs)
    (d : Disk) : MainResult * list Message :=
  match resume_project listing with
  | (ResumeRaised, msgs) => (MainError, msgs)
  | (ResumeNone, msgs) => (MainReturned, msgs)
  | (ResumeProject pm ckpt, msgs) =>
      let r :=
        match ck_current_step ckpt with
        | Some step =>
            if String.eqb step "project" then
              match ck_crs ckpt with
              | None => MainError
              | Some crs =>
                  let '(ok, st) := s1 pm crs ckpt (in_input_tifs inp) d in
                  if ok then
                    match ck_mode (checkpoint_data st) with
                    | None => MainError
                    | Some mode =>
                        if String.eqb mode "all" || String.eqb mode "All"
                        then
                          match run_s2 pm (checkpoint_data st) inp
                                  (disk st) with
                          | None => MainError
                          | Some (ok', d') => finish ok' d'
                          end
                        else finish ok (disk st)
                    end
                  else finish ok (disk st)
              end
            else if String.eqb step "generate" then
              match run_s2 pm ckpt inp d with
              | None => MainError
              | Some (ok, d') => finish ok d'
              end
            else MainReturned
        | None => MainReturned
        end in
      (r, msgs)
  end.
End Driver.

(** ** Vocabulary of the statements *)

Section Samples.
Context `{!Rasterio}.

(** The samples a tile contributes, in the order [process_tiff_simple]
    inserts them: its cells that are not the nodata sentinel; none when
    the tile cannot be read. *)
Definition tile_samples (bx by_ : Z) (tiff_path : string)
    : list ((Z * Z) * Z) :=
  match read_raster tiff_path bx by_ with
  | None => []
  | Some cells => filter (fun c => c.2 ≠ nodata_default) cells
  end.

(** The samples of the tiles of a batch, in processing order. *)
Definition batch_samples (bx by_ : Z) (batch_files : list string)
    : list ((Z * Z) * Z) :=
  concat (tile_samples bx by_ <$> batch_files).
End Samples.

(** The file name an event is about. *)
Definition event_touches (output_dir : string) (fname : string) (e : Event)
    : Prop :=
  match e with
  | EvBuild region_x region_z _ _ => region_file_name region_x region_z = fname
  | EvSave mca_path _ _ => mca_path = path_join output_dir fname
  end.

(** An event about a region whose file name is not in the set [S0]. *)
Definition event_fresh (output_dir : string) (S0 : gset string) (e : Event)
    : Prop :=
  exists rx rz : Z,
    (region_file_name rx rz ∉ S0) /\
    match e with
    | EvBuild region_x region_z _ _ => (region_x, region_z) = (rx, rz)
    | EvSave mca_path _ _ =>
        mca_path = path_join output_dir (region_file_name rx rz)
    end.

(** The floor an event was built with, if it is a build. *)
Definition event_floor (e : Event) : option Z :=
  match e with
  | EvBuild _ _ min_elevation _ => Some min_elevation
  | EvSave _ _ _ => None
  end.

(** An event that, if it is a build, was built with the floor [v]. *)
Definition floor_is (v : Z) (e : Event) : Prop :=
  forall m, event_floor e = Some m -> m = v.

(** The per-tile minima of the tiles sampled for the floor, in order; a
    tile without a valid cell has none. *)
Definition sampled_minima `{!Rasterio} (tfs : list string) (bx by_ : Z)
    : list Z :=
  omap (fun tp => fst <$> process_tiff_simple tp bx by_ nodata_default)
    (py_slice_to tfs (Z.min 100 (Z.of_nat (length tfs)))).

(** A listing in which every checkpoint that cannot be read is replaced by
    no checkpoint at all. *)
Definition forget_unreadable (entry : string * DirEntry) : string * DirEntry :=
  match entry with
  | (name, Directory Unreadable) => (name, Directory NoCheckpoint)
  | _ => entry
  end.

(** The project an entry of the listing offers for resuming, if any. *)
Definition resumable (entry : string * DirEntry) : option (string * Checkpoint) :=
  match entry with
  | (name, Directory (Document data)) => Some (name, data)
  | _ => None
  end.

(** ** A small world for the examples

    Two tiles: [a.tif] has the column (0, 0) twice, a nodata cell and its
    lowest sample at 5; [b.tif] overlaps it at (1, 0); any other tile cannot
    be read.  Reprojecting [in/a.tif] raises; the codec never raises, and
    the output directory ends with the files of the two regions the tiles
    touch; the clock advances six seconds per reading. *)

Definition ex_clock : Clock :=
  {| clock := fun n => Z.of_nat n * 6000000;
     isoformat := fun t => pretty t |}.

Definition ex_rasterio : Rasterio :=
  {| read_raster := fun tiff_path _ _ =>
       if String.eqb tiff_path "a.tif" then
         Some [((0, 0), 5); ((1, 0), 7); ((0, 0), 9); ((600, -3), -9999)]
       else if String.eqb tiff_path "b.tif" then
         Some [((1, 0), 12); ((600, -3), 8)]
       else None;
     reproject_raises := fun inp _ _ => String.eqb inp "in/a.tif" |}.

(** every reprojection raises *)
Definition ex_rasterio_failing : Rasterio :=
  {| read_raster := fun _ _ _ => None;
     reproject_raises := fun _ _ _ => true |}.

(** the operator picks the first choice offered *)
Definition ex_prompt : Prompt :=
  {| select := fun choices => head choices |}.

Definition ex_anvil : Anvil :=
  {| set_block_raises := fun _ _ _ _ => false;
     add_chunk_raises := fun _ _ => false;
     save_raises := fun _ _ => false;
     mca_files_after := fun dir =>
       [path_join dir "r.0.0.mca"; path_join dir "r.1.-1.mca"] |}.

(** the configuration [get_config] writes for a project [p] *)
Definition ex_config : Checkpoint :=
  {| ck_mode := Some "all"; ck_is_dsm := Some false;
     ck_crs := Some "EPSG:6677"; ck_bx := Some 0; ck_by := Some 0;
     ck_bs := Some 10; ck_project_name := Some "p";
     ck_timestamp := Some "0"; ck_current_step := None;
     ck_step1_progress := None; ck_step1_complete := None;
     ck_min_elevation := None; ck_step2_batch := None;
     ck_mca_created := None; ck_step2_complete := None;
     ck_final_mca_count := None |}.

Definition ex_pm : ProjectManager := new_ProjectManager "p".

Definition ex_disk : Disk :=
  {| ticks := 0; checkpoint_doc := Some ex_config; saved := [];
     files := ∅ |}.

(** ** Vocabulary of the further properties *)

(** Reading the nested structure [organize_by_region] returns at the keys
    of the coordinate (x, z):
    [region_data[(x >> 9, z >> 9)][((x >> 4) & 31, (z >> 4) & 31)]
    [(x & 15, z & 15)]], [None] where a key is missing. *)
Definition organized_get
    (region_data : list ((Z * Z) * list ((Z * Z) * list ((Z * Z) * Z))))
    (x z : Z) : option Z :=
  match PyDict.get (x ≫ 9, z ≫ 9) region_data with
  | None => None
  | Some chunks =>
      match PyDict.get (Z.land (x ≫ 4) 31, Z.land (z ≫ 4) 31) chunks with
      | None => None
      | Some blocks => PyDict.get (Z.land x 15, Z.land z 15) blocks
      end
  end.

(** What holds of a structure organized from the coordinate map
    [coords_data]: no key twice at any of the three levels, no empty
    dictionary below a key, and every entry is a sample of the map, stored
    under the keys of its coordinate. *)
Definition organized_wf (coords_data : list ((Z * Z) * Z))
    (region_data : list ((Z * Z) * list ((Z * Z) * list ((Z * Z) * Z))))
    : Prop :=
  NoDup region_data.*1 /\
  forall rk chunks,
    (rk, chunks) ∈ region_data ->
    chunks <> [] /\ NoDup chunks.*1 /\
    forall ck blocks,
      (ck, blocks) ∈ chunks ->
      blocks <> [] /\ NoDup blocks.*1 /\
      forall bk y,
        (bk, y) ∈ blocks ->
        exists x z,
          ((x, z), y) ∈ coords_data /\ decompose x z = mkDecomp rk ck bk.

(** whether the event is a [save] that did not raise *)
Definition event_saved (e : Event) : bool :=
  match e with
  | EvSave _ _ raised => negb raised
  | EvBuild _ _ _ _ => false
  end.

(** the column (x, z) of a block set at (x, y, z), and the coordinates of
    a chunk *)
Definition block_column (b : Z * Z * Z) : Z * Z := (b.1.1, b.2).

Definition chunk_coords (c : EmptyChunk) : Z * Z := (ch_x c, ch_z c).



(** the paths of the region files saved without an exception, oldest
    first *)
Definition saved_paths (es : list Event) : list string :=
  omap (fun e => match e with
                 | EvSave mca_path _ false => Some mca_path
                 | _ => None
                 end) es.

(** What holds of the skip-set [S], the events [es] and the count [n] of
    an emission into [out] that started from the skip-set [S0]: no path
    was saved twice; a path saved is that of a region whose name was not
    in [S0]; [S] is [S0] and the names of the regions saved; [n] counts
    the paths saved. *)
Definition write_once (out : string) (S0 S : gset string)
    (es : list Event) (n : Z) : Prop :=
  NoDup (saved_paths es) /\
  (forall p, p ∈ saved_paths es ->
     exists rx rz,
       p = path_join out (region_file_name rx rz) /\
       region_file_name rx rz ∉ S0) /\
  (forall name,
     name ∈ S <->
     name ∈ S0 \/
     exists rx rz,
       name = region_file_name rx rz /\
       path_join out name ∈ saved_paths es) /\
  n = Z.of_nat (length (saved_paths es)) /\
  size S = (size S0 + length (saved_paths es))%nat.

(** the batch cursor and the count of files created a checkpoint
    document holds, and the two as stage 2 writes them *)
Definition doc_cursor (doc : Checkpoint) : option Z * option Z :=
  (ck_step2_batch doc, ck_mca_created doc).

Definition written_cursor (c : Z * Z) : option Z * option Z :=
  (Some c.1, Some c.2).

(** the offsets and the batch size of a configuration, which the driver
    hands to stage 2 *)
Definition batch_config (c : Checkpoint) : option Z * option Z * option Z :=
  (ck_bx c, ck_by c, ck_bs c).

(** whether the character occurs in the string *)
Fixpoint contains_char (c : ascii) (s : string) : bool :=
  match s with
  | EmptyString => false
  | String c' s' => Ascii.eqb c c' || contains_char c s'
  end.

(** * Properties *)

(** ** The partitioner *)

Lemma region_of_div v : region_of v = v `div` 512.
Proof. unfold region_of. by rewrite Z.shiftr_div_pow2. Qed.

Lemma chunk_of_mod v : chunk_of v = (v `div` 16) `mod` 32.
Proof.
  unfold chunk_of. change 31 with (Z.ones 5).
  rewrite Z.land_ones by lia. by rewrite Z.shiftr_div_pow2.
Qed.

Lemma block_of_mod v : block_of v = v `mod` 16.
Proof. unfold block_of. change 15 with (Z.ones 4). by rewrite Z.land_ones. Qed.

Lemma recombine_axis_of v :
  recombine_axis (region_of v) (chunk_of v) (block_of v) = v.
Proof.
  unfold recombine_axis.
  rewrite region_of_div, chunk_of_mod, block_of_mod.
  pose proof (Z.div_div v 16 32) as Hdd.
  change (16 * 32) with 512 in Hdd.
  rewrite <- Hdd by lia.
  pose proof (Z.div_mod v 16).
  pose proof (Z.div_mod (v `div` 16) 32).
  lia.
Qed.

Lemma chunk_of_range v : 0 <= chunk_of v < 32.
Proof. rewrite chunk_of_mod. apply Z.mod_pos_bound. lia. Qed.

Lemma block_of_range v : 0 <= block_of v < 16.
Proof. rewrite block_of_mod. apply Z.mod_pos_bound. lia. Qed.

Lemma recombine_decompose x z : recombine (decompose x z) = (x, z).
Proof. unfold recombine, decompose; simpl. by rewrite !recombine_axis_of. Qed.

(** C1: decomposing any integer coordinate (x, z) into its region, chunk
    and block keys and recombining them gives back (x, z); two coordinates
    with the same keys are equal (no collision), negative coordinates
    included; the keys the loop of [organize_by_region] computes are those
    of [decompose], with the chunk index in 0..31 and the block index in
    0..15. *)
Theorem partition_roundtrip :
  (forall x z : Z, recombine (decompose x z) = (x, z)) /\
  (forall x z x' z' : Z,
      decompose x z = decompose x' z' -> (x, z) = (x', z')) /\
  (forall x z y : Z,
      organize_step [] ((x, z), y) =
      [(region_key (decompose x z),
        [(chunk_key (decompose x z), [(block_key (decompose x z), y)])])]) /\
  (forall v : Z, 0 <= chunk_of v < 32 /\ 0 <= block_of v < 16).
Proof.
  split; [exact recombine_decompose|]. split; [|split].
  - intros x z x' z' Heq.
    rewrite <- (recombine_decompose x z), <- (recombine_decompose x' z').
    by rewrite Heq.
  - intros x z y. reflexivity.
  - intros v. split; [apply chunk_of_range|apply block_of_range].
Qed.

Lemma partition_roundtrip_witness :
  recombine (decompose (-513) (-1)) = (-513, -1) /\
  (decompose (-513) (-1) = decompose (-513) (-1) -> (-513, -1) = (-513, -1)).
Proof.
  destruct partition_roundtrip as (Hr & Hinj & _).
  split; [apply Hr|]. apply Hinj.
Defined.

(** C8: the region coordinate is a floor shift, so the boundary values of
    the specification hold. *)
Theorem region_boundaries :
  region_of 511 = 0 /\ region_of 512 = 1 /\ region_of (-1) = -1 /\
  region_of (-512) = -1 /\ region_of (-513) = -2.
Proof. repeat split; reflexivity. Qed.

(** ** Dictionaries *)

Module PyDictFacts.
Section Facts.
Context {K V : Type} `{EqDecision K}.
Implicit Types (d l : list (K * V)) (k : K) (v : V).

Lemma get_set_eq k v d : PyDict.get k (PyDict.set k v d) = Some v.
Proof.
  induction d as [|[k' v'] d IH]; simpl.
  - by rewrite decide_True.
  - destruct (decide (k = k')) as [->|Hne]; simpl.
    + by rewrite decide_True.
    + by rewrite decide_False.
Qed.

Lemma get_set_ne k k' v d :
  k ≠ k' -> PyDict.get k' (PyDict.set k v d) = PyDict.get k' d.
Proof.
  intros Hne. induction d as [|[k0 v0] d IH]; simpl.
  - by rewrite decide_False.
  - destruct (decide (k = k0)) as [->|Hne0]; simpl.
    + by rewrite !decide_False.
    + destruct (decide (k' = k0)); [done|apply IH].
Qed.

Lemma get_None k d : PyDict.get k d = None <-> k ∉ d.*1.
Proof.
  induction d as [|[k' v'] d IH]; simpl.
  - split; [intros _; apply not_elem_of_nil|done].
  - rewrite not_elem_of_cons. destruct (decide (k = k')) as [->|Hne].
    + split; [done|intros [? _]; done].
    + rewrite IH. tauto.
Qed.

Lemma get_Some_elem k v d : PyDict.get k d = Some v -> (k, v) ∈ d.
Proof.
  induction d as [|[k' v'] d IH]; simpl; [done|].
  destruct (decide (k = k')) as [->|Hne].
  - intros [= ->]. apply list_elem_of_here.
  - intros Hg. apply list_elem_of_further. by apply IH.
Qed.

Lemma keys_set k v d :
  (PyDict.set k v d).*1 = if decide (k ∈ d.*1) then d.*1 else d.*1 ++ [k].
Proof.
  induction d as [|[k' v'] d IH].
  - rewrite decide_False; [done|apply not_elem_of_nil].
  - cbn [PyDict.set]. rewrite fmap_cons. cbn [fst].
    destruct (decide (k = k')) as [->|Hne].
    + rewrite decide_True; [done|apply list_elem_of_here].
    + rewrite fmap_cons, IH. cbn [fst].
      destruct (decide (k ∈ d.*1)) as [Hin|Hnin].
      * rewrite decide_True; [done|by apply list_elem_of_further].
      * rewrite decide_False; [done|].
        rewrite not_elem_of_cons. done.
Qed.

Lemma elem_keys_set k k' v d :
  k' ∈ (PyDict.set k v d).*1 <-> k' = k \/ k' ∈ d.*1.
Proof.
  rewrite keys_set. destruct (decide (k ∈ d.*1)) as [Hin|Hnin].
  - split; [by right|]. intros [->|?]; done.
  - rewrite elem_of_app, list_elem_of_singleton. tauto.
Qed.

Lemma NoDup_set k v d : NoDup d.*1 -> NoDup (PyDict.set k v d).*1.
Proof.
  intros Hnd. rewrite keys_set. destruct (decide (k ∈ d.*1)); [done|].
  apply NoDup_app. split; [done|]. split.
  - intros x Hx Hk. apply list_elem_of_singleton in Hk. by subst.
  - apply NoDup_singleton.
Qed.

Lemma update_snoc d l k v :
  PyDict.update d (l ++ [(k, v)]) = PyDict.set k v (PyDict.update d l).
Proof. unfold PyDict.update. by rewrite foldl_app. Qed.

Lemma update_app d l1 l2 :
  PyDict.update d (l1 ++ l2) = PyDict.update (PyDict.update d l1) l2.
Proof. unfold PyDict.update. by rewrite foldl_app. Qed.

Lemma NoDup_update d l : NoDup d.*1 -> NoDup (PyDict.update d l).*1.
Proof.
  intros Hnd. induction l as [|[k v] l IH] using rev_ind; [done|].
  rewrite update_snoc. by apply NoDup_set.
Qed.

Lemma NoDup_of_seq l : NoDup (PyDict.of_seq l).*1.
Proof. apply NoDup_update. simpl. apply NoDup_nil_2. Qed.

(** Assigning a sequence of pairs: the earlier content of the dictionary
    shows only at the keys the sequence does not mention. *)
Lemma get_update k d l :
  PyDict.get k (PyDict.update d l) =
  match PyDict.get k (PyDict.of_seq l) with
  | Some v => Some v
  | None => PyDict.get k d
  end.
Proof.
  unfold PyDict.of_seq.
  induction l as [|[k' v'] l IH] using rev_ind; [done|].
  rewrite !update_snoc. destruct (decide (k' = k)) as [->|Hne].
  - by rewrite !get_set_eq.
  - by rewrite !get_set_ne.
Qed.

Lemma get_update_notin k d l :
  k ∉ l.*1 -> PyDict.get k (PyDict.update d l) = PyDict.get k d.
Proof.
  intros Hk. induction l as [|[k' v'] l IH] using rev_ind; [done|].
  rewrite fmap_app, not_elem_of_app in Hk. destruct Hk as [Hk1 Hk2].
  rewrite update_snoc, get_set_ne; [by apply IH|].
  simpl in Hk2. rewrite list_elem_of_singleton in Hk2. done.
Qed.

(** last write wins *)
Lemma get_update_last k v d pre post :
  k ∉ post.*1 ->
  PyDict.get k (PyDict.update d (pre ++ (k, v) :: post)) = Some v.
Proof.
  intros Hk. rewrite update_app. simpl.
  change (PyDict.get k
            (PyDict.update (PyDict.set k v (PyDict.update d pre)) post)
          = Some v).
  rewrite get_update_notin by done. apply get_set_eq.
Qed.

(** a dictionary read back as a sequence of pairs is itself *)
Lemma get_of_seq_dict k d :
  NoDup d.*1 -> PyDict.get k (PyDict.of_seq d) = PyDict.get k d.
Proof.
  unfold PyDict.of_seq. revert k.
  induction d as [|[k' v'] d IH] using rev_ind; intros k Hnd; [done|].
  rewrite fmap_app in Hnd. apply NoDup_app in Hnd as (Hnd1 & Hdisj & _).
  rewrite update_snoc. destruct (decide (k' = k)) as [->|Hne].
  - rewrite get_set_eq. symmetry.
    assert (Hnot : k ∉ d.*1).
    { intros Hin. apply (Hdisj _ Hin). simpl. apply list_elem_of_here. }
    clear -Hnot. induction d as [|[k0 v0] d IH]; simpl.
    + by rewrite decide_True.
    + rewrite fmap_cons, not_elem_of_cons in Hnot. destruct Hnot.
      rewrite decide_False by done. by apply IH.
  - rewrite get_set_ne by done. rewrite IH by done.
    clear -Hne. induction d as [|[k0 v0] d IH]; simpl.
    + by rewrite decide_False.
    + destruct (decide (k = k0)); [done|apply IH].
Qed.

Lemma get_update_dict k d d' :
  NoDup d'.*1 ->
  PyDict.get k (PyDict.update d d') =
  match PyDict.get k d' with
  | Some v => Some v
  | None => PyDict.get k d
  end.
Proof. intros Hnd. by rewrite get_update, get_of_seq_dict. Qed.

Lemma elem_of_set k v d kv : kv ∈ PyDict.set k v d -> kv = (k, v) \/ kv ∈ d.
Proof.
  induction d as [|[k' v'] d IH]; simpl.
  - intros Hin. apply list_elem_of_singleton in Hin. by left.
  - destruct (decide (k = k')) as [->|Hne]; intros Hin.
    + apply elem_of_cons in Hin as [->|Hin]; [by left|].
      right. by apply list_elem_of_further.
    + apply elem_of_cons in Hin as [->|Hin].
      * right. apply list_elem_of_here.
      * destruct (IH Hin) as [->|Hd]; [by left|].
        right. by apply list_elem_of_further.
Qed.

Lemma elem_of_update d l kv : kv ∈ PyDict.update d l -> kv ∈ d \/ kv ∈ l.
Proof.
  induction l as [|[k v] l IH] using rev_ind; [by left|].
  rewrite update_snoc. intros Hin.
  apply elem_of_set in Hin as [->|Hin].
  - right. apply elem_of_app. right. apply list_elem_of_here.
  - destruct (IH Hin) as [Hd|Hl]; [by left|].
    right. apply elem_of_app. by left.
Qed.
End Facts.
End PyDictFacts.

(** ** Sample extraction and the batch map *)

Section ExtractionFacts.
Context `{!Rasterio}.

Lemma process_tiff_simple_samples tp bx by_ :
  process_tiff_simple tp bx by_ nodata_default =
  match tile_samples bx by_ tp with
  | [] => None
  | c :: rest =>
      Some (foldl Z.min c.2 (rest.*2), PyDict.of_seq (c :: rest))
  end.
Proof.
  unfold process_tiff_simple, tile_samples.
  destruct (read_raster tp bx by_) as [cells|]; [|done].
  by destruct (filter _ cells).
Qed.

Lemma collect_step_update bx by_ acc tp :
  collect_step bx by_ acc tp =
  PyDict.update acc (PyDict.of_seq (tile_samples bx by_ tp)).
Proof.
  unfold collect_step. rewrite process_tiff_simple_samples.
  destruct (tile_samples bx by_ tp) as [|c rest]; [done|].
  by destruct (PyDict.of_seq (c :: rest)).
Qed.

Lemma collect_step_get bx by_ acc tp k :
  PyDict.get k (collect_step bx by_ acc tp) =
  PyDict.get k (PyDict.update acc (tile_samples bx by_ tp)).
Proof.
  rewrite collect_step_update.
  rewrite PyDictFacts.get_update_dict by apply PyDictFacts.NoDup_of_seq.
  by rewrite <- PyDictFacts.get_update.
Qed.

Lemma batch_samples_snoc bx by_ fs f :
  batch_samples bx by_ (fs ++ [f]) =
  batch_samples bx by_ fs ++ tile_samples bx by_ f.
Proof.
  unfold batch_samples. rewrite fmap_app, concat_app. simpl.
  by rewrite app_nil_r.
Qed.

Lemma collect_batch_snoc bx by_ fs f :
  collect_batch bx by_ (fs ++ [f]) =
  collect_step bx by_ (collect_batch bx by_ fs) f.
Proof. unfold collect_batch. by rewrite foldl_app. Qed.

(** the batch map reads as the dictionary of all the batch's samples *)
Lemma collect_batch_get bx by_ fs k :
  PyDict.get k (collect_batch bx by_ fs) =
  PyDict.get k (PyDict.of_seq (batch_samples bx by_ fs)).
Proof.
  induction fs as [|f fs IH] using rev_ind; [done|].
  rewrite collect_batch_snoc, batch_samples_snoc, collect_step_get.
  unfold PyDict.of_seq at 1. rewrite PyDictFacts.update_app.
  fold (PyDict.of_seq (batch_samples bx by_ fs)).
  rewrite (PyDictFacts.get_update k (collect_batch bx by_ fs)).
  rewrite (PyDictFacts.get_update k (PyDict.of_seq _)).
  by rewrite IH.
Qed.

Lemma collect_batch_NoDup bx by_ fs :
  NoDup (collect_batch bx by_ fs).*1.
Proof.
  induction fs as [|f fs IH] using rev_ind; [apply NoDup_nil_2|].
  rewrite collect_batch_snoc, collect_step_update.
  by apply PyDictFacts.NoDup_update.
Qed.

(** every entry of the batch map is a sample of one of its tiles *)
Lemma collect_batch_elem bx by_ fs kv :
  kv ∈ collect_batch bx by_ fs ->
  exists tp, tp ∈ fs /\ kv ∈ tile_samples bx by_ tp.
Proof.
  induction fs as [|f fs IH] using rev_ind.
  - intros Hin. by apply elem_of_nil in Hin.
  - rewrite collect_batch_snoc, collect_step_update. intros Hin.
    apply PyDictFacts.elem_of_update in Hin as [Hin|Hin].
    + destruct (IH Hin) as (tp & Htp & Hkv). exists tp.
      split; [|done]. apply elem_of_app. by left.
    + apply PyDictFacts.elem_of_update in Hin as [Hin|Hin];
        [by apply elem_of_nil in Hin|].
      exists f. split; [|done]. apply elem_of_app. right.
      apply list_elem_of_here.
Qed.

(** C7: last write wins within a batch.  In the dictionary a tile
    returns, and in the batch map built from the tiles of a batch in
    processing order, every key occurs once, and a key holds the
    elevation of the last sample inserted under it. *)
Theorem batch_last_write_wins :
  (forall tp bx by_ m coords pre k v post,
      process_tiff_simple tp bx by_ nodata_default = Some (m, coords) ->
      tile_samples bx by_ tp = pre ++ (k, v) :: post ->
      k ∉ post.*1 ->
      NoDup coords.*1 /\ PyDict.get k coords = Some v) /\
  (forall fs bx by_ pre k v post,
      batch_samples bx by_ fs = pre ++ (k, v) :: post ->
      k ∉ post.*1 ->
      NoDup (collect_batch bx by_ fs).*1 /\
      PyDict.get k (collect_batch bx by_ fs) = Some v).
Proof.
  split.
  - intros tp bx by_ m coords pre k v post Hp Hs Hk.
    rewrite process_tiff_simple_samples in Hp.
    destruct (tile_samples bx by_ tp) as [|c rest] eqn:Hts;
      [done|]. injection Hp as _ <-.
    split; [apply PyDictFacts.NoDup_of_seq|].
    rewrite Hs. by apply PyDictFacts.get_update_last.
  - intros fs bx by_ pre k v post Hs Hk.
    split; [apply collect_batch_NoDup|].
    rewrite collect_batch_get, Hs.
    by apply PyDictFacts.get_update_last.
Qed.
End ExtractionFacts.

Lemma batch_last_write_wins_witness :
  PyDict.get (0, 0) [((0, 0), 9); ((1, 0), 7)] = Some 9 /\
  PyDict.get (0, 0) (@collect_batch ex_rasterio 0 0 ["a.tif"; "b.tif"])
    = Some 9 /\
  PyDict.get (1, 0) (@collect_batch ex_rasterio 0 0 ["a.tif"; "b.tif"])
    = Some 12.
Proof.
  destruct (@batch_last_write_wins ex_rasterio) as [Htile Hbatch].
  split; [|split].
  - apply (Htile "a.tif" 0 0 5 [((0, 0), 9); ((1, 0), 7)]
             [((0, 0), 5); ((1, 0), 7)] (0, 0) 9 []).
    + reflexivity.
    + reflexivity.
    + apply not_elem_of_nil.
  - apply (Hbatch ["a.tif"; "b.tif"] 0 0
             [((0, 0), 5); ((1, 0), 7)] (0, 0) 9
             [((1, 0), 12); ((600, -3), 8)]).
    + reflexivity.
    + apply (bool_decide_unpack _). vm_compute. exact I.
  - apply (Hbatch ["a.tif"; "b.tif"] 0 0
             [((0, 0), 5); ((1, 0), 7); ((0, 0), 9)] (1, 0) 12
             [((600, -3), 8)]).
    + reflexivity.
    + apply (bool_decide_unpack _). vm_compute. exact I.
Defined.

(** ** Region emission *)

Lemma foldl_step {A B} (f : A -> B -> A) (a : A) (x : B) (l : list B) :
  foldl f a (x :: l) = foldl f (f a x) l.
Proof. reflexivity. Qed.

Lemma organize_by_region_snoc l item :
  organize_by_region (l ++ [item]) = organize_step (organize_by_region l) item.
Proof. unfold organize_by_region. by rewrite foldl_app. Qed.

(** every region key of the organized data is the region of a sample *)
Lemma organize_by_region_keys l rk :
  rk ∈ (organize_by_region l).*1 ->
  exists x z y, ((x, z), y) ∈ l /\ rk = (x ≫ 9, z ≫ 9).
Proof.
  induction l as [|[[x z] y] l IH] using rev_ind.
  - intros Hin. by apply elem_of_nil in Hin.
  - rewrite organize_by_region_snoc. unfold organize_step.
    rewrite PyDictFacts.elem_keys_set. intros [->|Hin].
    + exists x, z, y. split; [|done].
      apply elem_of_app. right. apply list_elem_of_here.
    + destruct (IH Hin) as (x' & z' & y' & Hin' & ->).
      exists x', z', y'. split; [|done]. apply elem_of_app. by left.
Qed.

Lemma region_file_name_relative rx rz :
  starts_with_slash (region_file_name rx rz) = false.
Proof. reflexivity. Qed.

Lemma path_join_region_inj out rx rz rx' rz' :
  path_join out (region_file_name rx rz)
    = path_join out (region_file_name rx' rz') ->
  region_file_name rx rz = region_file_name rx' rz'.
Proof.
  unfold path_join. rewrite !region_file_name_relative.
  destruct (String.eqb out "" || ends_with_slash out); intros Heq.
  - by apply (inj (String.app out)) in Heq.
  - apply (inj (String.app out)) in Heq.
    by apply (inj (String.app "/")) in Heq.
Qed.

Section EmissionFacts.
Context `{!Anvil}.

(** *** What a built chunk holds *)

Lemma place_block_cases me ch bx bz y :
  (place_block me ch ((bx, bz), y) = ch) \/
  (place_block me ch ((bx, bz), y) = set_block ch bx y bz /\
   me <= y <= 319 /\ set_block_raises ch bx y bz = false).
Proof.
  unfold place_block. case_bool_decide as Hy; [|by left].
  destruct (set_block_raises ch bx y bz) eqn:Hr; [by left|by right].
Qed.

Lemma place_block_coords me ch e :
  ch_x (place_block me ch e) = ch_x ch /\
  ch_z (place_block me ch e) = ch_z ch.
Proof.
  destruct e as [[bx bz] y].
  by destruct (place_block_cases me ch bx bz y) as [->|[-> _]].
Qed.

Lemma place_block_mono me ch e p :
  p ∈ ch_blocks ch -> p ∈ ch_blocks (place_block me ch e).
Proof.
  destruct e as [[bx bz] y].
  destruct (place_block_cases me ch bx bz y) as [->|[-> _]]; [done|].
  simpl. intros Hp. apply elem_of_app. by left.
Qed.

Lemma foldl_place_block_mono me bc ch p :
  p ∈ ch_blocks ch -> p ∈ ch_blocks (foldl (place_block me) ch bc).
Proof.
  revert ch. induction bc as [|e bc IH]; intros ch Hp; [done|].
  rewrite foldl_step. apply IH. by apply place_block_mono.
Qed.

Lemma foldl_place_block_inv me bc ch x l z :
  (x, l, z) ∈ ch_blocks (foldl (place_block me) ch bc) ->
  (x, l, z) ∈ ch_blocks ch \/ (((x, z), l) ∈ bc /\ me <= l <= 319).
Proof.
  revert ch. induction bc as [|[[bx bz] y] bc IH]; intros ch Hin.
  - by left.
  - rewrite foldl_step in Hin. apply IH in Hin as [Hin|[Hin Hl]].
    + destruct (place_block_cases me ch bx bz y)
        as [Heq|(Heq & Hy & _)]; rewrite Heq in Hin; [by left|].
      simpl in Hin. apply elem_of_app in Hin as [Hin|Hin]; [by left|].
      apply list_elem_of_singleton in Hin. injection Hin as -> -> ->.
      right. split; [apply list_elem_of_here|done].
    + right. split; [by apply list_elem_of_further|done].
Qed.

Lemma foldl_place_block_length me bc ch :
  (length (ch_blocks (foldl (place_block me) ch bc))
   <= length (ch_blocks ch) + length bc)%nat.
Proof.
  revert ch. induction bc as [|[[bx bz] y] bc IH]; intros ch.
  - simpl. lia.
  - rewrite foldl_step. etrans; [apply IH|].
    destruct (place_block_cases me ch bx bz y) as [->|[-> _]]; simpl.
    + lia.
    + rewrite length_app. simpl. lia.
Qed.

Lemma foldl_place_block_accepted me bc ch bx bz y :
  ((bx, bz), y) ∈ bc -> me <= y <= 319 ->
  (forall c, set_block_raises c bx y bz = false) ->
  (bx, y, bz) ∈ ch_blocks (foldl (place_block me) ch bc).
Proof.
  intros Hin Hy Hok. revert ch.
  induction bc as [|e bc IH]; intros ch; [by apply elem_of_nil in Hin|].
  apply elem_of_cons in Hin as [<-|Hin]; [|by apply IH].
  rewrite foldl_step. apply foldl_place_block_mono.
  unfold place_block. rewrite bool_decide_eq_true_2 by done.
  rewrite Hok. simpl. apply elem_of_app. right. apply list_elem_of_here.
Qed.

Lemma build_chunk_coords me cx cz bc :
  ch_x (build_chunk me cx cz bc) = cx /\
  ch_z (build_chunk me cx cz bc) = cz.
Proof.
  unfold build_chunk.
  assert (forall ch, ch_x (foldl (place_block me) ch bc) = ch_x ch /\
                     ch_z (foldl (place_block me) ch bc) = ch_z ch) as Hc.
  { induction bc as [|e bc IH]; intros ch; [done|]. rewrite foldl_step.
    destruct (IH (place_block me ch e)) as [-> ->].
    apply place_block_coords. }
  apply (Hc (mkChunk cx cz [])).
Qed.

Lemma add_chunks_chunks me cd region region' :
  add_chunks me region cd = Some region' ->
  rg_x region' = rg_x region /\ rg_z region' = rg_z region /\
  rg_chunks region' =
    rg_chunks region
    ++ ((fun e : (Z * Z) * list ((Z * Z) * Z) =>
           build_chunk me e.1.1 e.1.2 e.2) <$> cd).
Proof.
  revert region. induction cd as [|[[cx cz] bc] cd IH]; intros region.
  - simpl. intros [= <-]. by rewrite app_nil_r.
  - simpl. destruct (add_chunk_raises _ _); [done|].
    intros Hadd. apply IH in Hadd as (-> & -> & ->). simpl.
    by rewrite <- app_assoc.
Qed.

(** C5, as the code has it: a built region holds one chunk per chunk of
    the data, and in it, for every occupied column with sampled elevation
    y, at most the one block at level y: it is there when
    floor <= y <= 319 and the codec accepts it, and no other level of the
    column is set. *)
Theorem column_single_block rx rz chunks_data me is_dsm region :
  generate_mca_file rx rz chunks_data me is_dsm = Some region ->
  rg_x region = rx /\ rg_z region = rz /\
  rg_chunks region =
    ((fun e : (Z * Z) * list ((Z * Z) * Z) =>
        build_chunk me e.1.1 e.1.2 e.2) <$> chunks_data) /\
  forall cx cz bc,
    ((cx, cz), bc) ∈ chunks_data ->
    build_chunk me cx cz bc ∈ rg_chunks region /\
    ch_x (build_chunk me cx cz bc) = cx /\
    ch_z (build_chunk me cx cz bc) = cz /\
    (length (ch_blocks (build_chunk me cx cz bc)) <= length bc)%nat /\
    (forall x l z,
        (x, l, z) ∈ ch_blocks (build_chunk me cx cz bc) ->
        ((x, z), l) ∈ bc /\ me <= l <= 319) /\
    (forall bx bz y,
        ((bx, bz), y) ∈ bc -> me <= y <= 319 ->
        (forall c, set_block_raises c bx y bz = false) ->
        (bx, y, bz) ∈ ch_blocks (build_chunk me cx cz bc)).
Proof.
  unfold generate_mca_file. intros Hgen.
  apply add_chunks_chunks in Hgen as (Hx & Hz & Hch). simpl in *.
  split; [done|]. split; [done|]. split; [done|].
  intros cx cz bc Hin.
  split.
  { rewrite Hch. apply list_elem_of_fmap. by exists ((cx, cz), bc). }
  split; [apply build_chunk_coords|].
  split; [apply build_chunk_coords|].
  split.
  { unfold build_chunk.
    etrans; [apply foldl_place_block_length|]. simpl. lia. }
  split.
  - intros x l z Hb. unfold build_chunk in Hb.
    apply foldl_place_block_inv in Hb as [Hb|Hb]; [|done].
    by apply elem_of_nil in Hb.
  - intros bx bz y Hc Hy Hok. unfold build_chunk.
    by apply foldl_place_block_accepted.
Qed.

(** *** The skip-set *)

Lemma batch_step_skip me out dsm st rx rz chunks :
  region_file_name rx rz ∈ existing_mcas_set st ->
  batch_step me out dsm st ((rx, rz), chunks) = st.
Proof. intros Hin. unfold batch_step. by rewrite decide_True. Qed.

Lemma foldl_batch_step_skipped me out dsm rd st :
  (forall rk, rk ∈ rd.*1 ->
              region_file_name rk.1 rk.2 ∈ existing_mcas_set st) ->
  foldl (batch_step me out dsm) st rd = st.
Proof.
  induction rd as [|[[rx rz] chunks] rd IH]; intros Hall; [done|].
  rewrite foldl_step, batch_step_skip.
  - apply IH. intros rk Hrk. apply Hall. rewrite fmap_cons.
    by apply list_elem_of_further.
  - apply (Hall (rx, rz)). rewrite fmap_cons. apply list_elem_of_here.
Qed.

Lemma batch_step_fresh me out dsm S0 st item :
  S0 ⊆ existing_mcas_set st ->
  Forall (event_fresh out S0) (events st) ->
  S0 ⊆ existing_mcas_set (batch_step me out dsm st item) /\
  Forall (event_fresh out S0) (events (batch_step me out dsm st item)).
Proof.
  intros Hsub Hev. destruct item as [[rx rz] chunks]. unfold batch_step.
  destruct (decide (region_file_name rx rz ∈ existing_mcas_set st))
    as [Hin|Hnin]; [done|].
  assert (Hfresh : region_file_name rx rz ∉ S0) by set_solver.
  assert (Hb : forall me' r, event_fresh out S0 (EvBuild rx rz me' r)).
  { intros me' r. by exists rx, rz. }
  assert (Hs : forall r b,
             event_fresh out S0
               (EvSave (path_join out (region_file_name rx rz)) r b)).
  { intros r b. by exists rx, rz. }
  destruct (generate_mca_file rx rz chunks me dsm) as [region|]; simpl.
  - destruct (save_raises _ region); simpl.
    + split; [done|]. apply Forall_app. split; [done|].
      repeat constructor; done.
    + split; [set_solver|]. apply Forall_app. split; [done|].
      repeat constructor; done.
  - split; [done|]. apply Forall_app. split; [done|].
    repeat constructor; done.
Qed.

Lemma foldl_batch_step_fresh me out dsm S0 rd st :
  S0 ⊆ existing_mcas_set st ->
  Forall (event_fresh out S0) (events st) ->
  S0 ⊆ existing_mcas_set (foldl (batch_step me out dsm) st rd) /\
  Forall (event_fresh out S0)
    (events (foldl (batch_step me out dsm) st rd)).
Proof.
  revert st. induction rd as [|item rd IH]; intros st Hsub Hev; [done|].
  rewrite foldl_step.
  destruct (batch_step_fresh me out dsm S0 st item Hsub Hev).
  by apply IH.
Qed.

Lemma event_fresh_not_touches out S0 e rx rz :
  event_fresh out S0 e -> region_file_name rx rz ∈ S0 ->
  ~ event_touches out (region_file_name rx rz) e.
Proof.
  intros (rx' & rz' & Hfresh & He) Hin Htouch.
  destruct e as [x z me' r|mca_path r b]; simpl in *.
  - injection He as -> ->. by rewrite Htouch in Hfresh.
  - subst mca_path. apply path_join_region_inj in Htouch.
    by rewrite Htouch in Hfresh.
Qed.

Lemma generate_mca_batch_all_skipped batch_coords base_x base_y me out
    (S0 : gset string) is_dsm :
  (forall x z y, ((x, z), y) ∈ batch_coords ->
                 region_file_name (x ≫ 9) (z ≫ 9) ∈ S0) ->
  generate_mca_batch batch_coords base_x base_y me out S0 is_dsm
  = mkBatchState 0 S0 [].
Proof.
  intros Hall. unfold generate_mca_batch. apply foldl_batch_step_skipped.
  intros rk Hrk. simpl.
  apply organize_by_region_keys in Hrk as (x & z & y & Hin & ->).
  by apply (Hall x z y).
Qed.

(** C2: when the skip-set holds the file name of every region the batch
    touches, the emission creates nothing, returns 0 and leaves the
    skip-set as it was; and whatever the batch, the skip-set only grows
    and no region whose file name was in it is built or saved. *)
Theorem emission_skips_existing :
  (forall batch_coords base_x base_y me out (S0 : gset string) is_dsm,
      (forall x z y, ((x, z), y) ∈ batch_coords ->
                     region_file_name (x ≫ 9) (z ≫ 9) ∈ S0) ->
      generate_mca_batch batch_coords base_x base_y me out S0 is_dsm
      = mkBatchState 0 S0 []) /\
  (forall batch_coords base_x base_y me out (S0 : gset string) is_dsm
          rx rz,
      region_file_name rx rz ∈ S0 ->
      S0 ⊆ existing_mcas_set
             (generate_mca_batch batch_coords base_x base_y me out S0
                is_dsm) /\
      forall e,
        e ∈ events (generate_mca_batch batch_coords base_x base_y me out
                      S0 is_dsm) ->
        ~ event_touches out (region_file_name rx rz) e).
Proof.
  split.
  - apply generate_mca_batch_all_skipped.
  - intros batch_coords base_x base_y me out S0 is_dsm rx rz Hin.
    unfold generate_mca_batch.
    destruct (foldl_batch_step_fresh me out is_dsm S0
                (organize_by_region batch_coords) (mkBatchState 0 S0 []))
      as [Hsub Hev]; [done|constructor|].
    split; [done|]. intros e He.
    rewrite Forall_forall in Hev.
    apply (event_fresh_not_touches out S0); [by apply Hev|done].
Qed.
End EmissionFacts.

Lemma emission_skips_existing_witness :
  @generate_mca_batch ex_anvil [((0, 0), 5); ((1, 0), 7)] 0 0 0 "out"
    {["r.0.0.mca"]} false
  = mkBatchState 0 {["r.0.0.mca"]} [] /\
  ({["r.0.0.mca"]} : gset string) ⊆
    existing_mcas_set
      (@generate_mca_batch ex_anvil [((0, 0), 5); ((600, -3), 8)] 0 0 0
         "out" {["r.0.0.mca"]} false).
Proof.
  destruct (@emission_skips_existing ex_anvil) as [Hall Hany]. split.
  - apply Hall. intros x z y Hin.
    repeat (apply elem_of_cons in Hin as [Heq|Hin];
            [injection Heq as -> -> ->; by apply elem_of_singleton|]).
    by apply elem_of_nil in Hin.
  - apply (Hany _ 0 0 0 "out" {["r.0.0.mca"]} false 0 0).
    by apply elem_of_singleton.
Defined.

Lemma column_single_block_witness :
  @generate_mca_file ex_anvil 0 0 [((0, 0), [((0, 0), 5)])] 0 false
  = Some (mkRegion 0 0 [mkChunk 0 0 [(0, 5, 0)]]) /\
  (0, 5, 0) ∈ ch_blocks (@build_chunk ex_anvil 0 0 0 [((0, 0), 5)]) /\
  (forall x l z,
      (x, l, z) ∈ ch_blocks (@build_chunk ex_anvil 0 0 0 [((0, 0), 5)]) ->
      ((x, z), l) ∈ [((0, 0), 5)] /\ 0 <= l <= 319).
Proof.
  split; [reflexivity|].
  destruct (@column_single_block ex_anvil 0 0 [((0, 0), [((0, 0), 5)])] 0
              false (mkRegion 0 0 [mkChunk 0 0 [(0, 5, 0)]]))
    as (_ & _ & _ & Hcols); [reflexivity|].
  destruct (Hcols 0 0 [((0, 0), 5)]) as (_ & _ & _ & _ & Honly & Hset);
    [apply list_elem_of_here|].
  split; [|exact Honly].
  apply (Hset 0 0 5); [apply list_elem_of_here|lia|reflexivity].
Defined.

(** C5 as the specification states it fails: with a floor of 0, a column
    sampled at elevation 5 gets the single block at level 5; level 3,
    between the floor and the sample, is not filled. *)
Lemma column_not_filled_below_sample :
  exists region chunk,
    @generate_mca_file ex_anvil 0 0 [((0, 0), [((0, 0), 5)])] 0 false
    = Some region /\
    rg_chunks region = [chunk] /\
    ch_blocks chunk = [(0, 5, 0)] /\
    0 <= 3 <= 5 /\
    (0, 3, 0) ∉ ch_blocks chunk.
Proof.
  exists (mkRegion 0 0 [mkChunk 0 0 [(0, 5, 0)]]), (mkChunk 0 0 [(0, 5, 0)]).
  split; [reflexivity|]. split; [reflexivity|]. split; [reflexivity|].
  split; [lia|]. simpl. intros Hin.
  apply list_elem_of_singleton in Hin. discriminate.
Qed.

(** ** Stage 1 *)

Section CheckpointFacts.
Context `{!Clock}.

Lemma save_checkpoint_data data d :
  (save_checkpoint data d).1
  = set_timestamp (isoformat (clock (ticks d))) data.
Proof. reflexivity. Qed.

Lemma save_checkpoint_disk data d :
  checkpoint_doc (save_checkpoint data d).2
    = Some (save_checkpoint data d).1 /\
  saved (save_checkpoint data d).2
    = saved d ++ [(save_checkpoint data d).1] /\
  files (save_checkpoint data d).2 = files d.
Proof. done. Qed.
End CheckpointFacts.



Section Stage1Facts.
Context `{!Clock} `{!Rasterio}.


(** an item either leaves the saved documents alone or is reprojected
    and saves a document whose cursor is its own position *)
Lemma s1_step_saved pm crs st i tp :
  saved (disk (s1_step pm crs st (i, tp))) = saved (disk st) \/
  exists doc,
    saved (disk (s1_step pm crs st (i, tp))) = saved (disk st) ++ [doc] /\
    ck_step1_progress doc = Some i /\
    reproject_raises tp (path_join (projected_dir pm) (basename tp)) crs
      = false.
Proof.
  unfold s1_step.
  destruct (decide (_ ∈ files (disk st))); [by left|].
  destruct (reproject_raises tp _ crs) eqn:Hr; [by left|].
  destruct (elapsed_at_least _ _ _); [|by left].
  right. eexists. simpl. split; [reflexivity|]. done.
Qed.


Lemma s1_nonempty pm crs ckpt tfs d :
  tfs <> [] ->
  (s1 pm crs ckpt tfs d).1 = true /\
  checkpoint_doc (disk (s1 pm crs ckpt tfs d).2)
    = Some (checkpoint_data (s1 pm crs ckpt tfs d).2) /\
  last (saved (disk (s1 pm crs ckpt tfs d).2))
    = Some (checkpoint_data (s1 pm crs ckpt tfs d).2) /\
  ck_step1_progress (checkpoint_data (s1 pm crs ckpt tfs d).2)
    = Some (Z.of_nat (length tfs)) /\
  ck_step1_complete (checkpoint_data (s1 pm crs ckpt tfs d).2)
    = Some true.
Proof.
  intros Hne. destruct tfs as [|tp tfs]; [done|].
  unfold s1. simpl. split; [done|]. split; [done|].
  split; [by rewrite last_snoc|done].
Qed.

End Stage1Facts.




(** ** Stage 2 *)

Section Stage2Facts.
Context `{!Clock} `{!Rasterio} `{!Anvil}.

(** *** The elevation floor *)

Lemma foldl_sample_step bx by_ tps me :
  foldl (sample_step bx by_) me tps =
  foldl Z.min me
    (omap (fun tp => fst <$> process_tiff_simple tp bx by_ nodata_default)
       tps).
Proof.
  revert me. induction tps as [|tp tps IH]; intros me; [done|].
  rewrite foldl_step, IH. simpl. unfold sample_step.
  destruct (process_tiff_simple tp bx by_ nodata_default) as [[cm coords]|];
    simpl; [|done].
  f_equal. case_bool_decide; lia.
Qed.

(** what the sampling loop computes: the least of 0 and the minima *)
Lemma estimate_floor_minima tfs bx by_ :
  estimate_floor tfs bx by_ = foldl Z.min 0 (sampled_minima tfs bx by_).
Proof. unfold estimate_floor, sample_tiles. apply foldl_sample_step. Qed.

Lemma foldl_min_le (l : list Z) (a : Z) : foldl Z.min a l <= a.
Proof.
  revert a. induction l as [|x l IH]; intros a; simpl; [lia|].
  etrans; [apply IH|]. lia.
Qed.

Lemma estimate_floor_nonpos tfs bx by_ : estimate_floor tfs bx by_ <= 0.
Proof. rewrite estimate_floor_minima. apply foldl_min_le. Qed.

Lemma floor_phase_stored tfs bx by_ ckpt d v :
  ck_min_elevation ckpt = Some v ->
  floor_phase tfs bx by_ ckpt d = (v, ckpt, d, []).
Proof. intros Hv. unfold floor_phase. by rewrite Hv. Qed.

Lemma floor_phase_fresh tfs bx by_ ckpt d :
  ck_min_elevation ckpt = None ->
  (floor_phase tfs bx by_ ckpt d).1.1.1 = estimate_floor tfs bx by_ /\
  ck_min_elevation (floor_phase tfs bx by_ ckpt d).1.1.2
    = Some (estimate_floor tfs bx by_) /\
  checkpoint_doc (floor_phase tfs bx by_ ckpt d).1.2
    = Some (floor_phase tfs bx by_ ckpt d).1.1.2.
Proof. intros Hv. unfold floor_phase. by rewrite Hv. Qed.

(** *** The floor the emission is given *)

Lemma batch_step_floor me out dsm st item :
  Forall (floor_is me) (events st) ->
  Forall (floor_is me) (events (batch_step me out dsm st item)).
Proof.
  intros Hev. destruct item as [[rx rz] chunks]. unfold batch_step.
  destruct (decide _); [done|].
  assert (Hb : forall r, floor_is me (EvBuild rx rz me r)).
  { intros r m [= <-]. done. }
  assert (Hs : forall path r b, floor_is me (EvSave path r b)).
  { intros path r b m Hm. discriminate. }
  destruct (generate_mca_file rx rz chunks me dsm) as [region|]; simpl.
  - destruct (save_raises _ region); simpl;
      (apply Forall_app; split; [done|]; repeat constructor; done).
  - apply Forall_app. split; [done|]. repeat constructor; done.
Qed.

Lemma generate_mca_batch_floor batch_coords base_x base_y me out S0 dsm :
  Forall (floor_is me)
    (events (generate_mca_batch batch_coords base_x base_y me out S0 dsm)).
Proof.
  unfold generate_mca_batch.
  generalize (organize_by_region batch_coords). intros rd.
  assert (Hgen : forall st, Forall (floor_is me) (events st) ->
            Forall (floor_is me)
              (events (foldl (batch_step me out dsm) st rd))).
  { induction rd as [|item rd IH]; intros st Hst; [done|].
    rewrite foldl_step. apply IH. by apply batch_step_floor. }
  apply Hgen. constructor.
Qed.

(** one batch: the floor in the checkpoint data stays, the builds use
    [me], and a document written holds the floor *)
Lemma s2_step_floor pm bx by_ bs me tfs st batch_idx :
  ck_min_elevation (s2_checkpoint_data st) = Some me ->
  s2_sampled (s2_step pm bx by_ bs me tfs st batch_idx) = s2_sampled st /\
  ck_min_elevation
    (s2_checkpoint_data (s2_step pm bx by_ bs me tfs st batch_idx))
    = Some me /\
  (exists evs,
      s2_events (s2_step pm bx by_ bs me tfs st batch_idx)
        = s2_events st ++ evs /\
      Forall (floor_is me) evs) /\
  (saved (s2_disk (s2_step pm bx by_ bs me tfs st batch_idx))
     = saved (s2_disk st) \/
   exists doc,
     saved (s2_disk (s2_step pm bx by_ bs me tfs st batch_idx))
       = saved (s2_disk st) ++ [doc] /\
     ck_min_elevation doc = Some me).
Proof.
  intros Hme. unfold s2_step.
  set (r := match collect_batch bx by_ (batch_files_of tfs bs batch_idx)
            with
            | [] => mkBatchState 0 (s2_existing_mcas_set st) []
            | _ => _
            end).
  assert (Hr : Forall (floor_is me) (events r)).
  { unfold r. destruct (collect_batch _ _ _); [constructor|].
    apply generate_mca_batch_floor. }
  destruct (elapsed_at_least _ _ _); simpl.
  - split; [done|]. split; [done|]. split; [by exists (events r)|].
    right. eexists. split; [reflexivity|]. done.
  - split; [done|]. split; [done|]. split; [by exists (events r)|].
    by left.
Qed.

Lemma foldl_s2_step_floor pm bx by_ bs me tfs idxs st :
  ck_min_elevation (s2_checkpoint_data st) = Some me ->
  Forall (floor_is me) (s2_events st) ->
  s2_sampled (foldl (s2_step pm bx by_ bs me tfs) st idxs) = s2_sampled st /\
  ck_min_elevation
    (s2_checkpoint_data (foldl (s2_step pm bx by_ bs me tfs) st idxs))
    = Some me /\
  Forall (floor_is me)
    (s2_events (foldl (s2_step pm bx by_ bs me tfs) st idxs)) /\
  (forall doc,
      doc ∈ saved (s2_disk (foldl (s2_step pm bx by_ bs me tfs) st idxs)) ->
      doc ∈ saved (s2_disk st) \/ ck_min_elevation doc = Some me).
Proof.
  revert st. induction idxs as [|idx idxs IH]; intros st Hme Hev.
  - repeat split; try done. intros doc Hdoc. by left.
  - rewrite foldl_step.
    destruct (s2_step_floor pm bx by_ bs me tfs st idx Hme)
      as (Hs & Hme' & (evs & Hevs & Hfl) & Hsaved).
    destruct (IH (s2_step pm bx by_ bs me tfs st idx)) as (Hs'' & Hme'' & Hev'' & Hdocs).
    { done. }
    { rewrite Hevs. apply Forall_app. by split. }
    split; [by rewrite Hs''|]. split; [done|]. split; [done|].
    intros doc Hdoc. apply Hdocs in Hdoc as [Hdoc|Hdoc]; [|by right].
    destruct Hsaved as [Heq|(doc' & Heq & Hd)]; rewrite Heq in Hdoc.
    + by left.
    + apply elem_of_app in Hdoc as [Hdoc|Hdoc]; [by left|].
      apply list_elem_of_singleton in Hdoc as ->. by right.
Qed.

Lemma s2_with_stored_floor pm bx by_ bs ckpt tfs existing d v :
  ck_min_elevation ckpt = Some v -> tfs <> [] -> bs <> 0 ->
  exists st,
    s2 pm bx by_ bs ckpt tfs existing d = Some (true, st) /\
    s2_sampled st = [] /\
    ck_min_elevation (s2_checkpoint_data st) = Some v /\
    Forall (floor_is v) (s2_events st) /\
    (forall doc, doc ∈ saved (s2_disk st) ->
                 doc ∈ saved d \/ ck_min_elevation doc = Some v).
Proof.
  intros Hv Hne Hbs. unfold s2. destruct tfs as [|tp tfs]; [done|].
  rewrite decide_False by done.
  rewrite (floor_phase_stored _ _ _ _ _ v Hv).
  set (st0 := mkS2State 0 _ ckpt _ _ [] []).
  set (idxs := seqZ _ _).
  destruct (foldl_s2_step_floor pm bx by_ bs v (tp :: tfs) idxs st0)
    as (Hs & Hme & Hev & Hdocs); [done|constructor|].
  set (st := foldl _ st0 idxs) in *.
  eexists. split; [reflexivity|]. simpl.
  split; [done|]. split; [done|]. split; [done|].
  intros doc Hdoc. apply elem_of_app in Hdoc as [Hdoc|Hdoc].
  - by apply Hdocs in Hdoc.
  - apply list_elem_of_singleton in Hdoc as ->. by right.
Qed.

(** C9: with a floor in the checkpoint, the stage, when it has tiles and
    a batch size, runs to its end; and however it returns, it has sampled
    no tile, every region it built was built with the stored floor, and
    the checkpoint data and every document it wrote hold that floor. *)
Theorem stored_floor_is_used pm bx by_ bs ckpt tfs existing d v :
  ck_min_elevation ckpt = Some v ->
  (tfs <> [] -> bs <> 0 ->
   exists st, s2 pm bx by_ bs ckpt tfs existing d = Some (true, st)) /\
  (forall ok st,
      s2 pm bx by_ bs ckpt tfs existing d = Some (ok, st) ->
      s2_sampled st = [] /\
      ck_min_elevation (s2_checkpoint_data st) = Some v /\
      (forall e m, e ∈ s2_events st -> event_floor e = Some m -> m = v) /\
      (forall doc, doc ∈ saved (s2_disk st) ->
                   doc ∈ saved d \/ ck_min_elevation doc = Some v)).
Proof.
  intros Hv. split.
  - intros Hne Hbs.
    destruct (s2_with_stored_floor pm bx by_ bs ckpt tfs existing d v)
      as (st & Hs2 & _); [done..|]. by exists st.
  - intros ok st Hs2. destruct tfs as [|tp tfs].
    { injection Hs2 as <- <-. simpl. split; [done|]. split; [done|].
      split; [|by left]. intros e m He. by apply elem_of_nil in He. }
    destruct (decide (bs = 0)) as [Hbs|Hbs].
    { unfold s2 in Hs2. by rewrite decide_True in Hs2. }
    destruct (s2_with_stored_floor pm bx by_ bs ckpt (tp :: tfs) existing
                d v) as (st' & Hs2' & Hs & Hme & Hev & Hdocs); [done..|].
    rewrite Hs2' in Hs2. injection Hs2 as <- <-.
    split; [done|]. split; [done|]. split; [|done].
    intros e m He Hm. rewrite Forall_forall in Hev. by apply (Hev e).
Qed.

(** *** Running the stage again *)

Lemma batch_files_of_subseteq tfs bs batch_idx :
  batch_files_of tfs bs batch_idx ⊆ tfs.
Proof.
  unfold batch_files_of, py_slice.
  etrans; [apply subseteq_take|apply subseteq_drop].
Qed.

(** a batch whose regions are all in the skip-set creates nothing *)
Lemma s2_step_skipped pm bx by_ bs me tfs st batch_idx :
  (forall tp x z y,
      tp ∈ tfs -> ((x, z), y) ∈ tile_samples bx by_ tp ->
      region_file_name (x ≫ 9) (z ≫ 9) ∈ s2_existing_mcas_set st) ->
  total_mca_created (s2_step pm bx by_ bs me tfs st batch_idx)
    = total_mca_created st /\
  s2_existing_mcas_set (s2_step pm bx by_ bs me tfs st batch_idx)
    = s2_existing_mcas_set st /\
  s2_events (s2_step pm bx by_ bs me tfs st batch_idx) = s2_events st.
Proof.
  intros Hall. unfold s2_step.
  set (r := match collect_batch bx by_ (batch_files_of tfs bs batch_idx)
            with
            | [] => mkBatchState 0 (s2_existing_mcas_set st) []
            | _ => _
            end).
  assert (Hr : r = mkBatchState 0 (s2_existing_mcas_set st) []).
  { unfold r.
    destruct (collect_batch _ _ _) as [|c cs] eqn:Hcb; [done|].
    apply generate_mca_batch_all_skipped. intros x z y Hin.
    rewrite <- Hcb in Hin.
    apply collect_batch_elem in Hin as (tp & Htp & Hs).
    apply (Hall tp x z y); [|done].
    by apply (batch_files_of_subseteq tfs bs batch_idx). }
  rewrite Hr.
  destruct (elapsed_at_least _ _ _); simpl;
    (split; [lia|]; split; [done|]; by rewrite app_nil_r).
Qed.

Lemma foldl_s2_step_skipped pm bx by_ bs me tfs idxs st :
  (forall tp x z y,
      tp ∈ tfs -> ((x, z), y) ∈ tile_samples bx by_ tp ->
      region_file_name (x ≫ 9) (z ≫ 9) ∈ s2_existing_mcas_set st) ->
  total_mca_created (foldl (s2_step pm bx by_ bs me tfs) st idxs)
    = total_mca_created st /\
  s2_existing_mcas_set (foldl (s2_step pm bx by_ bs me tfs) st idxs)
    = s2_existing_mcas_set st /\
  s2_events (foldl (s2_step pm bx by_ bs me tfs) st idxs) = s2_events st.
Proof.
  revert st. induction idxs as [|idx idxs IH]; intros st Hall; [done|].
  rewrite foldl_step.
  destruct (s2_step_skipped pm bx by_ bs me tfs st idx Hall)
    as (Ht & Hs & He).
  destruct (IH (s2_step pm bx by_ bs me tfs st idx)) as (Ht' & Hs' & He').
  { by rewrite Hs. }
  by rewrite Ht', Hs', He'.
Qed.

(** the stage run over tiles whose regions all have their file already:
    no region is built or saved, and the count of created files is 0 *)
Lemma s2_rerun_creates_nothing pm bx by_ bs ckpt tfs existing d ok st :
  (forall tp x z y,
      tp ∈ tfs -> ((x, z), y) ∈ tile_samples bx by_ tp ->
      region_file_name (x ≫ 9) (z ≫ 9)
        ∈ (list_to_set (basename <$> existing) : gset string)) ->
  s2 pm bx by_ bs ckpt tfs existing d = Some (ok, st) ->
  total_mca_created st = 0 /\ s2_events st = [].
Proof.
  intros Hall Hs2. unfold s2 in Hs2. destruct tfs as [|tp tfs].
  { by injection Hs2 as <- <-. }
  destruct (decide (bs = 0)); [done|].
  destruct (floor_phase _ _ _ _ _) as [[[me data0] d0] sampled].
  set (st0 := mkS2State 0 _ data0 _ _ [] _) in Hs2.
  set (idxs := seqZ _ _) in Hs2.
  destruct (foldl_s2_step_skipped pm bx by_ bs me (tp :: tfs) idxs st0)
    as (Ht & _ & He); [done|].
  injection Hs2 as <- <-. simpl. by rewrite Ht, He.
Qed.

(** what a fresh run persists: the least of 0 and the sampled minima *)
Lemma fresh_floor_persisted pm bx by_ bs ckpt tfs existing d :
  ck_min_elevation ckpt = None -> tfs <> [] -> bs <> 0 ->
  exists st,
    s2 pm bx by_ bs ckpt tfs existing d = Some (true, st) /\
    s2_sampled st = sample_tiles tfs /\
    ck_min_elevation (s2_checkpoint_data st)
      = Some (foldl Z.min 0 (sampled_minima tfs bx by_)).
Proof.
  intros Hv Hne Hbs. unfold s2. destruct tfs as [|tp tfs]; [done|].
  rewrite decide_False by done. rewrite <- estimate_floor_minima.
  unfold floor_phase. rewrite Hv.
  set (me := estimate_floor (tp :: tfs) bx by_).
  unfold save_checkpoint at 1. cbv beta iota zeta.
  set (st0 := mkS2State 0 _ _ _ _ [] _).
  set (idxs := seqZ _ _).
  destruct (foldl_s2_step_floor pm bx by_ bs me (tp :: tfs) idxs st0)
    as (Hs & Hme & _ & _); [done|constructor|].
  set (st := foldl _ st0 idxs) in *.
  eexists. split; [reflexivity|]. simpl. split; done.
Qed.
End Stage2Facts.

Lemma stored_floor_is_used_witness :
  @estimate_floor ex_rasterio ["a.tif"; "b.tif"] 0 0 = 0 /\
  exists st,
    @s2 ex_clock ex_rasterio ex_anvil ex_pm 0 0 10
      (set_min_elevation (-3) ex_config) ["a.tif"; "b.tif"] [] ex_disk
      = Some (true, st) /\
    s2_sampled st = [] /\
    ck_min_elevation (s2_checkpoint_data st) = Some (-3).
Proof.
  split; [reflexivity|].
  destruct (@stored_floor_is_used ex_clock ex_rasterio ex_anvil ex_pm 0 0 10
              (set_min_elevation (-3) ex_config) ["a.tif"; "b.tif"] []
              ex_disk (-3)) as [Hruns Hany]; [reflexivity|].
  destruct Hruns as [st Hs2]; [discriminate|lia|].
  destruct (Hany true st Hs2) as (Hsampled & Hfloor & _).
  exists st. split; [exact Hs2|]. split; [exact Hsampled|exact Hfloor].
Defined.

(** C3: the floor a fresh run persists is not the minimum of the
    per-tile minima when these are positive.  Over the one tile [a.tif],
    whose lowest sample is 5, the run samples the tile and persists the
    floor 0: the sampling loop starts from [me = 0] and only lowers it. *)
Theorem floor_of_positive_tiles_is_zero :
  fst <$> @process_tiff_simple ex_rasterio "a.tif" 0 0 nodata_default
    = Some 5 /\
  ck_min_elevation ex_config = None /\
  match @s2 ex_clock ex_rasterio ex_anvil ex_pm 0 0 10 ex_config ["a.tif"]
          [] ex_disk with
  | Some (ok, st) =>
      ok = true /\
      s2_sampled st = ["a.tif"] /\
      ck_min_elevation (s2_checkpoint_data st) = Some 0 /\
      ck_min_elevation <$> saved (s2_disk st) = [Some 0; Some 0]
  | None => False
  end.
Proof.
  split; [reflexivity|]. split; [reflexivity|].
  vm_compute. repeat split; reflexivity.
Qed.


(** ** The resume path *)

Lemma foldl_existing_step listing acc :
  foldl existing_step acc listing = acc ++ omap resumable listing.
Proof.
  revert acc. induction listing as [|[name e] listing IH]; intros acc.
  - by rewrite app_nil_r.
  - rewrite foldl_step, IH.
    destruct e as [|[| |data]]; simpl; [done..|].
    by rewrite <- app_assoc.
Qed.

Lemma get_existing_projects_resumable listing :
  get_existing_projects listing = omap resumable listing.
Proof. unfold get_existing_projects. by rewrite foldl_existing_step. Qed.

Lemma resumable_forget entry :
  resumable (forget_unreadable entry) = resumable entry.
Proof. by destruct entry as [name [|[| |data]]]. Qed.

Lemma get_existing_projects_forget listing :
  get_existing_projects (forget_unreadable <$> listing)
  = get_existing_projects listing.
Proof.
  rewrite !get_existing_projects_resumable.
  induction listing as [|entry listing IH]; [done|].
  rewrite fmap_cons. simpl. rewrite resumable_forget.
  destruct (resumable entry); [f_equal|]; exact IH.
Qed.

Lemma resumable_Some entry name data :
  resumable entry = Some (name, data) ->
  entry = (name, Directory (Document data)).
Proof. destruct entry as [n [|[| |dt]]]; simpl; congruence. Qed.

Section ResumeFacts.
Context `{!Clock} `{!Rasterio} `{!Anvil} `{!Prompt}.

Lemma resume_project_forget listing :
  resume_project (forget_unreadable <$> listing) = resume_project listing.
Proof. unfold resume_project. by rewrite get_existing_projects_forget. Qed.

Lemma resume_project_selected listing pm data msgs :
  resume_project listing = (ResumeProject pm data, msgs) ->
  exists name,
    (name, Directory (Document data)) ∈ listing /\
    pm = new_ProjectManager name.
Proof.
  unfold resume_project. rewrite get_existing_projects_resumable.
  destruct (omap resumable listing) as [|p0 ps] eqn:Hps; [done|].
  destruct (select _) as [sel|]; [|done].
  destruct (String.eqb sel ""); [done|].
  destruct (list_find _ _) as [[idx c]|]; [|done].
  destruct ((p0 :: ps) !! idx) as [[name data']|] eqn:Hidx; [|done].
  intros [= <- <- _]. exists name. split; [|done].
  apply list_elem_of_lookup_2 in Hidx. rewrite <- Hps in Hidx.
  apply list_elem_of_omap in Hidx as (entry & Hentry & Hres).
  by apply resumable_Some in Hres as ->.
Qed.

(** C6, as the code has it: a checkpoint that cannot be read is passed
    over when the resumable projects are listed, and from there on the
    resume path behaves as if that project had no checkpoint: only a
    project whose document was read can be resumed, and with none the
    resume returns after the "no projects" message. *)
Theorem resume_skips_unreadable listing :
  get_existing_projects listing = omap resumable listing /\
  resume_project (forget_unreadable <$> listing) = resume_project listing /\
  (forall inp d,
      run_resume (forget_unreadable <$> listing) inp d
      = run_resume listing inp d) /\
  (forall pm data msgs,
      resume_project listing = (ResumeProject pm data, msgs) ->
      exists name,
        (name, Directory (Document data)) ∈ listing /\
        pm = new_ProjectManager name) /\
  ((forall entry, entry ∈ listing -> resumable entry = None) ->
   forall inp d,
     resume_project listing = (ResumeNone, [MsgNoProjects]) /\
     run_resume listing inp d = (MainReturned, [MsgNoProjects])).
Proof.
  split; [apply get_existing_projects_resumable|].
  split; [apply resume_project_forget|].
  split; [intros inp d; unfold run_resume; by rewrite resume_project_forget|].
  split; [apply resume_project_selected|].
  intros Hnone inp d.
  assert (Hres : resume_project listing = (ResumeNone, [MsgNoProjects])).
  { unfold resume_project. rewrite get_existing_projects_resumable.
    destruct (omap resumable listing) as [|p0 ps] eqn:Hps; [done|].
    assert (Hin : p0 ∈ omap resumable listing)
      by (rewrite Hps; apply list_elem_of_here).
    apply list_elem_of_omap in Hin as (entry & Hentry & Hr).
    rewrite (Hnone entry Hentry) in Hr. discriminate. }
  split; [done|]. unfold run_resume. by rewrite Hres.
Qed.
End ResumeFacts.

Lemma resume_skips_unreadable_witness :
  @resume_project ex_prompt
    [("p", Directory Unreadable); ("q", Directory (Document ex_config))]
  = (ResumeProject (new_ProjectManager "q") ex_config,
     [MsgResuming "q"; MsgResumeStep "unknown"]) /\
  @resume_project ex_prompt [("p", Directory Unreadable); ("f", PlainFile)]
  = (ResumeNone, [MsgNoProjects]).
Proof.
  split.
  - destruct (@resume_skips_unreadable ex_clock ex_rasterio ex_anvil
                ex_prompt
                [("p", Directory Unreadable);
                 ("q", Directory (Document ex_config))])
      as (_ & _ & _ & Hsel & _).
    destruct (Hsel (new_ProjectManager "q") ex_config
                [MsgResuming "q"; MsgResumeStep "unknown"])
      as (name & _ & _); reflexivity.
  - destruct (@resume_skips_unreadable ex_clock ex_rasterio ex_anvil
                ex_prompt [("p", Directory Unreadable); ("f", PlainFile)])
      as (_ & _ & _ & _ & Hnone).
    apply (Hnone); [|exact (mkInputs [] [] [])|exact ex_disk].
    intros entry Hin.
    repeat (apply elem_of_cons in Hin as [->|Hin]; [reflexivity|]).
    by apply elem_of_nil in Hin.
Defined.

(** C6 as the specification states it fails: a project whose checkpoint
    cannot be read is dropped without a report.  The resume gives the
    "no projects" message and returns, exactly as for a project without a
    checkpoint, and no stage runs; [load_checkpoint], which would raise on
    it, is not on the resume path. *)
Lemma unreadable_checkpoint_dropped_silently :
  @get_existing_projects [("p", Directory Unreadable)] = [] /\
  @resume_project ex_prompt [("p", Directory Unreadable)]
    = (ResumeNone, [MsgNoProjects]) /\
  @resume_project ex_prompt [("p", Directory Unreadable)]
    = @resume_project ex_prompt [("p", Directory NoCheckpoint)] /\
  @run_resume ex_clock ex_rasterio ex_anvil ex_prompt
    [("p", Directory Unreadable)] (mkInputs ["in/a.tif"] [] []) ex_disk
    = (MainReturned, [MsgNoProjects]) /\
  load_checkpoint Unreadable = None.
Proof. repeat split; reflexivity. Qed.


(** * Further properties *)

(** ** The organized structure *)

Lemma decompose_keys_inj x z x' z' :
  region_of x = region_of x' -> region_of z = region_of z' ->
  chunk_of x = chunk_of x' -> chunk_of z = chunk_of z' ->
  block_of x = block_of x' -> block_of z = block_of z' ->
  (x, z) = (x', z').
Proof.
  intros Hrx Hrz Hcx Hcz Hbx Hbz.
  rewrite <- (recombine_axis_of x), <- (recombine_axis_of z).
  rewrite <- (recombine_axis_of x'), <- (recombine_axis_of z').
  by rewrite Hrx, Hrz, Hcx, Hcz, Hbx, Hbz.
Qed.

Lemma organized_get_step rd x z y x' z' :
  organized_get (organize_step rd ((x, z), y)) x' z' =
  if decide ((x', z') = (x, z)) then Some y else organized_get rd x' z'.
Proof.
  unfold organized_get, organize_step, PyDict.get_default.
  fold (region_of x) (region_of z) (chunk_of x) (chunk_of z)
       (block_of x) (block_of z) (region_of x') (region_of z')
       (chunk_of x') (chunk_of z') (block_of x') (block_of z').
  destruct (decide ((x', z') = (x, z))) as [[= -> ->]|Hne].
  { by rewrite !PyDictFacts.get_set_eq. }
  destruct (decide ((region_of x, region_of z)
                    = (region_of x', region_of z'))) as [Hr|Hr].
  - rewrite Hr, PyDictFacts.get_set_eq.
    injection Hr as Hrx Hrz.
    destruct (decide ((chunk_of x, chunk_of z)
                      = (chunk_of x', chunk_of z'))) as [Hc|Hc].
    + rewrite Hc, PyDictFacts.get_set_eq.
      injection Hc as Hcx Hcz.
      rewrite PyDictFacts.get_set_ne.
      * destruct (PyDict.get _ rd) as [chunks|]; simpl; [|done].
        by destruct (PyDict.get _ chunks).
      * intros [= Hbx Hbz]. apply Hne. symmetry.
        by apply decompose_keys_inj.
    + rewrite PyDictFacts.get_set_ne by done.
      by destruct (PyDict.get _ rd) as [chunks|].
  - by rewrite PyDictFacts.get_set_ne.
Qed.

Lemma organized_get_of_seq (coords_data : list ((Z * Z) * Z)) x z :
  organized_get (organize_by_region coords_data) x z
  = PyDict.get (x, z) (PyDict.of_seq coords_data).
Proof.
  revert x z.
  induction coords_data as [|[[x0 z0] y0] l IH] using rev_ind;
    intros x z; [done|].
  rewrite organize_by_region_snoc, organized_get_step.
  unfold PyDict.of_seq. rewrite PyDictFacts.update_snoc.
  destruct (decide ((x, z) = (x0, z0))) as [->|Hne].
  - by rewrite PyDictFacts.get_set_eq.
  - rewrite PyDictFacts.get_set_ne by done. apply IH.
Qed.

(** X1: the structure [organize_by_region] returns holds, at the region,
    chunk and block keys of a coordinate, exactly what the coordinate map
    holds at that coordinate: no sample is lost, moved or invented. *)
Theorem organize_by_region_lookup (coords_data : list ((Z * Z) * Z)) :
  (forall x z,
      organized_get (organize_by_region coords_data) x z
      = PyDict.get (x, z) (PyDict.of_seq coords_data)) /\
  (NoDup coords_data.*1 ->
   forall x z,
     organized_get (organize_by_region coords_data) x z
     = PyDict.get (x, z) coords_data).
Proof.
  split; [apply organized_get_of_seq|]. intros Hnd x z.
  by rewrite organized_get_of_seq, PyDictFacts.get_of_seq_dict.
Qed.

Lemma organize_by_region_lookup_witness :
  organized_get (organize_by_region [((0, 0), 5); ((-513, 600), 7)])
    (-513) 600 = Some 7.
Proof.
  destruct (organize_by_region_lookup [((0, 0), 5); ((-513, 600), 7)])
    as [_ Hdict].
  rewrite Hdict; [reflexivity|].
  apply (bool_decide_unpack _). vm_compute. exact I.
Defined.

Lemma pydict_set_nonempty {K V} `{EqDecision K} (k : K) (v : V)
    (d : list (K * V)) : PyDict.set k v d <> [].
Proof. destruct d as [|[k' v'] d]; simpl; [done|]. by destruct (decide _). Qed.

Lemma pydict_get_default_cases {K V} `{EqDecision K} (k : K)
    (d : list (K * list V)) :
  PyDict.get_default k [] d = [] \/ (k, PyDict.get_default k [] d) ∈ d.
Proof.
  unfold PyDict.get_default. destruct (PyDict.get k d) as [v|] eqn:Hg.
  - right. by apply PyDictFacts.get_Some_elem.
  - by left.
Qed.

Lemma organized_wf_step l rd x z y :
  organized_wf l rd ->
  organized_wf (l ++ [((x, z), y)]) (organize_step rd ((x, z), y)).
Proof.
  intros [Hnd Hwf]. unfold organize_step.
  set (rk := (x ≫ 9, z ≫ 9)).
  set (ck := (Z.land (x ≫ 4) 31, Z.land (z ≫ 4) 31)).
  set (bk := (Z.land x 15, Z.land z 15)).
  set (chunks0 := PyDict.get_default rk [] rd).
  set (blocks0 := PyDict.get_default ck [] chunks0).
  assert (Hold : forall rk' chunks,
             (rk', chunks) ∈ rd ->
             chunks <> [] /\ NoDup chunks.*1 /\
             forall ck' blocks,
               (ck', blocks) ∈ chunks ->
               blocks <> [] /\ NoDup blocks.*1 /\
               forall bk' y',
                 (bk', y') ∈ blocks ->
                 exists x' z',
                   ((x', z'), y') ∈ l ++ [((x, z), y)] /\
                   decompose x' z' = mkDecomp rk' ck' bk').
  { intros rk' chunks Hin. destruct (Hwf rk' chunks Hin) as (Hne & Hndc & Hc).
    split; [done|]. split; [done|]. intros ck' blocks Hinc.
    destruct (Hc ck' blocks Hinc) as (Hneb & Hndb & Hb).
    split; [done|]. split; [done|]. intros bk' y' Hinb.
    destruct (Hb bk' y' Hinb) as (x' & z' & Hs & Hd).
    exists x', z'. split; [|done]. apply elem_of_app. by left. }
  assert (Hc0 : chunks0 = [] \/ (rk, chunks0) ∈ rd)
    by apply pydict_get_default_cases.
  assert (Hb0 : blocks0 = [] \/ (ck, blocks0) ∈ chunks0)
    by apply pydict_get_default_cases.
  assert (Hndc0 : NoDup chunks0.*1).
  { destruct Hc0 as [->|Hin]; [apply NoDup_nil_2|].
    by destruct (Hold rk chunks0 Hin) as (_ & ? & _). }
  assert (Hndb0 : NoDup blocks0.*1).
  { destruct Hb0 as [->|Hin]; [apply NoDup_nil_2|].
    destruct Hc0 as [Hc0|Hc0]; [rewrite Hc0 in Hin; by apply elem_of_nil in Hin|].
    destruct (Hold rk chunks0 Hc0) as (_ & _ & Hc).
    by destruct (Hc ck blocks0 Hin) as (_ & ? & _). }
  split; [by apply PyDictFacts.NoDup_set|].
  intros rk' chunks Hin.
  apply PyDictFacts.elem_of_set in Hin as [[= -> ->]|Hin];
    [|by apply Hold].
  split; [apply pydict_set_nonempty|].
  split; [by apply PyDictFacts.NoDup_set|].
  intros ck' blocks Hinc.
  apply PyDictFacts.elem_of_set in Hinc as [[= -> ->]|Hinc].
  - split; [apply pydict_set_nonempty|].
    split; [by apply PyDictFacts.NoDup_set|].
    intros bk' y' Hinb.
    apply PyDictFacts.elem_of_set in Hinb as [[= -> ->]|Hinb].
    + exists x, z. split; [|done]. apply elem_of_app. right.
      apply list_elem_of_here.
    + destruct Hb0 as [Hb0|Hb0];
        [rewrite Hb0 in Hinb; by apply elem_of_nil in Hinb|].
      destruct Hc0 as [Hc0|Hc0];
        [rewrite Hc0 in Hb0; by apply elem_of_nil in Hb0|].
      destruct (Hold rk chunks0 Hc0) as (_ & _ & Hc).
      destruct (Hc ck blocks0 Hb0) as (_ & _ & Hb).
      by apply Hb.
  - destruct Hc0 as [Hc0|Hc0];
      [rewrite Hc0 in Hinc; by apply elem_of_nil in Hinc|].
    destruct (Hold rk chunks0 Hc0) as (_ & _ & Hc).
    by apply Hc.
Qed.

Lemma organize_by_region_wf l : organized_wf l (organize_by_region l).
Proof.
  induction l as [|[[x z] y] l IH] using rev_ind.
  - split; [apply NoDup_nil_2|]. intros rk chunks Hin.
    by apply elem_of_nil in Hin.
  - rewrite organize_by_region_snoc. by apply organized_wf_step.
Qed.

(** X2: in the structure [organize_by_region] returns no region, chunk or
    block key occurs twice, no region is without a chunk and no chunk
    without a block, every chunk key is in 0..31 and every block key in
    0..15 on both axes, and every stored elevation is that of a sample
    whose coordinate has exactly these region, chunk and block keys. *)
Theorem organize_by_region_shape (coords_data : list ((Z * Z) * Z)) :
  organized_wf coords_data (organize_by_region coords_data) /\
  (forall rk chunks ck blocks bk y,
      (rk, chunks) ∈ organize_by_region coords_data ->
      (ck, blocks) ∈ chunks -> (bk, y) ∈ blocks ->
      (0 <= ck.1 < 32 /\ 0 <= ck.2 < 32) /\
      (0 <= bk.1 < 16 /\ 0 <= bk.2 < 16) /\
      ((recombine (mkDecomp rk ck bk), y) ∈ coords_data)).
Proof.
  pose proof (organize_by_region_wf coords_data) as Hwf.
  split; [done|]. destruct Hwf as [_ Hwf].
  intros rk chunks ck blocks bk y Hr Hc Hb.
  destruct (Hwf rk chunks Hr) as (_ & _ & Hcs).
  destruct (Hcs ck blocks Hc) as (_ & _ & Hbs).
  destruct (Hbs bk y Hb) as (x & z & Hs & Hd).
  rewrite <- Hd, recombine_decompose.
  injection Hd as <- <- <-. simpl.
  pose proof (chunk_of_range x). pose proof (chunk_of_range z).
  pose proof (block_of_range x). pose proof (block_of_range z).
  done.
Qed.

Lemma organize_by_region_shape_witness :
  (0 <= 31 < 32 /\ 0 <= 5 < 32) /\ (0 <= 15 < 16 /\ 0 <= 8 < 16) /\
  ((-1, 600), 7) ∈ [((0, 0), 5); ((-1, 600), 7)].
Proof.
  destruct (organize_by_region_shape [((0, 0), 5); ((-1, 600), 7)])
    as [_ Hshape].
  apply (Hshape (-1, 1) [((31, 5), [((15, 8), 7)])] (31, 5)
           [((15, 8), 7)] (15, 8) 7).
  - vm_compute. apply list_elem_of_further, list_elem_of_here.
  - apply list_elem_of_here.
  - apply list_elem_of_here.
Defined.

(** ** Region file names *)

Lemma contains_char_app c a b :
  contains_char c (a +:+ b) = contains_char c a || contains_char c b.
Proof.
  induction a as [|c' a IH]; simpl; [done|].
  by rewrite IH, orb_assoc.
Qed.

(** a string is cut at the first occurrence of a character in one way *)
Lemma split_at_char_unique c a a' s s' :
  contains_char c a = false -> contains_char c a' = false ->
  a +:+ String c s = a' +:+ String c s' -> a = a' /\ s = s'.
Proof.
  revert a'. induction a as [|x a IH]; intros [|x' a'] Ha Ha' Heq;
    simpl in *.
  - by injection Heq as ->.
  - injection Heq as <- _. apply orb_false_iff in Ha' as [Hc _].
    by rewrite Ascii.eqb_refl in Hc.
  - injection Heq as -> _. apply orb_false_iff in Ha as [Hc _].
    by rewrite Ascii.eqb_refl in Hc.
  - injection Heq as -> Heq.
    apply orb_false_iff in Ha as [_ Ha].
    apply orb_false_iff in Ha' as [_ Ha'].
    destruct (IH a' Ha Ha' Heq) as [-> ->]. done.
Qed.

Lemma pretty_N_char_no_dot x : Ascii.eqb "." (pretty_N_char x) = false.
Proof. unfold pretty_N_char. by repeat case_match. Qed.

Lemma pretty_N_go_no_dot x s :
  contains_char "." s = false -> contains_char "." (pretty_N_go x s) = false.
Proof.
  revert s. induction (N.lt_wf_0 x) as [x _ IH]; intros s Hs.
  assert (x = 0 \/ 0 < x)%N as [->|Hx] by lia.
  - by rewrite pretty_N_go_0.
  - rewrite pretty_N_go_step by done. apply IH.
    + by apply N.div_lt.
    + cbn [contains_char]. by rewrite pretty_N_char_no_dot.
Qed.

Lemma pretty_Z_no_dot (x : Z) : contains_char "." (pretty x) = false.
Proof.
  assert (HN : forall n : N, contains_char "." (pretty n) = false).
  { intros n. unfold pretty, pretty_N. case_decide; [done|].
    by apply pretty_N_go_no_dot. }
  destruct x as [|p|p]; [done|apply (HN (Npos p))|].
  unfold pretty, pretty_Z. rewrite contains_char_app. simpl.
  apply (HN (Npos p)).
Qed.

Lemma region_file_name_eq rx rz rx' rz' :
  region_file_name rx rz = region_file_name rx' rz' ->
  rx = rx' /\ rz = rz'.
Proof.
  unfold region_file_name. intros Heq.
  apply (inj (String.app "r.")) in Heq.
  change (pretty rx +:+ String "." (pretty rz +:+ ".mca")
          = pretty rx' +:+ String "." (pretty rz' +:+ ".mca")) in Heq.
  apply split_at_char_unique in Heq as [Hx Hz];
    [|apply pretty_Z_no_dot..].
  change (pretty rz +:+ String "." "mca"
          = pretty rz' +:+ String "." "mca") in Hz.
  apply split_at_char_unique in Hz as [Hz _];
    [|apply pretty_Z_no_dot..].
  apply (inj pretty) in Hx. apply (inj pretty) in Hz. done.
Qed.

(** X3: the file name of a region determines the region: two regions have
    the same name [r.<x>.<z>.mca] only if they are the same region, and
    then the files are at the same path of the output directory. *)
Theorem region_file_name_inj rx rz rx' rz' out :
  (region_file_name rx rz = region_file_name rx' rz' ->
   (rx, rz) = (rx', rz')) /\
  (path_join out (region_file_name rx rz)
   = path_join out (region_file_name rx' rz') ->
   (rx, rz) = (rx', rz')).
Proof.
  split.
  - intros Heq. by apply region_file_name_eq in Heq as [-> ->].
  - intros Heq. apply path_join_region_inj in Heq.
    by apply region_file_name_eq in Heq as [-> ->].
Qed.

Lemma region_file_name_inj_witness : ((-2, 31) : Z * Z) = (-2, 31).
Proof.
  destruct (region_file_name_inj (-2) 31 (-2) 31 "out") as [Hname _].
  apply Hname. reflexivity.
Defined.

(** ** The emission of a batch *)

Section BatchFacts.
Context `{!Anvil}.

(** what the step for one region does, by cases *)
Lemma batch_step_cases me out dsm st rx rz chunks :
  (region_file_name rx rz ∈ existing_mcas_set st /\
   batch_step me out dsm st ((rx, rz), chunks) = st) \/
  ((region_file_name rx rz ∉ existing_mcas_set st) /\
   generate_mca_file rx rz chunks me dsm = None /\
   batch_step me out dsm st ((rx, rz), chunks)
   = mkBatchState (mca_count st) (existing_mcas_set st)
       (events st ++ [EvBuild rx rz me None])) \/
  (exists region,
      (region_file_name rx rz ∉ existing_mcas_set st) /\
      generate_mca_file rx rz chunks me dsm = Some region /\
      save_raises (path_join out (region_file_name rx rz)) region = true /\
      batch_step me out dsm st ((rx, rz), chunks)
      = mkBatchState (mca_count st) (existing_mcas_set st)
          (events st
           ++ [EvBuild rx rz me (Some region);
               EvSave (path_join out (region_file_name rx rz)) region
                 true])) \/
  (exists region,
      (region_file_name rx rz ∉ existing_mcas_set st) /\
      generate_mca_file rx rz chunks me dsm = Some region /\
      save_raises (path_join out (region_file_name rx rz)) region = false /\
      batch_step me out dsm st ((rx, rz), chunks)
      = mkBatchState (mca_count st + 1)
          ({[region_file_name rx rz]} ∪ existing_mcas_set st)
          (events st
           ++ [EvBuild rx rz me (Some region);
               EvSave (path_join out (region_file_name rx rz)) region
                 false])).
Proof.
  unfold batch_step.
  destruct (decide (region_file_name rx rz ∈ existing_mcas_set st))
    as [Hin|Hnin]; [by left|]. right.
  destruct (generate_mca_file rx rz chunks me dsm) as [region|] eqn:Hgen;
    [|by left]. right.
  destruct (save_raises _ region) eqn:Hsave.
  - left. by exists region.
  - right. by exists region.
Qed.

Lemma filter_event_saved_app (l1 l2 : list Event) :
  length (filter (fun e => event_saved e = true) (l1 ++ l2))
  = (length (filter (fun e => event_saved e = true) l1)
     + length (filter (fun e => event_saved e = true) l2))%nat.
Proof. by rewrite filter_app, length_app. Qed.

Lemma batch_step_count me out dsm st item n0 :
  mca_count st
    = Z.of_nat (length (filter (fun e => event_saved e = true) (events st))) ->
  size (existing_mcas_set st) = (n0 + Z.to_nat (mca_count st))%nat ->
  mca_count (batch_step me out dsm st item)
    = Z.of_nat (length (filter (fun e => event_saved e = true)
                          (events (batch_step me out dsm st item)))) /\
  size (existing_mcas_set (batch_step me out dsm st item))
    = (n0 + Z.to_nat (mca_count (batch_step me out dsm st item)))%nat.
Proof.
  intros Hc Hs. destruct item as [[rx rz] chunks].
  destruct (batch_step_cases me out dsm st rx rz chunks)
    as [[_ ->]|[(_ & _ & ->)|[(region & _ & _ & _ & ->)
                              |(region & Hnin & _ & _ & ->)]]];
    simpl; [done|..].
  - rewrite filter_event_saved_app. simpl. split; [lia|done].
  - rewrite filter_event_saved_app. simpl. split; [lia|done].
  - rewrite filter_event_saved_app. simpl. split; [lia|].
    rewrite size_union by set_solver. rewrite size_singleton. lia.
Qed.

Lemma foldl_batch_step_count me out dsm rd st n0 :
  mca_count st
    = Z.of_nat (length (filter (fun e => event_saved e = true) (events st))) ->
  size (existing_mcas_set st) = (n0 + Z.to_nat (mca_count st))%nat ->
  mca_count (foldl (batch_step me out dsm) st rd)
    = Z.of_nat (length (filter (fun e => event_saved e = true)
                          (events (foldl (batch_step me out dsm) st rd)))) /\
  size (existing_mcas_set (foldl (batch_step me out dsm) st rd))
    = (n0 + Z.to_nat (mca_count (foldl (batch_step me out dsm) st rd)))%nat.
Proof.
  revert st. induction rd as [|item rd IH]; intros st Hc Hs; [done|].
  rewrite foldl_step.
  destruct (batch_step_count me out dsm st item n0 Hc Hs) as [Hc' Hs'].
  by apply IH.
Qed.

(** X4: the number [generate_mca_batch] returns is the number of region
    files it saved, and the skip-set it leaves has grown by exactly that
    many names. *)
Theorem batch_count_is_files_saved batch_coords base_x base_y me out
    (S0 : gset string) is_dsm :
  mca_count
    (generate_mca_batch batch_coords base_x base_y me out S0 is_dsm)
  = Z.of_nat
      (length
         (filter (fun e => event_saved e = true)
            (events (generate_mca_batch batch_coords base_x base_y me out
                       S0 is_dsm)))) /\
  size (existing_mcas_set
          (generate_mca_batch batch_coords base_x base_y me out S0 is_dsm))
  = (size S0
     + Z.to_nat
         (mca_count
            (generate_mca_batch batch_coords base_x base_y me out S0
               is_dsm)))%nat.
Proof.
  unfold generate_mca_batch.
  apply foldl_batch_step_count; simpl; [done|lia].
Qed.
End BatchFacts.

Section BatchRegions.
Context `{!Anvil}.

Lemma batch_step_existing me out dsm st rx rz chunks fname :
  fname ∈ existing_mcas_set (batch_step me out dsm st ((rx, rz), chunks)) <->
  fname ∈ existing_mcas_set st \/
  (fname = region_file_name rx rz /\
   exists region,
     generate_mca_file rx rz chunks me dsm = Some region /\
     save_raises (path_join out (region_file_name rx rz)) region = false).
Proof.
  destruct (batch_step_cases me out dsm st rx rz chunks)
    as [[Hin ->]|[(Hnin & Hgen & ->)|[(region & Hnin & Hgen & Hsave & ->)
                                     |(region & Hnin & Hgen & Hsave & ->)]]];
    simpl.
  - split; [by left|]. intros [?|[-> _]]; done.
  - split; [by left|]. intros [?|[_ (region & Hgen' & _)]]; [done|].
    congruence.
  - split; [by left|]. intros [?|[_ (region' & Hgen' & Hsave')]]; [done|].
    congruence.
  - rewrite elem_of_union, elem_of_singleton. split.
    + intros [->|?]; [|by left]. right. split; [done|]. by exists region.
    + intros [?|[-> _]]; [by right|by left].
Qed.

Lemma batch_step_events_mono me out dsm st item e :
  e ∈ events st -> e ∈ events (batch_step me out dsm st item).
Proof.
  intros He. destruct item as [[rx rz] chunks].
  destruct (batch_step_cases me out dsm st rx rz chunks)
    as [[_ ->]|[(_ & _ & ->)|[(region & _ & _ & _ & ->)
                              |(region & _ & _ & _ & ->)]]];
    simpl; [done|..]; apply elem_of_app; by left.
Qed.

Lemma foldl_batch_step_events_mono me out dsm rd st e :
  e ∈ events st -> e ∈ events (foldl (batch_step me out dsm) st rd).
Proof.
  revert st. induction rd as [|item rd IH]; intros st He; [done|].
  rewrite foldl_step. by apply IH, batch_step_events_mono.
Qed.

(** the regions of the rest of the loop leave a foreign name alone *)
Lemma foldl_batch_step_foreign me out dsm rd st rx rz :
  (rx, rz) ∉ rd.*1 ->
  region_file_name rx rz ∈ existing_mcas_set
                             (foldl (batch_step me out dsm) st rd) <->
  region_file_name rx rz ∈ existing_mcas_set st.
Proof.
  revert st. induction rd as [|[[rx' rz'] chunks] rd IH]; intros st Hnin;
    [done|].
  rewrite fmap_cons, not_elem_of_cons in Hnin. destruct Hnin as [Hne Hnin].
  rewrite foldl_step, IH by done. rewrite batch_step_existing.
  split; [|by left]. intros [?|[Heq _]]; [done|].
  apply region_file_name_eq in Heq as [-> ->]. done.
Qed.

Lemma foldl_batch_step_outcome me out dsm rd st rx rz chunks :
  NoDup rd.*1 -> ((rx, rz), chunks) ∈ rd ->
  (region_file_name rx rz
     ∈ existing_mcas_set (foldl (batch_step me out dsm) st rd) <->
   region_file_name rx rz ∈ existing_mcas_set st \/
   exists region,
     generate_mca_file rx rz chunks me dsm = Some region /\
     save_raises (path_join out (region_file_name rx rz)) region = false) /\
  (region_file_name rx rz ∉ existing_mcas_set st ->
   EvBuild rx rz me (generate_mca_file rx rz chunks me dsm)
     ∈ events (foldl (batch_step me out dsm) st rd) /\
   forall region,
     generate_mca_file rx rz chunks me dsm = Some region ->
     EvSave (path_join out (region_file_name rx rz)) region
       (save_raises (path_join out (region_file_name rx rz)) region)
       ∈ events (foldl (batch_step me out dsm) st rd)).
Proof.
  revert st. induction rd as [|[[rx' rz'] chunks'] rd IH]; intros st Hnd Hin.
  { by apply elem_of_nil in Hin. }
  rewrite fmap_cons in Hnd. apply NoDup_cons in Hnd as [Hhead Hnd].
  rewrite foldl_step. apply elem_of_cons in Hin as [[= <- <- <-]|Hin].
  - split.
    + rewrite foldl_batch_step_foreign by done.
      rewrite batch_step_existing. split.
      * intros [?|[_ ?]]; [by left|by right].
      * intros [?|?]; [by left|]. right. done.
    + intros Hfresh.
      destruct (batch_step_cases me out dsm st rx rz chunks)
        as [[Hin' _]|[(_ & Hgen & Hst)|[(region & _ & Hgen & Hsave & Hst)
                                       |(region & _ & Hgen & Hsave & Hst)]]];
        [done|..]; rewrite Hst, Hgen; split.
      * apply foldl_batch_step_events_mono. simpl. apply elem_of_app.
        right. apply list_elem_of_here.
      * intros region [=].
      * apply foldl_batch_step_events_mono. simpl. apply elem_of_app.
        right. apply list_elem_of_here.
      * intros region' [= <-]. rewrite Hsave.
        apply foldl_batch_step_events_mono. simpl. apply elem_of_app.
        right. apply list_elem_of_further, list_elem_of_here.
      * apply foldl_batch_step_events_mono. simpl. apply elem_of_app.
        right. apply list_elem_of_here.
      * intros region' [= <-]. rewrite Hsave.
        apply foldl_batch_step_events_mono. simpl. apply elem_of_app.
        right. apply list_elem_of_further, list_elem_of_here.
  - assert (Hne : (rx', rz') <> (rx, rz)).
    { intros [= -> ->]. apply Hhead.
      apply list_elem_of_fmap. by exists ((rx, rz), chunks). }
    assert (Hsame : region_file_name rx rz
                      ∈ existing_mcas_set
                          (batch_step me out dsm st ((rx', rz'), chunks'))
                    <-> region_file_name rx rz ∈ existing_mcas_set st).
    { rewrite batch_step_existing. split; [|by left].
      intros [?|[Heq _]]; [done|].
      apply region_file_name_eq in Heq as [-> ->]. done. }
    destruct (IH (batch_step me out dsm st ((rx', rz'), chunks')) Hnd Hin)
      as [Hset Hev].
    split.
    + by rewrite Hset, Hsame.
    + intros Hfresh. apply Hev. by rewrite Hsame.
Qed.

(** where an event of the loop comes from *)
Lemma foldl_batch_step_origin me out dsm rd st e :
  e ∈ events (foldl (batch_step me out dsm) st rd) ->
  e ∈ events st \/
  exists rx rz chunks,
    ((rx, rz), chunks) ∈ rd /\
    (e = EvBuild rx rz me (generate_mca_file rx rz chunks me dsm) \/
     exists region raised,
       generate_mca_file rx rz chunks me dsm = Some region /\
       e = EvSave (path_join out (region_file_name rx rz)) region raised).
Proof.
  revert st. induction rd as [|[[rx rz] chunks] rd IH]; intros st He;
    [by left|].
  rewrite foldl_step in He. apply IH in He as [He|He].
  - destruct (batch_step_cases me out dsm st rx rz chunks)
      as [[_ Hst]|[(_ & Hgen & Hst)|[(region & _ & Hgen & Hsave & Hst)
                                    |(region & _ & Hgen & Hsave & Hst)]]];
      rewrite Hst in He; simpl in He; [by left|..];
      (apply elem_of_app in He as [He|He]; [by left|]); right;
      exists rx, rz, chunks; (split; [apply list_elem_of_here|]).
    + apply list_elem_of_singleton in He as ->. left. by rewrite Hgen.
    + apply elem_of_cons in He as [->|He]; [left; by rewrite Hgen|].
      apply list_elem_of_singleton in He as ->. right. by exists region, true.
    + apply elem_of_cons in He as [->|He]; [left; by rewrite Hgen|].
      apply list_elem_of_singleton in He as ->. right.
      by exists region, false.
  - destruct He as (rx' & rz' & chunks' & Hin & He). right.
    exists rx', rz', chunks'. split; [by apply list_elem_of_further|done].
Qed.

End BatchRegions.


Lemma pydict_get_elem_NoDup {K V} `{EqDecision K} (k : K) (v : V)
    (d : list (K * V)) :
  NoDup d.*1 -> (k, v) ∈ d -> PyDict.get k d = Some v.
Proof.
  induction d as [|[k' v'] d IH]; intros Hnd Hin.
  - by apply elem_of_nil in Hin.
  - rewrite fmap_cons in Hnd. apply NoDup_cons in Hnd as [Hk Hnd]. simpl.
    apply elem_of_cons in Hin as [[= <- <-]|Hin].
    + by rewrite decide_True.
    + rewrite decide_False; [by apply IH|].
      intros ->. apply Hk. apply list_elem_of_fmap. by exists (k', v).
Qed.

Section BatchColumns.
Context `{!Anvil}.

Lemma add_chunks_never_raises me cd region :
  (forall r c, add_chunk_raises r c = false) ->
  exists region', add_chunks me region cd = Some region'.
Proof.
  intros Hok. revert region.
  induction cd as [|[[cx cz] bc] cd IH]; intros region; simpl.
  - by exists region.
  - rewrite Hok. apply IH.
Qed.

Lemma foldl_place_block_columns me bc ch :
  exists l',
    ch_blocks (foldl (place_block me) ch bc) = ch_blocks ch ++ l' /\
    (block_column <$> l') `sublist_of` bc.*1.
Proof.
  revert ch. induction bc as [|[[bx bz] y] bc IH]; intros ch.
  - exists []. split; [by rewrite app_nil_r|constructor].
  - rewrite foldl_step.
    destruct (IH (place_block me ch ((bx, bz), y))) as (l' & Hl' & Hsub).
    destruct (place_block_cases me ch bx bz y) as [Heq|(Heq & _ & _)];
      rewrite Heq in Hl' |- *.
    + exists l'. split; [done|]. rewrite fmap_cons. by apply sublist_cons.
    + exists ((bx, y, bz) :: l'). split.
      * rewrite Hl'. simpl. by rewrite <- app_assoc.
      * rewrite !fmap_cons. by apply sublist_skip.
Qed.

Lemma build_chunk_columns_NoDup me cx cz bc :
  NoDup bc.*1 -> NoDup (block_column <$> ch_blocks (build_chunk me cx cz bc)).
Proof.
  intros Hnd. unfold build_chunk.
  destruct (foldl_place_block_columns me bc (mkChunk cx cz []))
    as (l' & -> & Hsub). simpl.
  by apply (sublist_NoDup _ bc.*1).
Qed.

Lemma built_chunks_coords me (cd : list ((Z * Z) * list ((Z * Z) * Z))) :
  chunk_coords
    <$> ((fun e : (Z * Z) * list ((Z * Z) * Z) =>
            build_chunk me e.1.1 e.1.2 e.2) <$> cd)
  = cd.*1.
Proof.
  induction cd as [|[[cx cz] bc] cd IH]; [done|].
  rewrite !fmap_cons, IH. f_equal. unfold chunk_coords. simpl.
  by destruct (build_chunk_coords me cx cz bc) as [-> ->].
Qed.

(** X6: a sample of the batch reaches a saved region file.  For a
    coordinate map without repeated keys, a sample whose region is not in
    the skip-set and whose elevation is within [floor, 319] is, when the
    codec raises neither on the chunks of the region, nor on that block,
    nor on saving that file, a block at its elevation in the chunk and
    region of its coordinate, in a region saved under the region's file
    name; and the name is then in the skip-set. *)
Theorem sample_reaches_saved_region batch_coords base_x base_y me out
    (S0 : gset string) is_dsm x z y :
  NoDup batch_coords.*1 ->
  ((x, z), y) ∈ batch_coords ->
  region_file_name (x ≫ 9) (z ≫ 9) ∉ S0 ->
  me <= y <= 319 ->
  (forall r c, add_chunk_raises r c = false) ->
  (forall c, set_block_raises c (Z.land x 15) y (Z.land z 15) = false) ->
  (forall r,
      save_raises (path_join out (region_file_name (x ≫ 9) (z ≫ 9))) r
      = false) ->
  exists region chunk,
    EvSave (path_join out (region_file_name (x ≫ 9) (z ≫ 9))) region false
      ∈ events
          (generate_mca_batch batch_coords base_x base_y me out S0 is_dsm) /\
    rg_x region = x ≫ 9 /\ rg_z region = z ≫ 9 /\
    chunk ∈ rg_chunks region /\
    ch_x chunk = Z.land (x ≫ 4) 31 /\ ch_z chunk = Z.land (z ≫ 4) 31 /\
    (Z.land x 15, y, Z.land z 15) ∈ ch_blocks chunk /\
    region_file_name (x ≫ 9) (z ≫ 9)
      ∈ existing_mcas_set
          (generate_mca_batch batch_coords base_x base_y me out S0 is_dsm).
Proof.
  intros Hnd Hin Hfresh Hy Hadd Hset Hsave.
  pose proof (organized_get_of_seq batch_coords x z) as Hget.
  rewrite PyDictFacts.get_of_seq_dict in Hget by done.
  rewrite (pydict_get_elem_NoDup _ _ _ Hnd Hin) in Hget.
  unfold organized_get in Hget.
  destruct (PyDict.get (x ≫ 9, z ≫ 9) (organize_by_region batch_coords))
    as [chunks|] eqn:Hr; [|done].
  destruct (PyDict.get (Z.land (x ≫ 4) 31, Z.land (z ≫ 4) 31) chunks)
    as [blocks|] eqn:Hc; [|done].
  apply PyDictFacts.get_Some_elem in Hr, Hc, Hget.
  destruct (add_chunks_never_raises me chunks
              (mkRegion (x ≫ 9) (z ≫ 9) []) Hadd) as [region Hgen].
  destruct (add_chunks_chunks me chunks _ region Hgen) as (Hx & Hz & Hch).
  simpl in Hx, Hz, Hch.
  destruct (foldl_batch_step_outcome me out is_dsm
              (organize_by_region batch_coords) (mkBatchState 0 S0 [])
              (x ≫ 9) (z ≫ 9) chunks) as [Hset' Hev];
    [by destruct (organize_by_region_wf batch_coords)|done|].
  destruct (Hev Hfresh) as [_ Hsaved].
  specialize (Hsaved region Hgen). rewrite Hsave in Hsaved.
  exists region,
    (build_chunk me (Z.land (x ≫ 4) 31) (Z.land (z ≫ 4) 31) blocks).
  split; [exact Hsaved|]. split; [done|]. split; [done|]. split.
  { rewrite Hch. apply list_elem_of_fmap.
    by exists ((Z.land (x ≫ 4) 31, Z.land (z ≫ 4) 31), blocks). }
  split; [apply build_chunk_coords|]. split; [apply build_chunk_coords|].
  split.
  { unfold build_chunk. by apply foldl_place_block_accepted. }
  unfold generate_mca_batch. apply Hset'. right. by exists region.
Qed.

(** X7: whatever the emission hands to the codec is within bounds and is
    a sample of the batch.  In every region built or saved, no two chunks
    have the same coordinates and no two blocks of a chunk are in the same
    column; every chunk coordinate is in 0..31, every block coordinate in
    0..15, every block level within [floor, 319]; and every block is the
    elevation of the sample at the coordinate its region, chunk and block
    keys recombine to. *)
Theorem emitted_regions_within_bounds batch_coords base_x base_y me out
    (S0 : gset string) is_dsm e region :
  e ∈ events
        (generate_mca_batch batch_coords base_x base_y me out S0 is_dsm) ->
  (exists rx rz m, e = EvBuild rx rz m (Some region)) \/
  (exists mca_path raised, e = EvSave mca_path region raised) ->
  NoDup (chunk_coords <$> rg_chunks region) /\
  forall chunk,
    chunk ∈ rg_chunks region ->
    (0 <= ch_x chunk < 32 /\ 0 <= ch_z chunk < 32) /\
    NoDup (block_column <$> ch_blocks chunk) /\
    forall bx lvl bz,
      (bx, lvl, bz) ∈ ch_blocks chunk ->
      (0 <= bx < 16 /\ 0 <= bz < 16) /\ me <= lvl <= 319 /\
      (recombine (mkDecomp (rg_x region, rg_z region)
                    (ch_x chunk, ch_z chunk) (bx, bz)), lvl)
        ∈ batch_coords.
Proof.
  intros He Hshape. unfold generate_mca_batch in He.
  apply foldl_batch_step_origin in He as [He|He];
    [by apply elem_of_nil in He|].
  destruct He as (rx & rz & chunks & Hin & He).
  assert (Hgen : generate_mca_file rx rz chunks me is_dsm = Some region).
  { destruct He as [->|(region' & raised & Hgen & ->)].
    - destruct Hshape as [(rx' & rz' & m & [= _ _ _ ->])
                         |(mca_path & raised & [=])]. done.
    - destruct Hshape as [(rx' & rz' & m & [=])
                         |(mca_path & raised' & [= _ <- _])]. done. }
  clear He Hshape.
  destruct (add_chunks_chunks me chunks _ region Hgen) as (Hx & Hz & Hch).
  simpl in Hx, Hz, Hch.
  destruct (organize_by_region_wf batch_coords) as [_ Hwf].
  destruct (Hwf (rx, rz) chunks Hin) as (_ & Hndc & Hcs).
  split.
  { rewrite Hch, built_chunks_coords. done. }
  intros chunk Hchunk. rewrite Hch in Hchunk.
  apply list_elem_of_fmap in Hchunk as ([[cx cz] blocks] & -> & Hinc).
  simpl. destruct (Hcs (cx, cz) blocks Hinc) as (Hne & Hndb & Hbs).
  destruct (build_chunk_coords me cx cz blocks) as [Hcx Hcz].
  assert (Hck : 0 <= cx < 32 /\ 0 <= cz < 32).
  { destruct blocks as [|[bk y0] blocks]; [done|].
    destruct (Hbs bk y0) as (x0 & z0 & _ & Hd); [apply list_elem_of_here|].
    injection Hd as _ _ <- <- _.
    split; apply chunk_of_range. }
  split; [by rewrite Hcx, Hcz|].
  split; [by apply build_chunk_columns_NoDup|].
  intros bx lvl bz Hblock. unfold build_chunk in Hblock.
  apply foldl_place_block_inv in Hblock as [Hblock|[Hblock Hlvl]];
    [by apply elem_of_nil in Hblock|].
  destruct (Hbs (bx, bz) lvl Hblock) as (x0 & z0 & Hs & Hd).
  rewrite Hx, Hz, Hcx, Hcz. rewrite <- Hd, recombine_decompose.
  injection Hd as _ _ _ _ <- <-.
  split; [split; apply block_of_range|]. done.
Qed.
End BatchColumns.

Lemma sample_reaches_saved_region_witness :
  exists region chunk,
    EvSave "out/r.1.-1.mca" region false
      ∈ events
          (@generate_mca_batch ex_anvil [((0, 0), 5); ((600, -3), 8)] 0 0 0
             "out" {["r.0.0.mca"]} false) /\
    chunk ∈ rg_chunks region /\
    (8, 8, 13) ∈ ch_blocks chunk.
Proof.
  destruct (@sample_reaches_saved_region ex_anvil
              [((0, 0), 5); ((600, -3), 8)] 0 0 0 "out" {["r.0.0.mca"]}
              false 600 (-3) 8)
    as (region & chunk & Hev & _ & _ & Hchunk & _ & _ & Hblock & _).
  - apply (bool_decide_unpack _). vm_compute. exact I.
  - apply list_elem_of_further, list_elem_of_here.
  - apply (bool_decide_unpack _). vm_compute. exact I.
  - lia.
  - reflexivity.
  - reflexivity.
  - reflexivity.
  - by exists region, chunk.
Defined.

Lemma emitted_regions_within_bounds_witness :
  (0 <= 8 < 16 /\ 0 <= 13 < 16) /\ 0 <= 8 <= 319 /\
  ((600, -3), 8) ∈ [((0, 0), 5); ((600, -3), 8)].
Proof.
  destruct (@emitted_regions_within_bounds ex_anvil
              [((0, 0), 5); ((600, -3), 8)] 0 0 0 "out" {["r.0.0.mca"]}
              false
              (EvSave "out/r.1.-1.mca"
                 (mkRegion 1 (-1) [mkChunk 5 31 [(8, 8, 13)]]) false)
              (mkRegion 1 (-1) [mkChunk 5 31 [(8, 8, 13)]]))
    as [_ Hchunks].
  - vm_compute. apply list_elem_of_further, list_elem_of_here.
  - right. by eexists _, _.
  - destruct (Hchunks (mkChunk 5 31 [(8, 8, 13)])) as (_ & _ & Hblocks);
      [apply list_elem_of_here|].
    apply (Hblocks 8 8 13). apply list_elem_of_here.
Defined.

(** ** What a tile yields *)

Lemma foldl_min_lower (l : list Z) (a : Z) :
  foldl Z.min a l <= a /\ Forall (fun v => foldl Z.min a l <= v) l.
Proof.
  revert a. induction l as [|x l IH]; intros a; simpl.
  - split; [lia|constructor].
  - destruct (IH (Z.min a x)) as [Hle Hall]. split; [lia|].
    constructor; [lia|done].
Qed.

Lemma foldl_min_attained (l : list Z) (a : Z) :
  foldl Z.min a l = a \/ foldl Z.min a l ∈ l.
Proof.
  revert a. induction l as [|x l IH]; intros a; simpl; [by left|].
  destruct (IH (Z.min a x)) as [Heq|Hin].
  - rewrite Heq. destruct (Z.min_spec a x) as [[_ ->]|[_ ->]];
      [by left|right; apply list_elem_of_here].
  - right. by apply list_elem_of_further.
Qed.

Lemma keys_of_seq {K V} `{EqDecision K} (l : list (K * V)) (k : K) :
  k ∈ (PyDict.of_seq l).*1 <-> k ∈ l.*1.
Proof.
  unfold PyDict.of_seq. induction l as [|[k' v'] l IH] using rev_ind.
  - done.
  - rewrite PyDictFacts.update_snoc, PyDictFacts.elem_keys_set, IH.
    rewrite fmap_app, elem_of_app. simpl. rewrite list_elem_of_singleton.
    tauto.
Qed.

Section TileFacts.
Context `{!Rasterio}.

(** X8: what [process_tiff_simple] returns.  It returns nothing exactly
    when the tile cannot be read or has no cell other than the nodata
    value.  Otherwise the dictionary has each coordinate of a valid cell
    once and no other key, every value in it is the elevation of a valid
    cell at that coordinate and is not the nodata value, and the minimum
    returned is the elevation of a valid cell and a lower bound of the
    elevation of every valid cell (so of every value of the dictionary). *)
Theorem process_tiff_simple_result tp bx by_ nodata :
  (process_tiff_simple tp bx by_ nodata = None <->
   read_raster tp bx by_ = None \/
   exists cells,
     read_raster tp bx by_ = Some cells /\
     forall c, c ∈ cells -> c.2 = nodata) /\
  (forall m coords,
      process_tiff_simple tp bx by_ nodata = Some (m, coords) ->
      exists cells,
        read_raster tp bx by_ = Some cells /\
        NoDup coords.*1 /\
        (forall k, k ∈ coords.*1 <->
                   exists v, (k, v) ∈ cells /\ v <> nodata) /\
        (forall k v, (k, v) ∈ coords ->
                     (k, v) ∈ cells /\ v <> nodata /\ m <= v) /\
        (exists k, (k, m) ∈ cells) /\ m <> nodata /\
        (forall k v, (k, v) ∈ cells -> v <> nodata -> m <= v)).
Proof.
  unfold process_tiff_simple.
  destruct (read_raster tp bx by_) as [cells|]; [|split; [split; auto|done]].
  set (valid := filter (fun c : Z * Z * Z => c.2 <> nodata) cells).
  assert (Hvalid : forall c, c ∈ valid <-> c ∈ cells /\ c.2 <> nodata).
  { intros c. unfold valid. rewrite list_elem_of_filter. tauto. }
  destruct valid as [|c rest] eqn:Hv.
  - split; [|done]. split; [|done]. intros _. right. exists cells.
    split; [done|]. intros c Hc.
    destruct (decide (c.2 = nodata)) as [|Hne]; [done|].
    assert (Hin : c ∈ @nil (Z * Z * Z)) by (by apply Hvalid).
    by apply elem_of_nil in Hin.
  - split.
    { split; [done|]. intros [?|(cells' & [= <-] & Hall)]; [done|].
      assert (Hc : c ∈ cells /\ c.2 <> nodata)
        by (apply Hvalid, list_elem_of_here).
      destruct Hc as [Hc Hne]. by apply Hall in Hc. }
    intros m coords [= <- <-]. exists cells. split; [done|].
    destruct (foldl_min_lower (rest.*2) c.2) as [Hle Hall].
    rewrite Forall_forall in Hall.
    assert (Hlow : forall k v, (k, v) ∈ c :: rest ->
                               foldl Z.min c.2 (rest.*2) <= v).
    { intros k v Hin. apply elem_of_cons in Hin as [<-|Hin]; [done|].
      apply Hall. apply list_elem_of_fmap. by exists (k, v). }
    split; [apply PyDictFacts.NoDup_of_seq|]. split.
    { intros k. rewrite keys_of_seq, list_elem_of_fmap. split.
      - intros ([k' v] & -> & Hin). exists v. by apply Hvalid in Hin.
      - intros (v & Hin & Hne). exists (k, v). split; [done|].
        by apply Hvalid. }
    split.
    { intros k v Hin. apply PyDictFacts.elem_of_update in Hin as [Hin|Hin];
        [by apply elem_of_nil in Hin|].
      pose proof (Hlow k v Hin) as Hm.
      apply Hvalid in Hin as [Hin Hne]. done. }
    assert (Hatt : foldl Z.min c.2 (rest.*2) ∈ (c :: rest).*2).
    { destruct (foldl_min_attained (rest.*2) c.2) as [->|Hin].
      - rewrite fmap_cons. apply list_elem_of_here.
      - rewrite fmap_cons. by apply list_elem_of_further. }
    apply list_elem_of_fmap in Hatt as ([k v] & Hm & Hin). simpl in Hm.
    apply Hvalid in Hin as [Hin Hne]. simpl in Hne.
    split; [exists k; by rewrite Hm|]. split; [by rewrite Hm|].
    intros k' v' Hin' Hne'. apply (Hlow k' v'). by apply Hvalid.
Qed.
End TileFacts.

Lemma process_tiff_simple_result_witness :
  (exists k, (k, 5) ∈ [((0, 0), 5); ((1, 0), 7); ((0, 0), 9);
                       ((600, -3), -9999)]) /\
  @process_tiff_simple ex_rasterio "c.tif" 0 0 nodata_default = None.
Proof.
  destruct (@process_tiff_simple_result ex_rasterio "a.tif" 0 0
              nodata_default) as [_ Hsome].
  destruct (Hsome 5 [((0, 0), 9); ((1, 0), 7)])
    as (cells & Hread & _ & _ & _ & Hmin & _); [reflexivity|].
  injection Hread as <-. split; [exact Hmin|].
  destruct (@process_tiff_simple_result ex_rasterio "c.tif" 0 0
              nodata_default) as [Hnone _].
  apply Hnone. by left.
Defined.

(** ** Stage 1: counts, files and cursors *)

Section Stage1More.
Context `{!Clock} `{!Rasterio}.

Lemma s1_step_counts pm crs st i tp :
  processed_count st <= processed_count (s1_step pm crs st (i, tp)) /\
  skipped_count st <= skipped_count (s1_step pm crs st (i, tp)) /\
  processed_count (s1_step pm crs st (i, tp))
  + skipped_count (s1_step pm crs st (i, tp))
  + Z.of_nat (length (errors (s1_step pm crs st (i, tp))))
  = processed_count st + skipped_count st
    + Z.of_nat (length (errors st)) + 1.
Proof.
  unfold s1_step.
  destruct (decide (_ ∈ files (disk st))); simpl; [lia|].
  destruct (reproject_raises tp _ crs); simpl.
  - rewrite length_app. simpl. lia.
  - destruct (elapsed_at_least _ _ _); simpl; lia.
Qed.

Lemma foldl_s1_step_counts pm crs items st :
  processed_count st <= processed_count (foldl (s1_step pm crs) st items) /\
  skipped_count st <= skipped_count (foldl (s1_step pm crs) st items) /\
  processed_count (foldl (s1_step pm crs) st items)
  + skipped_count (foldl (s1_step pm crs) st items)
  + Z.of_nat (length (errors (foldl (s1_step pm crs) st items)))
  = processed_count st + skipped_count st
    + Z.of_nat (length (errors st)) + Z.of_nat (length items).
Proof.
  revert st. induction items as [|[i tp] items IH]; intros st.
  - simpl. lia.
  - rewrite foldl_step.
    destruct (s1_step_counts pm crs st i tp) as (Hp & Hs & Hsum).
    destruct (IH (s1_step pm crs st (i, tp))) as (Hp' & Hs' & Hsum').
    cbn [length]. rewrite Nat2Z.inj_succ. lia.
Qed.

Lemma length_enumerate {A} (l : list A) (start : Z) :
  length (enumerate l start) = length l.
Proof.
  revert start. induction l as [|x l IH]; intros start; simpl; [done|].
  by rewrite IH.
Qed.

Lemma length_py_slice_from {A} (l : list A) (start : Z) :
  0 <= start ->
  Z.of_nat (length (py_slice_from l start))
  = Z.max 0 (Z.of_nat (length l) - start).
Proof.
  intros Hs. unfold py_slice_from, slice_index.
  rewrite bool_decide_eq_false_2 by lia. rewrite length_drop. lia.
Qed.

Lemma s1_state_counts pm crs ckpt tfs d :
  processed_count (s1 pm crs ckpt tfs d).2
    = processed_count (s1_loop pm crs ckpt tfs d) /\
  skipped_count (s1 pm crs ckpt tfs d).2
    = skipped_count (s1_loop pm crs ckpt tfs d) /\
  errors (s1 pm crs ckpt tfs d).2 = errors (s1_loop pm crs ckpt tfs d).
Proof.
  destruct tfs as [|tp tfs].
  - unfold s1_loop, py_slice_from. by rewrite drop_nil.
  - unfold s1, save_checkpoint.
    by cbn [snd processed_count skipped_count errors].
Qed.

(** X9: stage 1 accounts for every item of its loop exactly once: the
    files processed, those skipped because their output exists and those
    reported as errors add up to the number of items from the cursor on,
    which is the number of input files less the cursor when the cursor is
    not negative. *)
Theorem stage1_accounts_for_every_item pm crs ckpt tfs d :
  0 <= processed_count (s1 pm crs ckpt tfs d).2 /\
  0 <= skipped_count (s1 pm crs ckpt tfs d).2 /\
  processed_count (s1 pm crs ckpt tfs d).2
  + skipped_count (s1 pm crs ckpt tfs d).2
  + Z.of_nat (length (errors (s1 pm crs ckpt tfs d).2))
  = Z.of_nat
      (length (py_slice_from tfs (default 0 (ck_step1_progress ckpt)))) /\
  (0 <= default 0 (ck_step1_progress ckpt) ->
   processed_count (s1 pm crs ckpt tfs d).2
   + skipped_count (s1 pm crs ckpt tfs d).2
   + Z.of_nat (length (errors (s1 pm crs ckpt tfs d).2))
   = Z.max 0 (Z.of_nat (length tfs) - default 0 (ck_step1_progress ckpt))).
Proof.
  destruct (s1_state_counts pm crs ckpt tfs d) as (-> & -> & ->).
  unfold s1_loop.
  destruct (foldl_s1_step_counts pm crs
              (enumerate
                 (py_slice_from tfs (default 0 (ck_step1_progress ckpt)))
                 (default 0 (ck_step1_progress ckpt) + 1))
              (s1_init ckpt d)) as (Hp & Hs & Hsum).
  rewrite length_enumerate in Hsum. simpl in Hp, Hs, Hsum.
  split; [lia|]. split; [lia|]. split; [lia|].
  intros Hstart. rewrite <- length_py_slice_from by done. lia.
Qed.

(** *** The files of the reprojected directory *)






(** *** The cursors of the checkpoints written *)

Lemma foldl_s1_step_cursors pm crs tps start st :
  exists cs,
    ck_step1_progress
      <$> saved (disk (foldl (s1_step pm crs) st (enumerate tps start)))
    = (ck_step1_progress <$> saved (disk st)) ++ (Some <$> cs) /\
    StronglySorted Z.lt cs /\
    Forall (fun c => start <= c < start + Z.of_nat (length tps)) cs.
Proof.
  revert start st. induction tps as [|tp tps IH]; intros start st.
  - exists []. simpl. rewrite app_nil_r.
    split; [done|]. split; constructor.
  - cbn [enumerate]. rewrite foldl_step.
    destruct (IH (start + 1) (s1_step pm crs st (start, tp)))
      as (cs & Heq & Hsorted & Hbound).
    assert (Hbound' :
      Forall (fun c => start < c < start + Z.of_nat (length (tp :: tps)))
        cs).
    { eapply Forall_impl; [exact Hbound|]. intros c Hc.
      cbn beta in Hc. cbn [length]. lia. }
    destruct (s1_step_saved pm crs st start tp)
      as [Hsame|(doc & Hsnoc & Hp & _)].
    + exists cs. rewrite Heq, Hsame. split; [done|]. split; [done|].
      eapply Forall_impl; [exact Hbound'|]. intros c Hc. cbn beta in Hc. cbn [length] in *. lia.
    + exists (start :: cs). rewrite Heq, Hsnoc, fmap_app, <- app_assoc.
      simpl. rewrite Hp. split; [done|]. split.
      * constructor; [done|].
        eapply Forall_impl; [exact Hbound'|]. intros c Hc. cbn beta in Hc. cbn [length] in *. lia.
      * constructor; [lia|].
        eapply Forall_impl; [exact Hbound'|]. intros c Hc. cbn beta in Hc. cbn [length] in *. lia.
Qed.

Lemma s1_saved pm crs ckpt tfs d :
  tfs <> [] ->
  ck_step1_progress <$> saved (disk (s1 pm crs ckpt tfs d).2)
  = (ck_step1_progress <$> saved (disk (s1_loop pm crs ckpt tfs d)))
    ++ [Some (Z.of_nat (length tfs))].
Proof.
  intros Hne. destruct tfs as [|tp tfs]; [done|].
  unfold s1, save_checkpoint. cbn [snd disk saved].
  by rewrite fmap_app.
Qed.

(** X11: the checkpoints one run of stage 1 writes carry strictly
    increasing cursors, each one above the cursor the run started from and
    at most the number of input files, followed by one last checkpoint
    whose cursor is the number of input files: within a run the stored
    cursor never goes back. *)
Theorem stage1_cursors_increase pm crs ckpt tfs d :
  tfs <> [] ->
  exists cs,
    ck_step1_progress <$> saved (disk (s1 pm crs ckpt tfs d).2)
    = (ck_step1_progress <$> saved d)
      ++ (Some <$> cs ++ [Z.of_nat (length tfs)]) /\
    StronglySorted Z.lt cs /\
    Forall (fun c => default 0 (ck_step1_progress ckpt) < c
                     /\ c <= Z.of_nat (length tfs)) cs.
Proof.
  intros Hne. rewrite s1_saved by done. unfold s1_loop.
  destruct (foldl_s1_step_cursors pm crs
              (py_slice_from tfs (default 0 (ck_step1_progress ckpt)))
              (default 0 (ck_step1_progress ckpt) + 1) (s1_init ckpt d))
    as (cs & Heq & Hsorted & Hbound).
  exists cs. rewrite Heq, fmap_app, app_assoc. split; [done|].
  split; [done|].
  eapply Forall_impl; [exact Hbound|]. intros c Hc. simpl in Hc.
  unfold py_slice_from, slice_index in Hc. rewrite length_drop in Hc.
  case_bool_decide; lia.
Qed.

End Stage1More.

Lemma stage1_accounts_for_every_item_witness :
  processed_count
    (@s1 ex_clock ex_rasterio ex_pm "EPSG:6677" ex_config
       ["in/a.tif"; "in/b.tif"; "in/c.tif"] ex_disk).2
  + skipped_count
      (@s1 ex_clock ex_rasterio ex_pm "EPSG:6677" ex_config
         ["in/a.tif"; "in/b.tif"; "in/c.tif"] ex_disk).2
  + Z.of_nat
      (length
         (errors
            (@s1 ex_clock ex_rasterio ex_pm "EPSG:6677" ex_config
               ["in/a.tif"; "in/b.tif"; "in/c.tif"] ex_disk).2))
  = 3.
Proof.
  destruct (@stage1_accounts_for_every_item ex_clock ex_rasterio ex_pm
              "EPSG:6677" ex_config ["in/a.tif"; "in/b.tif"; "in/c.tif"]
              ex_disk) as (_ & _ & _ & Hsum).
  rewrite Hsum; [reflexivity|]. simpl. lia.
Defined.


Lemma stage1_cursors_increase_witness :
  exists cs,
    ck_step1_progress
      <$> saved
            (disk
               (@s1 ex_clock ex_rasterio ex_pm "EPSG:6677" ex_config
                  ["in/a.tif"; "in/b.tif"; "in/c.tif"] ex_disk).2)
    = (ck_step1_progress <$> saved ex_disk) ++ (Some <$> cs ++ [3]) /\
    StronglySorted Z.lt cs /\
    Forall (fun c => 0 < c /\ c <= 3) cs.
Proof.
  apply (@stage1_cursors_increase ex_clock ex_rasterio ex_pm "EPSG:6677"
           ex_config ["in/a.tif"; "in/b.tif"; "in/c.tif"] ex_disk).
  discriminate.
Defined.

(** ** Stage 2: what is written, and when *)

Lemma saved_paths_app es es' :
  saved_paths (es ++ es') = saved_paths es ++ saved_paths es'.
Proof. apply omap_app. Qed.

Section Stage2More.
Context `{!Clock} `{!Rasterio} `{!Anvil}.

Lemma batch_step_write_once me out dsm S0 es0 n0 st item :
  write_once out S0 (existing_mcas_set st) (es0 ++ events st)
    (n0 + mca_count st) ->
  write_once out S0 (existing_mcas_set (batch_step me out dsm st item))
    (es0 ++ events (batch_step me out dsm st item))
    (n0 + mca_count (batch_step me out dsm st item)).
Proof.
  intros (Hnd & Hpaths & Hset & Hn & Hsize).
  destruct item as [[rx rz] chunks].
  destruct (batch_step_cases me out dsm st rx rz chunks)
    as [[_ ->]|[(_ & _ & ->)|[(region & _ & _ & _ & ->)
                              |(region & Hnin & _ & _ & ->)]]].
  - done.
  - cbn [existing_mcas_set events mca_count]. unfold write_once.
    by rewrite app_assoc, saved_paths_app, app_nil_r.
  - cbn [existing_mcas_set events mca_count]. unfold write_once.
    by rewrite app_assoc, saved_paths_app, app_nil_r.
  - cbn [existing_mcas_set events mca_count]. unfold write_once.
    rewrite app_assoc, saved_paths_app.
    change (saved_paths [EvBuild rx rz me (Some region);
                         EvSave (path_join out (region_file_name rx rz))
                           region false])
      with [path_join out (region_file_name rx rz)].
    assert (Hnew : path_join out (region_file_name rx rz)
                     ∉ saved_paths (es0 ++ events st)).
    { intros Hin. destruct (Hpaths _ Hin) as (rx' & rz' & Heq & _).
      apply path_join_region_inj in Heq. apply Hnin. apply Hset. right.
      exists rx', rz'. split; [done|]. by rewrite Heq in Hin |- *. }
    split; [|split; [|split; [|split]]].
    + apply NoDup_app. split; [done|]. split; [|apply NoDup_singleton].
      intros p Hp Hp'. apply list_elem_of_singleton in Hp' as ->. done.
    + intros p Hp. apply elem_of_app in Hp as [Hp|Hp]; [by apply Hpaths|].
      apply list_elem_of_singleton in Hp as ->. exists rx, rz.
      split; [done|]. intros Hin. apply Hnin. apply Hset. by left.
    + intros name. rewrite elem_of_union, elem_of_singleton, Hset. split.
      * intros [->|[?|(rx' & rz' & -> & Hin)]]; [right|by left|right].
        -- exists rx, rz. split; [done|]. apply elem_of_app. right.
           apply list_elem_of_here.
        -- exists rx', rz'. split; [done|]. apply elem_of_app. by left.
      * intros [?|(rx' & rz' & -> & Hin)]; [by right; left|].
        apply elem_of_app in Hin as [Hin|Hin].
        -- right. right. by exists rx', rz'.
        -- apply list_elem_of_singleton in Hin.
           apply path_join_region_inj in Hin. by left.
    + rewrite length_app. simpl. lia.
    + rewrite size_union, size_singleton, length_app, Hsize; [simpl; lia|].
      apply disjoint_singleton_l. done.
Qed.

Lemma foldl_batch_step_write_once me out dsm S0 es0 n0 rd st :
  write_once out S0 (existing_mcas_set st) (es0 ++ events st)
    (n0 + mca_count st) ->
  write_once out S0
    (existing_mcas_set (foldl (batch_step me out dsm) st rd))
    (es0 ++ events (foldl (batch_step me out dsm) st rd))
    (n0 + mca_count (foldl (batch_step me out dsm) st rd)).
Proof.
  revert st. induction rd as [|item rd IH]; intros st Hst; [done|].
  rewrite foldl_step. apply IH. by apply batch_step_write_once.
Qed.

Lemma s2_step_write_once pm bx by_ bs me tfs S0 st batch_idx :
  write_once (output_dir pm) S0 (s2_existing_mcas_set st) (s2_events st)
    (total_mca_created st) ->
  write_once (output_dir pm) S0
    (s2_existing_mcas_set (s2_step pm bx by_ bs me tfs st batch_idx))
    (s2_events (s2_step pm bx by_ bs me tfs st batch_idx))
    (total_mca_created (s2_step pm bx by_ bs me tfs st batch_idx)).
Proof.
  intros Hst. unfold s2_step.
  set (r := match collect_batch bx by_ (batch_files_of tfs bs batch_idx)
            with
            | [] => mkBatchState 0 (s2_existing_mcas_set st) []
            | _ => _
            end).
  assert (Hr : write_once (output_dir pm) S0 (existing_mcas_set r)
                 (s2_events st ++ events r)
                 (total_mca_created st + mca_count r)).
  { unfold r. destruct (collect_batch _ _ _).
    - cbn [existing_mcas_set events mca_count].
      by rewrite app_nil_r, Z.add_0_r.
    - unfold generate_mca_batch. apply foldl_batch_step_write_once.
      cbn [existing_mcas_set events mca_count].
      by rewrite app_nil_r, Z.add_0_r. }
  by destruct (elapsed_at_least _ _ _).
Qed.

Lemma foldl_s2_step_write_once pm bx by_ bs me tfs S0 idxs st :
  write_once (output_dir pm) S0 (s2_existing_mcas_set st) (s2_events st)
    (total_mca_created st) ->
  write_once (output_dir pm) S0
    (s2_existing_mcas_set (foldl (s2_step pm bx by_ bs me tfs) st idxs))
    (s2_events (foldl (s2_step pm bx by_ bs me tfs) st idxs))
    (total_mca_created (foldl (s2_step pm bx by_ bs me tfs) st idxs)).
Proof.
  revert st. induction idxs as [|idx idxs IH]; intros st Hst; [done|].
  rewrite foldl_step. apply IH. by apply s2_step_write_once.
Qed.

(** the result of [s2] on a non-empty list of tiles and a batch size
    other than 0, in terms of the state its batch loop ends in *)
Lemma s2_result pm bx by_ bs ckpt tfs existing d :
  tfs <> [] -> bs <> 0 ->
  exists me data0 d0 sampled st,
    floor_phase tfs bx by_ ckpt d = (me, data0, d0, sampled) /\
    st = foldl (s2_step pm bx by_ bs me tfs)
           (mkS2State 0 (clock (ticks d0)) data0
              {| ticks := S (ticks d0);
                 checkpoint_doc := checkpoint_doc d0;
                 saved := saved d0; files := files d0 |}
              (list_to_set (basename <$> existing)) [] sampled)
           (seqZ (default 0 (ck_step2_batch ckpt))
              ((Z.of_nat (length tfs) + bs - 1) `div` bs
               - default 0 (ck_step2_batch ckpt))) /\
    s2 pm bx by_ bs ckpt tfs existing d
    = Some (true,
            mkS2State (total_mca_created st) (s2_last_checkpoint_time st)
              (set_timestamp (isoformat (clock (ticks (s2_disk st))))
                 (set_final_mca_count
                    (Z.of_nat (length (mca_files_after (output_dir pm))))
                    (set_step2_complete true (s2_checkpoint_data st))))
              {| ticks := S (ticks (s2_disk st));
                 checkpoint_doc :=
                   Some
                     (set_timestamp
                        (isoformat (clock (ticks (s2_disk st))))
                        (set_final_mca_count
                           (Z.of_nat (length (mca_files_after (output_dir pm))))
                           (set_step2_complete true
                              (s2_checkpoint_data st))));
                 saved :=
                   saved (s2_disk st)
                   ++ [set_timestamp
                         (isoformat (clock (ticks (s2_disk st))))
                         (set_final_mca_count
                            (Z.of_nat (length (mca_files_after (output_dir pm))))
                            (set_step2_complete true
                               (s2_checkpoint_data st)))];
                 files := files (s2_disk st) |}
              (s2_existing_mcas_set st) (s2_events st) (s2_sampled st)).
Proof.
  intros Hne Hbs. unfold s2. destruct tfs as [|tp tfs]; [done|].
  rewrite decide_False by done.
  destruct (floor_phase (tp :: tfs) bx by_ ckpt d)
    as [[[me data0] d0] sampled].
  exists me, data0, d0, sampled. eexists. split; [done|].
  split; [reflexivity|]. reflexivity.
Qed.

(** X12: within one run of stage 2 a region file is written at most once
    and never when its name was found in the output directory at the
    start, over all batches: no path is saved twice, every path saved is
    that of a region whose name was not in the initial skip-set, the
    count of files created is the number of paths saved, and the
    skip-set at the end is the initial one and the names saved, larger
    than the initial one by the number of files created.  (Nothing is
    said of the final count stored in the checkpoint, which comes from a
    second listing of the output directory.) *)
Theorem stage2_writes_each_region_once pm bx by_ bs ckpt tfs existing d
    ok st :
  s2 pm bx by_ bs ckpt tfs existing d = Some (ok, st) ->
  NoDup (saved_paths (s2_events st)) /\
  (forall p, p ∈ saved_paths (s2_events st) ->
     exists rx rz,
       p = path_join (output_dir pm) (region_file_name rx rz) /\
       region_file_name rx rz ∉@{gset string}
         list_to_set (basename <$> existing)) /\
  total_mca_created st = Z.of_nat (length (saved_paths (s2_events st))) /\
  (ok = true ->
   (forall name,
      name ∈ s2_existing_mcas_set st <->
      name ∈@{gset string} list_to_set (basename <$> existing) \/
      exists rx rz,
        name = region_file_name rx rz /\
        path_join (output_dir pm) name ∈ saved_paths (s2_events st)) /\
   size (s2_existing_mcas_set st)
   = (size (list_to_set (basename <$> existing) : gset string)
      + length (saved_paths (s2_events st)))%nat).
Proof.
  intros Hs2. destruct tfs as [|tp tfs].
  { injection Hs2 as <- <-. simpl. split; [constructor|].
    split; [intros p Hp; by apply elem_of_nil in Hp|]. split; [done|].
    intros [=]. }
  destruct (decide (bs = 0)) as [Hbs|Hbs].
  { unfold s2 in Hs2. by rewrite decide_True in Hs2. }
  destruct (s2_result pm bx by_ bs ckpt (tp :: tfs) existing d)
    as (me & data0 & d0 & sampled & st' & _ & Hst' & Heq); [done..|].
  rewrite Heq in Hs2. injection Hs2 as <- <-.
  cbn [s2_events total_mca_created s2_existing_mcas_set
       s2_checkpoint_data].
  destruct (foldl_s2_step_write_once pm bx by_ bs me (tp :: tfs)
              (list_to_set (basename <$> existing))
              (seqZ (default 0 (ck_step2_batch ckpt))
                 ((Z.of_nat (length (tp :: tfs)) + bs - 1) `div` bs
                  - default 0 (ck_step2_batch ckpt)))
              (mkS2State 0 (clock (ticks d0)) data0
                 {| ticks := S (ticks d0);
                    checkpoint_doc := checkpoint_doc d0;
                    saved := saved d0; files := files d0 |}
                 (list_to_set (basename <$> existing)) [] sampled))
    as (Hnd & Hpaths & Hset & Hn & Hsize).
  { cbn [s2_existing_mcas_set s2_events total_mca_created].
    split; [constructor|].
    split; [intros p Hp; by apply elem_of_nil in Hp|].
    split; [|split; [done|simpl; lia]].
    intros name. split; [by left|]. intros [?|(rx & rz & _ & Hin)]; [done|].
    by apply elem_of_nil in Hin. }
  rewrite <- Hst' in Hnd, Hpaths, Hset, Hn, Hsize.
  split; [done|]. split; [done|]. split; [done|]. intros _.
  split; done.
Qed.
End Stage2More.

Lemma stage2_writes_each_region_once_witness :
  match @s2 ex_clock ex_rasterio ex_anvil ex_pm 0 0 10 ex_config
          ["a.tif"; "b.tif"] [] ex_disk with
  | Some (_, st) =>
      NoDup (saved_paths (s2_events st)) /\
      total_mca_created st = Z.of_nat (length (saved_paths (s2_events st)))
  | None => False
  end.
Proof.
  destruct (@s2 ex_clock ex_rasterio ex_anvil ex_pm 0 0 10 ex_config
              ["a.tif"; "b.tif"] [] ex_disk) as [[ok st]|] eqn:Hs2.
  - destruct (@stage2_writes_each_region_once ex_clock ex_rasterio ex_anvil
                ex_pm 0 0 10 ex_config ["a.tif"; "b.tif"] [] ex_disk ok st
                Hs2) as (Hnd & _ & Hn & _).
    by split.
  - vm_compute in Hs2. discriminate.
Defined.

(** ** The batches of stage 2 *)

Lemma batch_files_of_take_drop (tfs : list string) (bs i : Z) :
  0 < bs -> 0 <= i ->
  batch_files_of tfs bs i
  = take (Z.to_nat bs) (drop (Z.to_nat (i * bs)) tfs).
Proof.
  intros Hbs Hi. unfold batch_files_of, py_slice, slice_index.
  rewrite !bool_decide_eq_false_2 by lia.
  destruct (decide (i * bs <= Z.of_nat (length tfs))) as [Hle|Hgt].
  - rewrite (Z.min_l (i * bs)) by lia.
    destruct (decide (i * bs + bs <= Z.of_nat (length tfs))) as [Hle'|Hgt'].
    + rewrite !Z.min_l by lia. f_equal. lia.
    + rewrite (Z.min_r (i * bs + bs)) by lia. rewrite Z.min_id.
      rewrite !take_ge; [done|rewrite length_drop; lia..].
  - rewrite !drop_ge by lia. by rewrite !take_nil.
Qed.

Lemma concat_take_drop {A} (l : list A) (b c n : nat) :
  concat ((fun i => take b (drop (i * b) l)) <$> seq c n)
  = take (n * b) (drop (c * b) l).
Proof.
  revert c. induction n as [|n IH]; intros c; [done|].
  cbn [seq fmap list_fmap concat]. rewrite IH.
  replace (S c * b)%nat with (c * b + b)%nat by lia.
  by rewrite <- drop_drop, take_take_drop.
Qed.

Lemma batches_from (tfs : list string) (bs c n : Z) :
  0 < bs -> 0 <= c ->
  concat (batch_files_of tfs bs <$> seqZ c n)
  = take (Z.to_nat n * Z.to_nat bs)
      (drop (Z.to_nat c * Z.to_nat bs) tfs).
Proof.
  intros Hbs Hc. rewrite <- concat_take_drop. f_equal.
  unfold seqZ.
  replace (seq (Z.to_nat c) (Z.to_nat n))
    with (Nat.add (Z.to_nat c) <$> seq 0 (Z.to_nat n))
    by (rewrite fmap_add_seq; f_equal; lia).
  rewrite <- !list_fmap_compose. apply list_fmap_ext.
  intros _ i _. simpl.
  rewrite batch_files_of_take_drop by lia. do 2 f_equal. nia.
Qed.

Lemma batches_cover (n bs : Z) :
  0 < bs -> n <= (n + bs - 1) `div` bs * bs.
Proof.
  intros Hbs.
  pose proof (Z.div_mod (n + bs - 1) bs) as Hdm.
  pose proof (Z.mod_pos_bound (n + bs - 1) bs Hbs) as Hmod. lia.
Qed.

(** X13: the batches of stage 2 cut the list of tiles into consecutive
    pieces.  For a positive batch size and a cursor c that is not
    negative, the batches from c up to the total number of batches, one
    after the other, are exactly the tiles from position c * bs on: no
    tile of that range is left out, read by two batches or read out of
    order; and no batch holds more than bs tiles. *)
Theorem batches_partition_tiles (tfs : list string) (bs c : Z) :
  0 < bs -> 0 <= c ->
  concat
    (batch_files_of tfs bs
       <$> seqZ c ((Z.of_nat (length tfs) + bs - 1) `div` bs - c))
  = py_slice_from tfs (c * bs) /\
  forall i,
    0 <= i -> Z.of_nat (length (batch_files_of tfs bs i)) <= bs.
Proof.
  intros Hbs Hc. split.
  - rewrite batches_from by done.
    pose proof (batches_cover (Z.of_nat (length tfs)) bs Hbs) as Hcover.
    set (q := (Z.of_nat (length tfs) + bs - 1) `div` bs) in *.
    unfold py_slice_from, slice_index.
    rewrite bool_decide_eq_false_2 by lia.
    destruct (decide (c * bs <= Z.of_nat (length tfs))) as [Hle|Hgt].
    + rewrite Z.min_l by lia.
      replace (Z.to_nat (c * bs)) with (Z.to_nat c * Z.to_nat bs)%nat
        by nia.
      apply take_ge. rewrite length_drop. nia.
    + rewrite Z.min_r by lia. rewrite Nat2Z.id.
      rewrite !drop_ge; [by rewrite take_nil|lia|nia].
  - intros i Hi. rewrite batch_files_of_take_drop by done.
    rewrite length_take. lia.
Qed.

Lemma batches_partition_tiles_witness :
  concat
    (batch_files_of ["a.tif"; "b.tif"; "c.tif"; "d.tif"; "e.tif"] 2
       <$> seqZ 1 ((5 + 2 - 1) `div` 2 - 1))
  = ["c.tif"; "d.tif"; "e.tif"].
Proof.
  destruct (batches_partition_tiles
              ["a.tif"; "b.tif"; "c.tif"; "d.tif"; "e.tif"] 2 1)
    as [Hcat _]; [lia..|].
  exact Hcat.
Defined.

(** ** Stage 2: the outcome, and a batch size below 0 *)

Lemma batch_files_of_negative (tfs : list string) (bs idx : Z) :
  bs < 0 -> 0 <= idx ->
  idx < (Z.of_nat (length tfs) + bs - 1) `div` bs ->
  batch_files_of tfs bs idx = [].
Proof.
  intros Hbs Hidx Hlt.
  pose proof (Z.div_mod (Z.of_nat (length tfs) + bs - 1) bs) as Hdm.
  pose proof (Z.mod_neg_bound (Z.of_nat (length tfs) + bs - 1) bs Hbs)
    as Hmod.
  set (q := (Z.of_nat (length tfs) + bs - 1) `div` bs) in *.
  assert (Hn : Z.of_nat (length tfs) <= 1) by nia.
  unfold batch_files_of, py_slice, slice_index.
  assert (Hs : idx * bs <= 0) by nia.
  set (s := idx * bs) in *.
  replace (_ - _)%nat with 0%nat; [done|].
  repeat case_bool_decide; lia.
Qed.

Section Stage2Outcome.
Context `{!Clock} `{!Rasterio} `{!Anvil}.

Lemma s2_step_no_files pm bx by_ bs me tfs st batch_idx :
  batch_files_of tfs bs batch_idx = [] ->
  total_mca_created (s2_step pm bx by_ bs me tfs st batch_idx)
    = total_mca_created st /\
  s2_existing_mcas_set (s2_step pm bx by_ bs me tfs st batch_idx)
    = s2_existing_mcas_set st /\
  s2_events (s2_step pm bx by_ bs me tfs st batch_idx) = s2_events st.
Proof.
  intros Hfiles. unfold s2_step. rewrite Hfiles.
  change (collect_batch bx by_ []) with (@nil ((Z * Z) * Z)).
  cbv iota.
  destruct (elapsed_at_least _ _ _); simpl;
    (split; [lia|]; split; [done|]; by rewrite app_nil_r).
Qed.

Lemma foldl_s2_step_no_files pm bx by_ bs me tfs idxs st :
  (forall idx, idx ∈ idxs -> batch_files_of tfs bs idx = []) ->
  total_mca_created (foldl (s2_step pm bx by_ bs me tfs) st idxs)
    = total_mca_created st /\
  s2_existing_mcas_set (foldl (s2_step pm bx by_ bs me tfs) st idxs)
    = s2_existing_mcas_set st /\
  s2_events (foldl (s2_step pm bx by_ bs me tfs) st idxs) = s2_events st.
Proof.
  revert st. induction idxs as [|idx idxs IH]; intros st Hall; [done|].
  rewrite foldl_step.
  destruct (s2_step_no_files pm bx by_ bs me tfs st idx) as (Ht & Hs & He).
  { apply Hall. apply list_elem_of_here. }
  destruct (IH (s2_step pm bx by_ bs me tfs st idx)) as (Ht' & Hs' & He').
  { intros idx' Hin. apply Hall. by apply list_elem_of_further. }
  by rewrite Ht', Hs', He'.
Qed.

(** X14: the outcome of stage 2 does not depend on what happens to the
    tiles.  With at least one tile and a batch size other than 0 the
    stage returns success and its last checkpoint, the one on disk when
    it returns, marks the step complete, whichever tiles cannot be read
    and whichever builds or saves raise.  The batch size is not checked:
    with a batch size below 0 (and a cursor that is not negative) the
    stage still returns success and marks the step complete, having
    handed nothing to the emission and created no file. *)
Theorem stage2_outcome pm bx by_ bs ckpt tfs existing d :
  tfs <> [] -> bs <> 0 ->
  exists st,
    s2 pm bx by_ bs ckpt tfs existing d = Some (true, st) /\
    ck_step2_complete (s2_checkpoint_data st) = Some true /\
    checkpoint_doc (s2_disk st) = Some (s2_checkpoint_data st) /\
    last (saved (s2_disk st)) = Some (s2_checkpoint_data st) /\
    (bs < 0 -> 0 <= default 0 (ck_step2_batch ckpt) ->
     s2_events st = [] /\ total_mca_created st = 0 /\
     s2_existing_mcas_set st = list_to_set (basename <$> existing)).
Proof.
  intros Hne Hbs.
  destruct (s2_result pm bx by_ bs ckpt tfs existing d)
    as (me & data0 & d0 & sampled & st' & _ & Hst' & Heq); [done..|].
  eexists. split; [exact Heq|].
  cbn [s2_checkpoint_data s2_disk checkpoint_doc saved s2_events
       total_mca_created s2_existing_mcas_set].
  split; [done|]. split; [done|]. split; [by rewrite last_snoc|].
  intros Hneg Hstart. rewrite Hst'.
  edestruct (foldl_s2_step_no_files pm bx by_ bs me tfs)
    as (Ht & Hs & He); [|rewrite Ht, Hs, He; done].
  intros idx Hidx. apply elem_of_seqZ in Hidx.
  apply batch_files_of_negative; lia.
Qed.
End Stage2Outcome.

Lemma stage2_outcome_witness :
  exists st,
    @s2 ex_clock ex_rasterio ex_anvil ex_pm 0 0 (-2) ex_config
      ["a.tif"; "b.tif"] [] ex_disk = Some (true, st) /\
    ck_step2_complete (s2_checkpoint_data st) = Some true /\
    s2_events st = [] /\ total_mca_created st = 0.
Proof.
  destruct (@stage2_outcome ex_clock ex_rasterio ex_anvil ex_pm 0 0 (-2)
              ex_config ["a.tif"; "b.tif"] [] ex_disk)
    as (st & Hs2 & Hdone & _ & _ & Hnone); [discriminate|lia|].
  destruct Hnone as (Hev & Hn & _); [lia|simpl; lia|].
  by exists st.
Defined.

(** ** The step a checkpoint names *)

Section CurrentStep.
Context `{!Clock} `{!Rasterio} `{!Anvil} `{!Prompt}.

Lemma s1_step_current_step pm crs (d : Disk) v st item :
  (ck_current_step (checkpoint_data st) = v \/
   ck_current_step (checkpoint_data st) = Some "project") ->
  (forall doc, doc ∈ saved (disk st) ->
     doc ∈ saved d \/ ck_current_step doc = v \/
     ck_current_step doc = Some "project") ->
  (ck_current_step (checkpoint_data (s1_step pm crs st item)) = v \/
   ck_current_step (checkpoint_data (s1_step pm crs st item))
   = Some "project") /\
  (forall doc, doc ∈ saved (disk (s1_step pm crs st item)) ->
     doc ∈ saved d \/ ck_current_step doc = v \/
     ck_current_step doc = Some "project").
Proof.
  intros Hdata Hdocs. destruct item as [i tp]. unfold s1_step.
  destruct (decide (_ ∈ files (disk st))); [done|].
  destruct (reproject_raises tp _ crs); [done|].
  destruct (elapsed_at_least _ _ _); [|done].
  cbn [save_checkpoint checkpoint_data disk saved].
  split; [by right|]. intros doc Hdoc.
  apply elem_of_app in Hdoc as [Hdoc|Hdoc]; [by apply Hdocs|].
  apply list_elem_of_singleton in Hdoc as ->. right. by right.
Qed.

Lemma foldl_s1_step_current_step pm crs (d : Disk) v items st :
  (ck_current_step (checkpoint_data st) = v \/
   ck_current_step (checkpoint_data st) = Some "project") ->
  (forall doc, doc ∈ saved (disk st) ->
     doc ∈ saved d \/ ck_current_step doc = v \/
     ck_current_step doc = Some "project") ->
  (ck_current_step (checkpoint_data (foldl (s1_step pm crs) st items)) = v \/
   ck_current_step (checkpoint_data (foldl (s1_step pm crs) st items))
   = Some "project") /\
  (forall doc, doc ∈ saved (disk (foldl (s1_step pm crs) st items)) ->
     doc ∈ saved d \/ ck_current_step doc = v \/
     ck_current_step doc = Some "project").
Proof.
  revert st. induction items as [|item items IH]; intros st Hdata Hdocs;
    [done|].
  rewrite foldl_step.
  destruct (s1_step_current_step pm crs d v st item Hdata Hdocs)
    as [Hdata' Hdocs'].
  by apply IH.
Qed.

Lemma s1_current_step pm crs ckpt tfs d doc :
  doc ∈ saved (disk (s1 pm crs ckpt tfs d).2) ->
  doc ∈ saved d \/ ck_current_step doc = ck_current_step ckpt \/
  ck_current_step doc = Some "project".
Proof.
  destruct tfs as [|tp tfs]; [by left|].
  destruct (foldl_s1_step_current_step pm crs d (ck_current_step ckpt)
              (enumerate
                 (py_slice_from (tp :: tfs)
                    (default 0 (ck_step1_progress ckpt)))
                 (default 0 (ck_step1_progress ckpt) + 1))
              (s1_init ckpt d)) as [Hdata Hdocs]; [by left|by left|].
  unfold s1, save_checkpoint. fold (s1_loop pm crs ckpt (tp :: tfs) d).
  unfold s1_loop. cbn [snd disk saved]. intros Hdoc.
  apply elem_of_app in Hdoc as [Hdoc|Hdoc]; [by apply Hdocs|].
  apply list_elem_of_singleton in Hdoc as ->. right. exact Hdata.
Qed.

Lemma s2_step_current_step pm bx by_ bs me tfs (d : Disk) v st batch_idx :
  ck_current_step (s2_checkpoint_data st) = v ->
  (forall doc, doc ∈ saved (s2_disk st) ->
     doc ∈ saved d \/ ck_current_step doc = v) ->
  ck_current_step
    (s2_checkpoint_data (s2_step pm bx by_ bs me tfs st batch_idx)) = v /\
  (forall doc,
     doc ∈ saved (s2_disk (s2_step pm bx by_ bs me tfs st batch_idx)) ->
     doc ∈ saved d \/ ck_current_step doc = v).
Proof.
  intros Hdata Hdocs. unfold s2_step.
  set (r := match collect_batch bx by_ (batch_files_of tfs bs batch_idx)
            with
            | [] => mkBatchState 0 (s2_existing_mcas_set st) []
            | _ => _
            end).
  destruct (elapsed_at_least _ _ _); [|done].
  cbn [save_checkpoint s2_checkpoint_data s2_disk saved].
  split; [done|]. intros doc Hdoc.
  apply elem_of_app in Hdoc as [Hdoc|Hdoc]; [by apply Hdocs|].
  apply list_elem_of_singleton in Hdoc as ->. by right.
Qed.

Lemma foldl_s2_step_current_step pm bx by_ bs me tfs (d : Disk) v idxs st :
  ck_current_step (s2_checkpoint_data st) = v ->
  (forall doc, doc ∈ saved (s2_disk st) ->
     doc ∈ saved d \/ ck_current_step doc = v) ->
  ck_current_step
    (s2_checkpoint_data (foldl (s2_step pm bx by_ bs me tfs) st idxs)) = v /\
  (forall doc,
     doc ∈ saved (s2_disk (foldl (s2_step pm bx by_ bs me tfs) st idxs)) ->
     doc ∈ saved d \/ ck_current_step doc = v).
Proof.
  revert st. induction idxs as [|idx idxs IH]; intros st Hdata Hdocs;
    [done|].
  rewrite foldl_step.
  destruct (s2_step_current_step pm bx by_ bs me tfs d v st idx Hdata Hdocs)
    as [Hdata' Hdocs'].
  by apply IH.
Qed.

Lemma floor_phase_current_step tfs bx by_ ckpt d me data0 d0 sampled :
  floor_phase tfs bx by_ ckpt d = (me, data0, d0, sampled) ->
  ck_current_step data0 = ck_current_step ckpt /\
  (forall doc, doc ∈ saved d0 ->
     doc ∈ saved d \/ ck_current_step doc = ck_current_step ckpt).
Proof.
  unfold floor_phase. destruct (ck_min_elevation ckpt) as [v|].
  - intros [= _ <- <- _]. split; [done|]. intros doc Hdoc. by left.
  - unfold save_checkpoint. intros [= _ <- <- _]. split; [done|].
    cbn [saved]. intros doc Hdoc.
    apply elem_of_app in Hdoc as [Hdoc|Hdoc]; [by left|].
    apply list_elem_of_singleton in Hdoc as ->. by right.
Qed.

Lemma s2_current_step pm bx by_ bs ckpt tfs existing d ok st doc :
  s2 pm bx by_ bs ckpt tfs existing d = Some (ok, st) ->
  doc ∈ saved (s2_disk st) ->
  doc ∈ saved d \/ ck_current_step doc = ck_current_step ckpt.
Proof.
  intros Hs2. destruct tfs as [|tp tfs].
  { injection Hs2 as <- <-. by left. }
  destruct (decide (bs = 0)) as [Hbs|Hbs].
  { unfold s2 in Hs2. by rewrite decide_True in Hs2. }
  destruct (s2_result pm bx by_ bs ckpt (tp :: tfs) existing d)
    as (me & data0 & d0 & sampled & st' & Hfloor & Hst' & Heq); [done..|].
  rewrite Heq in Hs2. injection Hs2 as <- <-.
  destruct (floor_phase_current_step _ _ _ _ _ _ _ _ _ Hfloor)
    as [Hdata0 Hdocs0].
  destruct (foldl_s2_step_current_step pm bx by_ bs me (tp :: tfs) d
              (ck_current_step ckpt)
              (seqZ (default 0 (ck_step2_batch ckpt))
                 ((Z.of_nat (length (tp :: tfs)) + bs - 1) `div` bs
                  - default 0 (ck_step2_batch ckpt)))
              (mkS2State 0 (clock (ticks d0)) data0
                 {| ticks := S (ticks d0);
                    checkpoint_doc := checkpoint_doc d0;
                    saved := saved d0; files := files d0 |}
                 (list_to_set (basename <$> existing)) [] sampled))
    as [Hdata Hdocs]; [done|done|].
  rewrite <- Hst' in Hdata, Hdocs.
  cbn [s2_disk saved]. intros Hdoc.
  apply elem_of_app in Hdoc as [Hdoc|Hdoc]; [by apply Hdocs|].
  apply list_elem_of_singleton in Hdoc as ->. by right.
Qed.

(** X15: the step a checkpoint names is only ever ["project"].  A
    checkpoint written by stage 1 names the step the run was given or
    ["project"]; a checkpoint written by stage 2 names the step the run
    was given: stage 2 never sets it.  And when the project selected for
    resuming has a checkpoint that names no step, or a step other than
    ["project"] and ["generate"], the Resume branch returns without
    running a stage, whatever else the listing holds.  So a project
    created in the generate mode, whose configuration names no step, is
    never resumed. *)
Theorem current_step_is_only_project pm :
  (forall crs ckpt tfs d doc,
      doc ∈ saved (disk (s1 pm crs ckpt tfs d).2) ->
      doc ∈ saved d \/ ck_current_step doc = ck_current_step ckpt \/
      ck_current_step doc = Some "project") /\
  (forall bx by_ bs ckpt tfs existing d ok st doc,
      s2 pm bx by_ bs ckpt tfs existing d = Some (ok, st) ->
      doc ∈ saved (s2_disk st) ->
      doc ∈ saved d \/ ck_current_step doc = ck_current_step ckpt) /\
  (forall listing inp d pm' data msgs,
      resume_project listing = (ResumeProject pm' data, msgs) ->
      ck_current_step data <> Some "project" ->
      ck_current_step data <> Some "generate" ->
      run_resume listing inp d = (MainReturned, msgs)).
Proof.
  split; [apply s1_current_step|]. split; [apply s2_current_step|].
  intros listing inp d pm' data msgs Hres Hproject Hgenerate.
  unfold run_resume. rewrite Hres.
  destruct (ck_current_step data) as [step|]; [|done].
  destruct (String.eqb_spec step "project") as [->|_]; [done|].
  destruct (String.eqb_spec step "generate") as [->|_]; done.
Qed.
End CurrentStep.

Lemma current_step_is_only_project_witness :
  @run_resume ex_clock ex_rasterio ex_anvil ex_prompt
    [("p", Directory (Document ex_config));
     ("q", Directory (Document (set_current_step "project" ex_config)))]
    (mkInputs ["in/b.tif"] ["a.tif"] []) ex_disk
  = (MainReturned, [MsgResuming "p"; MsgResumeStep "unknown"]).
Proof.
  destruct (@current_step_is_only_project ex_clock ex_rasterio ex_anvil
              ex_prompt ex_pm) as (_ & _ & Hresume).
  apply (Hresume _ _ _ (new_ProjectManager "p") ex_config).
  - reflexivity.
  - discriminate.
  - discriminate.
Defined.

(** ** The driver: when the checkpoint is deleted *)

Section DriverFacts.
Context `{!Clock} `{!Rasterio} `{!Anvil} `{!Prompt}.

Lemma s1_outcome pm crs ckpt tfs d :
  ((s1 pm crs ckpt tfs d).1 = false /\ tfs = [] /\
   disk (s1 pm crs ckpt tfs d).2 = d) \/
  ((s1 pm crs ckpt tfs d).1 = true /\ tfs <> [] /\
   checkpoint_doc (disk (s1 pm crs ckpt tfs d).2) <> None).
Proof.
  destruct tfs as [|tp tfs]; [by left|]. right.
  destruct (s1_nonempty pm crs ckpt (tp :: tfs) d) as (Hok & Hdoc & _);
    [done|].
  split; [done|]. split; [done|]. by rewrite Hdoc.
Qed.

Lemma run_s2_outcome pm ckpt inp d ok d' :
  run_s2 pm ckpt inp d = Some (ok, d') ->
  (ok = false /\ in_projected_tifs inp = [] /\ d' = d) \/
  (ok = true /\ in_projected_tifs inp <> [] /\ checkpoint_doc d' <> None).
Proof.
  unfold run_s2.
  destruct (ck_bx ckpt) as [bx|]; [|done].
  destruct (ck_by ckpt) as [by_|]; [|done].
  destruct (ck_bs ckpt) as [bs|]; [|done].
  destruct (in_projected_tifs inp) as [|tp tfs] eqn:Htfs.
  { intros [= <- <-]. by left. }
  destruct (decide (bs = 0)) as [Hbs|Hbs].
  { unfold s2. by rewrite decide_True. }
  destruct (s2_result pm bx by_ bs ckpt (tp :: tfs) (in_existing_mcas inp)
              d) as (me & data0 & d0 & sampled & st & _ & _ & Heq);
    [done..|].
  rewrite Heq. intros [= <- <-]. right. done.
Qed.

Lemma finish_outcome ok d ok' d' :
  finish ok d = MainRan ok' d' ->
  ok' = ok /\
  (ok = true -> checkpoint_doc d' = None) /\
  (ok = false -> d' = d).
Proof.
  unfold finish. intros [= <- <-]. split; [done|].
  split; [by intros ->|by intros ->].
Qed.

(** X16: the driver deletes the checkpoint exactly when the stages
    succeed.  When a new run ends with success no checkpoint document is
    left, so the project is not offered for resuming; when it ends with
    failure a stage found no tiles, and a checkpoint that was on disk is
    still there.  A resumed run that ends with success leaves no
    checkpoint document either. *)
Theorem driver_deletes_checkpoint_on_success ms pm cfg inp d :
  (forall ok d',
      run_new ms pm cfg inp d = MainRan ok d' ->
      (ok = true -> checkpoint_doc d' = None) /\
      (ok = false ->
       (in_input_tifs inp = [] \/ in_projected_tifs inp = []) /\
       (checkpoint_doc d <> None -> checkpoint_doc d' <> None))) /\
  (forall listing d',
      (run_resume listing inp d).1 = MainRan true d' ->
      checkpoint_doc d' = None).
Proof.
  split.
  - intros ok d'. unfold run_new.
    destruct (String.eqb ms "project").
    { destruct (ck_crs cfg) as [crs|]; [|done].
      destruct (s1_outcome pm crs cfg (in_input_tifs inp) d)
        as [(Hok & Htfs & Hd)|(Hok & Htfs & Hdoc)];
        destruct (s1 pm crs cfg (in_input_tifs inp) d) as [ok1 st1];
        simpl in *; subst ok1; intros Hfin;
        apply finish_outcome in Hfin as (-> & Ht & Hf).
      - split; [done|]. intros _. split; [by left|].
        by rewrite (Hf eq_refl), Hd.
      - split; [done|]. done. }
    destruct (String.eqb ms "generate").
    { destruct (run_s2 pm cfg inp d) as [[ok2 d2]|] eqn:Hs2; [|done].
      intros Hfin. apply finish_outcome in Hfin as (-> & Ht & Hf).
      apply run_s2_outcome in Hs2 as [(-> & Htfs & ->)|(-> & _ & _)].
      - split; [done|]. intros _. split; [by right|].
        by rewrite (Hf eq_refl).
      - split; [done|]. done. }
    destruct (String.eqb ms "all"); [|done].
    destruct (ck_crs cfg) as [crs|]; [|done].
    destruct (s1_outcome pm crs cfg (in_input_tifs inp) d)
      as [(Hok & Htfs & Hd)|(Hok & Htfs & Hdoc)];
      destruct (s1 pm crs cfg (in_input_tifs inp) d) as [ok1 st1];
      simpl in *; subst ok1.
    + intros Hfin. apply finish_outcome in Hfin as (-> & Ht & Hf).
      split; [done|]. intros _. split; [by left|].
      by rewrite (Hf eq_refl), Hd.
    + destruct (run_s2 pm (checkpoint_data st1) inp (disk st1))
        as [[ok2 d2]|] eqn:Hs2; [|done].
      intros Hfin. apply finish_outcome in Hfin as (-> & Ht & Hf).
      apply run_s2_outcome in Hs2 as [(-> & Htfs2 & ->)|(-> & _ & _)].
      * split; [done|]. intros _. split; [by right|].
        by rewrite (Hf eq_refl).
      * split; [done|]. done.
  - intros listing d'. unfold run_resume.
    destruct (resume_project listing) as [[|pm' ckpt|] msgs]; [done| |done].
    cbn [fst].
    destruct (ck_current_step ckpt) as [step|]; [|done].
    destruct (String.eqb step "project").
    { destruct (ck_crs ckpt) as [crs|]; [|done].
      destruct (s1 pm' crs ckpt (in_input_tifs inp) d) as [ok1 st1].
      destruct ok1.
      - destruct (ck_mode (checkpoint_data st1)) as [mode|]; [|done].
        destruct (String.eqb mode "all" || String.eqb mode "All").
        + destruct (run_s2 pm' (checkpoint_data st1) inp (disk st1))
            as [[ok2 d2]|]; [|done].
          intros Hfin. apply finish_outcome in Hfin as (<- & Ht & _).
          by apply Ht.
        + intros Hfin. apply finish_outcome in Hfin as (_ & Ht & _).
          by apply Ht.
      - intros Hfin. by apply finish_outcome in Hfin as ([=] & _). }
    destruct (String.eqb step "generate"); [|done].
    destruct (run_s2 pm' ckpt inp d) as [[ok2 d2]|]; [|done].
    intros Hfin. apply finish_outcome in Hfin as (<- & Ht & _).
    by apply Ht.
Qed.
End DriverFacts.

Lemma driver_deletes_checkpoint_on_success_witness :
  match @run_new ex_clock ex_rasterio ex_anvil "project" ex_pm ex_config
          (mkInputs ["in/a.tif"; "in/b.tif"] [] []) ex_disk with
  | MainRan true d' => checkpoint_doc d' = None
  | _ => False
  end.
Proof.
  destruct (@driver_deletes_checkpoint_on_success ex_clock ex_rasterio
              ex_anvil ex_prompt "project" ex_pm ex_config
              (mkInputs ["in/a.tif"; "in/b.tif"] [] []) ex_disk)
    as [Hnew _].
  destruct (@run_new ex_clock ex_rasterio ex_anvil "project" ex_pm
              ex_config (mkInputs ["in/a.tif"; "in/b.tif"] [] []) ex_disk)
    as [|ok d'|] eqn:Hrun.
  - vm_compute in Hrun. discriminate.
  - destruct ok.
    + destruct (Hnew true d' eq_refl) as [Hdel _]. by apply Hdel.
    + vm_compute in Hrun. discriminate.
  - vm_compute in Hrun. discriminate.
Defined.

(** ** Stage 2: the floor of a fresh run *)

Lemma sample_tiles_take (tfs : list string) :
  sample_tiles tfs = take 100 tfs.
Proof.
  unfold sample_tiles, py_slice_to, slice_index.
  rewrite bool_decide_eq_false_2 by lia.
  destruct (decide (length tfs <= 100)%nat) as [Hle|Hgt].
  - rewrite !take_ge; [done|lia..].
  - f_equal. lia.
Qed.

Section FreshFloor.
Context `{!Clock} `{!Rasterio} `{!Anvil}.

(** X17: the floor of a run that finds none stored.  Stage 2 then reads
    the first 100 tiles (all of them when there are fewer), and the floor
    it stores and hands to every build of the run is the least of 0 and
    the minima of the tiles read that have a valid cell: it is at most 0,
    at most the minimum of each such tile, and is 0 or the minimum of one
    of them.  Tiles after the first 100 have no part in it. *)
Theorem fresh_floor_is_least_sampled pm bx by_ bs ckpt tfs existing d :
  ck_min_elevation ckpt = None -> tfs <> [] -> bs <> 0 ->
  exists st me,
    s2 pm bx by_ bs ckpt tfs existing d = Some (true, st) /\
    ck_min_elevation (s2_checkpoint_data st) = Some me /\
    s2_sampled st = take 100 tfs /\
    me <= 0 /\
    (forall tp m coords,
        tp ∈ take 100 tfs ->
        process_tiff_simple tp bx by_ nodata_default = Some (m, coords) ->
        me <= m) /\
    (me = 0 \/
     exists tp coords,
       tp ∈ take 100 tfs /\
       process_tiff_simple tp bx by_ nodata_default = Some (me, coords)) /\
    Forall (floor_is me) (s2_events st).
Proof.
  intros Hv Hne Hbs.
  destruct (s2_result pm bx by_ bs ckpt tfs existing d)
    as (me & data0 & d0 & sampled & st' & Hfloor & Hst' & Heq); [done..|].
  unfold floor_phase in Hfloor. rewrite Hv in Hfloor.
  unfold save_checkpoint in Hfloor. injection Hfloor as Hme Hdata0 Hd0 Hs.
  destruct (foldl_s2_step_floor pm bx by_ bs me tfs
              (seqZ (default 0 (ck_step2_batch ckpt))
                 ((Z.of_nat (length tfs) + bs - 1) `div` bs
                  - default 0 (ck_step2_batch ckpt)))
              (mkS2State 0 (clock (ticks d0)) data0
                 {| ticks := S (ticks d0);
                    checkpoint_doc := checkpoint_doc d0;
                    saved := saved d0; files := files d0 |}
                 (list_to_set (basename <$> existing)) [] sampled))
    as (Hsampled & Hfl & Hev & _).
  { rewrite <- Hdata0. simpl. by rewrite Hme. }
  { constructor. }
  rewrite <- Hst' in Hsampled, Hfl, Hev.
  eexists. exists me. split; [exact Heq|].
  cbn [s2_checkpoint_data s2_sampled s2_events].
  split; [exact Hfl|].
  split; [by rewrite Hsampled; simpl; rewrite <- Hs, sample_tiles_take|].
  set (minima :=
         omap (fun tp =>
                 fst <$> process_tiff_simple tp bx by_ nodata_default)
           (take 100 tfs)).
  assert (Hmin : me = foldl Z.min 0 minima).
  { rewrite <- Hme, estimate_floor_minima. unfold sampled_minima.
    fold (sample_tiles tfs). by rewrite sample_tiles_take. }
  destruct (foldl_min_lower minima 0) as [Hle Hlower].
  rewrite <- Hmin in Hle, Hlower.
  split; [done|]. split; [|split].
  - intros tp m coords Htp Hp. rewrite Forall_forall in Hlower.
    apply Hlower. apply list_elem_of_omap. exists tp. split; [done|].
    by rewrite Hp.
  - destruct (foldl_min_attained minima 0) as [Hz|Hin];
      rewrite <- Hmin in *; [by left|right].
    apply list_elem_of_omap in Hin as (tp & Htp & Hp).
    destruct (process_tiff_simple tp bx by_ nodata_default)
      as [[m coords]|] eqn:Hproc; [|done].
    injection Hp as Hm. exists tp, coords. split; [done|].
    by rewrite <- Hm.
  - done.
Qed.
End FreshFloor.

Lemma fresh_floor_is_least_sampled_witness :
  exists st me,
    @s2 ex_clock ex_rasterio ex_anvil ex_pm 0 0 10 ex_config
      ["a.tif"; "b.tif"] [] ex_disk = Some (true, st) /\
    ck_min_elevation (s2_checkpoint_data st) = Some me /\
    s2_sampled st = ["a.tif"; "b.tif"] /\ me <= 0.
Proof.
  destruct (@fresh_floor_is_least_sampled ex_clock ex_rasterio ex_anvil
              ex_pm 0 0 10 ex_config ["a.tif"; "b.tif"] [] ex_disk)
    as (st & me & Hs2 & Hme & Hsampled & Hle & _);
    [reflexivity|discriminate|lia|].
  by exists st, me.
Defined.

(** ** Stage 2: the cursors of the checkpoints written *)

Section Stage2Cursors.
Context `{!Clock} `{!Rasterio} `{!Anvil}.

Lemma generate_mca_batch_count_nonneg batch_coords bx by_ me out
    (S0 : gset string) dsm :
  0 <= mca_count (generate_mca_batch batch_coords bx by_ me out S0 dsm).
Proof.
  unfold generate_mca_batch.
  edestruct (foldl_batch_step_count me out dsm) as [Hcount _];
    [| |rewrite Hcount; lia]; simpl; [done|].
  instantiate (1 := size S0). lia.
Qed.

Lemma s2_step_doc pm bx by_ bs me tfs st batch_idx :
  total_mca_created st
    <= total_mca_created (s2_step pm bx by_ bs me tfs st batch_idx) /\
  ((saved (s2_disk (s2_step pm bx by_ bs me tfs st batch_idx))
      = saved (s2_disk st) /\
    s2_checkpoint_data (s2_step pm bx by_ bs me tfs st batch_idx)
      = s2_checkpoint_data st) \/
   (saved (s2_disk (s2_step pm bx by_ bs me tfs st batch_idx))
      = saved (s2_disk st)
        ++ [s2_checkpoint_data (s2_step pm bx by_ bs me tfs st batch_idx)] /\
    doc_cursor
      (s2_checkpoint_data (s2_step pm bx by_ bs me tfs st batch_idx))
      = written_cursor
          (batch_idx + 1,
           total_mca_created (s2_step pm bx by_ bs me tfs st batch_idx)))).
Proof.
  unfold s2_step.
  set (r := match collect_batch bx by_ (batch_files_of tfs bs batch_idx)
            with
            | [] => mkBatchState 0 (s2_existing_mcas_set st) []
            | _ => _
            end).
  assert (Hr : 0 <= mca_count r).
  { unfold r. destruct (collect_batch _ _ _); [done|].
    apply generate_mca_batch_count_nonneg. }
  destruct (elapsed_at_least _ _ _);
    cbn [save_checkpoint total_mca_created s2_disk saved
         s2_checkpoint_data].
  - split; [lia|]. by right.
  - split; [lia|]. by left.
Qed.

Lemma foldl_s2_step_docs pm bx by_ bs me tfs (k : nat) (a : Z) st :
  exists cs : list (Z * Z),
    doc_cursor
      <$> saved (s2_disk (foldl (s2_step pm bx by_ bs me tfs) st
                            (seqZ a (Z.of_nat k))))
    = (doc_cursor <$> saved (s2_disk st)) ++ (written_cursor <$> cs) /\
    Forall (fun c =>
              (a < c.1 /\ c.1 <= a + Z.of_nat k) /\
              total_mca_created st <= c.2 /\
              c.2 <= total_mca_created
                       (foldl (s2_step pm bx by_ bs me tfs) st
                          (seqZ a (Z.of_nat k)))) cs /\
    StronglySorted Z.lt cs.*1 /\ StronglySorted Z.le cs.*2 /\
    total_mca_created st
      <= total_mca_created
           (foldl (s2_step pm bx by_ bs me tfs) st (seqZ a (Z.of_nat k))) /\
    doc_cursor
      (s2_checkpoint_data
         (foldl (s2_step pm bx by_ bs me tfs) st (seqZ a (Z.of_nat k))))
    = from_option written_cursor (doc_cursor (s2_checkpoint_data st))
        (last cs).
Proof.
  revert a st. induction k as [|k IH]; intros a st.
  - exists []. simpl. rewrite app_nil_r. split; [done|].
    split; [constructor|]. split; [constructor|]. split; [constructor|].
    split; [lia|done].
  - rewrite seqZ_cons by lia.
    replace (Z.pred (Z.of_nat (S k))) with (Z.of_nat k) by lia.
    rewrite foldl_step.
    destruct (s2_step_doc pm bx by_ bs me tfs st a) as [Hmono Hdoc].
    set (st1 := s2_step pm bx by_ bs me tfs st a) in *.
    destruct (IH (Z.succ a) st1)
      as (cs & Hdocs & Hbound & Hlt & Hle & Hmono' & Hlast).
    set (st2 := foldl (s2_step pm bx by_ bs me tfs) st1
                  (seqZ (Z.succ a) (Z.of_nat k))) in *.
    assert (Hbound' :
      Forall (fun c =>
                (a + 1 < c.1 /\ c.1 <= a + Z.of_nat (S k)) /\
                total_mca_created st1 <= c.2 /\
                c.2 <= total_mca_created st2) cs).
    { eapply Forall_impl; [exact Hbound|]. intros c Hc.
      cbn beta in Hc. lia. }
    destruct Hdoc as [[Hsame Hdata]|[Hsnoc Hcur]].
    + exists cs. rewrite Hdocs, Hsame. split; [done|].
      split; [|split; [done|split; [done|split; [lia|]]]].
      * eapply Forall_impl; [exact Hbound'|]. intros c Hc.
        cbn beta in Hc. lia.
      * by rewrite Hlast, Hdata.
    + exists ((a + 1, total_mca_created st1) :: cs).
      rewrite Hdocs, Hsnoc, fmap_app, <- app_assoc.
      cbn [fmap list_fmap app]. rewrite Hcur.
      split; [done|]. split; [|split; [|split; [|split; [lia|]]]].
      * constructor; [cbn [fst snd]; lia|].
        eapply Forall_impl; [exact Hbound'|]. intros c Hc.
        cbn beta in Hc. lia.
      * cbn [fmap list_fmap fst]. constructor; [done|].
        apply Forall_fmap. eapply Forall_impl; [exact Hbound'|].
        intros c Hc. cbn beta in Hc. simpl. lia.
      * cbn [fmap list_fmap snd]. constructor; [done|].
        apply Forall_fmap. eapply Forall_impl; [exact Hbound'|].
        intros c Hc. cbn beta in Hc. simpl. lia.
      * rewrite Hlast, Hcur. by destruct cs as [|c cs] using rev_ind;
          [|rewrite app_comm_cons, !last_snoc].
Qed.

Lemma floor_phase_cursor tfs bx by_ ckpt d :
  doc_cursor (floor_phase tfs bx by_ ckpt d).1.1.2 = doc_cursor ckpt.
Proof. unfold floor_phase. by destruct (ck_min_elevation ckpt). Qed.

(** X18: the checkpoints the batch loop of stage 2 writes carry strictly
    increasing batch cursors, each above the cursor the run started from
    and at most the number of batches, and counts of files created that
    never decrease and never exceed the count the run ends with.  The
    count starts from 0 in every run: it is the count of this run, not of
    the project.  The last checkpoint of the stage changes neither: it
    holds the cursor and the count of the last checkpoint of the loop, or
    those the run was given when the loop wrote none. *)
Theorem stage2_cursors_increase pm bx by_ bs ckpt tfs existing d :
  tfs <> [] -> bs <> 0 ->
  exists st (cs : list (Z * Z)),
    s2 pm bx by_ bs ckpt tfs existing d = Some (true, st) /\
    doc_cursor <$> saved (s2_disk st)
    = (doc_cursor <$> saved (floor_phase tfs bx by_ ckpt d).1.2)
      ++ (written_cursor <$> cs)
      ++ [doc_cursor (s2_checkpoint_data st)] /\
    StronglySorted Z.lt cs.*1 /\ StronglySorted Z.le cs.*2 /\
    Forall (fun c =>
              (default 0 (ck_step2_batch ckpt) < c.1 /\
               c.1 <= (Z.of_nat (length tfs) + bs - 1) `div` bs) /\
              0 <= c.2 /\ c.2 <= total_mca_created st) cs /\
    doc_cursor (s2_checkpoint_data st)
    = from_option written_cursor (doc_cursor ckpt) (last cs).
Proof.
  intros Hne Hbs.
  destruct (s2_result pm bx by_ bs ckpt tfs existing d)
    as (me & data0 & d0 & sampled & st' & Hfloor & Hst' & Heq); [done..|].
  pose proof (floor_phase_cursor tfs bx by_ ckpt d) as Hcur0.
  rewrite Hfloor in Hcur0 |- *. cbn [fst snd] in Hcur0 |- *.
  set (start := default 0 (ck_step2_batch ckpt)) in *.
  set (total := (Z.of_nat (length tfs) + bs - 1) `div` bs) in *.
  assert (Hseq : seqZ start (total - start)
                 = seqZ start (Z.of_nat (Z.to_nat (total - start)))).
  { unfold seqZ. by rewrite Nat2Z.id. }
  rewrite Hseq in Hst'.
  destruct (foldl_s2_step_docs pm bx by_ bs me tfs
              (Z.to_nat (total - start)) start
              (mkS2State 0 (clock (ticks d0)) data0
                 {| ticks := S (ticks d0);
                    checkpoint_doc := checkpoint_doc d0;
                    saved := saved d0; files := files d0 |}
                 (list_to_set (basename <$> existing)) [] sampled))
    as (cs & Hdocs & Hbound & Hlt & Hle & _ & Hlast).
  rewrite <- Hst' in Hdocs, Hbound, Hlast.
  cbn [s2_disk saved total_mca_created s2_checkpoint_data] in Hdocs,
    Hbound, Hlast.
  eexists. exists cs. split; [exact Heq|].
  cbn [s2_disk saved s2_checkpoint_data total_mca_created].
  split; [|split; [done|split; [done|split]]].
  - by rewrite fmap_app, Hdocs, <- app_assoc.
  - eapply Forall_impl; [exact Hbound|]. intros c Hc. cbn beta in Hc. lia.
  - by rewrite <- Hcur0, <- Hlast.
Qed.
End Stage2Cursors.

Lemma stage2_cursors_increase_witness :
  exists st (cs : list (Z * Z)),
    @s2 ex_clock ex_rasterio ex_anvil ex_pm 0 0 1 ex_config
      ["a.tif"; "b.tif"] [] ex_disk = Some (true, st) /\
    StronglySorted Z.lt cs.*1 /\
    Forall (fun c =>
              (0 < c.1 /\ c.1 <= 2) /\
              0 <= c.2 /\ c.2 <= total_mca_created st) cs /\
    doc_cursor (s2_checkpoint_data st)
    = from_option written_cursor (None, None) (last cs).
Proof.
  destruct (@stage2_cursors_increase ex_clock ex_rasterio ex_anvil ex_pm
              0 0 1 ex_config ["a.tif"; "b.tif"] [] ex_disk)
    as (st & cs & Hs2 & _ & Hlt & _ & Hbound & Hlast);
    [discriminate|lia|].
  by exists st, cs.
Defined.

(** ** Project names *)

Lemma lstrip_head (s : list Z) :
  lstrip s = [] \/
  exists c s', lstrip s = c :: s' /\ is_space c = false.
Proof.
  induction s as [|c s IH]; [by left|]. simpl.
  destruct (is_space c) eqn:Hc; [done|]. right. by exists c, s.
Qed.

Lemma lstrip_no_space (s : list Z) :
  Forall (fun c => is_space c = false) s -> lstrip s = s.
Proof. intros Hs. destruct Hs as [|c s Hc _]; [done|]. simpl. by rewrite Hc. Qed.

Lemma strip_last (s l : list Z) (c : Z) :
  strip s = l ++ [c] -> is_space c = false.
Proof.
  unfold strip, rstrip. intros Heq.
  apply (f_equal reverse) in Heq.
  rewrite reverse_involutive, reverse_snoc in Heq.
  destruct (lstrip_head (reverse (lstrip s)))
    as [Hnil|(c' & s' & Hcons & Hc')]; [by rewrite Hnil in Heq|].
  rewrite Hcons in Heq. by injection Heq as -> _.
Qed.

Lemma strip_no_space (s : list Z) :
  Forall (fun c => is_space c = false) s -> strip s = s.
Proof.
  intros Hs. unfold strip, rstrip. rewrite (lstrip_no_space s Hs).
  rewrite lstrip_no_space; [apply reverse_involutive|].
  by apply Forall_reverse.
Qed.

Lemma span_name_spec (s : list Z) :
  s = (span_name s).1 ++ (span_name s).2 /\
  Forall (fun c => name_char c = true) (span_name s).1.
Proof.
  induction s as [|c s [IHeq IHall]]; [by split|]. simpl.
  destruct (name_char c) eqn:Hc; [|by split].
  destruct (span_name s) as [w rest]. simpl in *. split.
  - by rewrite IHeq at 1.
  - by constructor.
Qed.

Lemma name_char_not_space (c : Z) :
  name_char c = true -> is_space c = false.
Proof.
  unfold name_char, is_space. intros Hc.
  rewrite !orb_true_iff, !bool_decide_eq_true in Hc.
  rewrite !orb_false_iff, !bool_decide_eq_false. lia.
Qed.

Lemma name_char_not_slash (c : Z) :
  name_char c = true ->
  Ascii.eqb (ascii_of_N (Z.to_N c)) "/"%char = false.
Proof.
  intros Hc. destruct (Ascii.eqb_spec (ascii_of_N (Z.to_N c)) "/"%char)
    as [Heq|]; [|done].
  apply (f_equal N_of_ascii) in Heq.
  unfold name_char in Hc.
  rewrite !orb_true_iff, !bool_decide_eq_true in Hc.
  rewrite N_ascii_embedding in Heq by lia.
  change (N_of_ascii "/"%char) with 47%N in Heq. lia.
Qed.

Lemma name_matches_strip (s : list Z) :
  name_matches (strip s) = true ->
  strip s <> [] /\ Forall (fun c => name_char c = true) (strip s).
Proof.
  unfold name_matches.
  destruct (span_name_spec (strip s)) as [Heq Hall].
  destruct (span_name (strip s)) as [w rest]. simpl in *.
  intros Hm. apply andb_true_iff in Hm as [Hw Hrest].
  apply negb_true_iff, bool_decide_eq_false in Hw.
  apply orb_true_iff in Hrest as [Hrest|Hrest];
    apply bool_decide_eq_true in Hrest; subst rest.
  - rewrite app_nil_r in Heq. rewrite Heq. by split.
  - by apply strip_last in Heq.
Qed.

Lemma string_app_nil_r (s : string) : s +:+ "" = s.
Proof.
  induction s as [|c s IH]; [done|].
  change (String c (s +:+ "") = String c s). by f_equal.
Qed.

Lemma string_app_assoc (s1 s2 s3 : string) :
  (s1 +:+ s2) +:+ s3 = s1 +:+ (s2 +:+ s3).
Proof.
  induction s1 as [|c s1 IH]; [done|].
  change (String c ((s1 +:+ s2) +:+ s3) = String c (s1 +:+ (s2 +:+ s3))).
  by f_equal.
Qed.

Lemma basename_go_no_slash (acc : string) (l : list Z) :
  Forall (fun c => name_char c = true) l ->
  basename_go acc (string_of_codes l) = acc +:+ string_of_codes l.
Proof.
  intros Hl. revert acc. induction Hl as [|c l Hc _ IH]; intros acc.
  - simpl. by rewrite string_app_nil_r.
  - cbn [string_of_codes foldr basename_go].
    rewrite (name_char_not_slash c Hc).
    change (foldr (fun c acc => String (ascii_of_N (Z.to_N c)) acc) "" l)
      with (string_of_codes l).
    by rewrite IH, string_app_assoc.
Qed.

Lemma project_dir_of_name (l : list Z) :
  Forall (fun c => name_char c = true) l ->
  base_dir (new_ProjectManager (string_of_codes l))
    = "projects/" +:+ string_of_codes l /\
  basename (base_dir (new_ProjectManager (string_of_codes l)))
    = string_of_codes l.
Proof.
  intros Hl.
  assert (Hdir : path_join PROJECTS_DIR (string_of_codes l)
                 = "projects/" +:+ string_of_codes l).
  { unfold path_join. destruct Hl as [|c l Hc _]; [done|].
    simpl. by rewrite (name_char_not_slash c Hc). }
  cbn [new_ProjectManager base_dir]. rewrite Hdir. split; [done|].
  unfold basename.
  change ("projects/" +:+ string_of_codes l)
    with (String "p" (String "r" (String "o" (String "j" (String "e"
           (String "c" (String "t" (String "s" (String "/"
              (string_of_codes l)))))))))).
  cbn [basename_go]. simpl. by rewrite basename_go_no_slash.
Qed.

(** X19: what [validate_project_name] accepts.  An accepted name is the
    input without the white space around it; it is not empty, has only
    letters, digits, [_] and [-] (so no separator, no dot and no newline,
    although the pattern's [$] would let a final newline pass), and no
    path of that name exists under the projects directory.  The project
    directory made from it is [projects/<name>], a direct child of the
    projects directory whose base name is the name.  Validating the
    accepted name again accepts it unchanged. *)
Theorem validate_project_name_accepts path_exists name r :
  validate_project_name path_exists name = Accepted r ->
  exists s,
    name = Some s /\ r = string_of_codes (strip s) /\
    strip s <> [] /\
    Forall (fun c => name_char c = true) (strip s) /\
    path_exists (path_join PROJECTS_DIR r) = false /\
    base_dir (new_ProjectManager r) = "projects/" +:+ r /\
    basename (base_dir (new_ProjectManager r)) = r /\
    validate_project_name path_exists (Some (strip s)) = Accepted r.
Proof.
  unfold validate_project_name at 1. destruct name as [s|]; [|done].
  destruct (bool_decide (s = []) || bool_decide (length (strip s) = 0%nat))
    eqn:Hempty; [done|].
  destruct (name_matches (strip s)) eqn:Hm; [|done]. simpl.
  destruct (path_exists _) eqn:Hex; [done|]. intros [= <-].
  destruct (name_matches_strip s Hm) as [Hne Hall].
  destruct (project_dir_of_name (strip s) Hall) as [Hdir Hbase].
  exists s. split; [done|]. split; [done|]. split; [done|].
  split; [done|]. split; [done|]. split; [done|]. split; [done|].
  assert (Hstrip : strip (strip s) = strip s).
  { apply strip_no_space. eapply Forall_impl; [exact Hall|].
    intros c. apply name_char_not_space. }
  unfold validate_project_name. rewrite Hstrip.
  apply orb_false_iff in Hempty as [_ Hlen]. rewrite Hlen.
  rewrite bool_decide_eq_false_2 by done. simpl.
  by rewrite Hm, Hex.
Qed.

Lemma validate_project_name_accepts_witness :
  exists s,
    Some [32; 109; 121; 45; 112; 95; 49; 10] = Some s /\
    "my-p_1" = string_of_codes (strip s) /\
    base_dir (new_ProjectManager "my-p_1") = "projects/my-p_1".
Proof.
  destruct (validate_project_name_accepts (fun _ => false)
              (Some [32; 109; 121; 45; 112; 95; 49; 10]) "my-p_1")
    as (s & Hs & Hr & _ & _ & _ & Hdir & _); [reflexivity|].
  by exists s.
Defined.

(** ** Stage 1 and the driver *)

Section Stage1Driver.
Context `{!Clock} `{!Rasterio} `{!Anvil}.

Lemma s1_step_config pm crs st item :
  batch_config (checkpoint_data (s1_step pm crs st item))
  = batch_config (checkpoint_data st).
Proof.
  destruct item as [i tp]. unfold s1_step.
  destruct (decide (_ ∈ files (disk st))); [done|].
  destruct (reproject_raises tp _ crs); [done|].
  by destruct (elapsed_at_least _ _ _).
Qed.

Lemma foldl_s1_step_config pm crs items st :
  batch_config (checkpoint_data (foldl (s1_step pm crs) st items))
  = batch_config (checkpoint_data st).
Proof.
  revert st. induction items as [|item items IH]; intros st; [done|].
  by rewrite foldl_step, IH, s1_step_config.
Qed.

Lemma s1_config pm crs ckpt tfs d :
  batch_config (checkpoint_data (s1 pm crs ckpt tfs d).2)
  = batch_config ckpt.
Proof.
  destruct tfs as [|tp tfs]; [done|].
  unfold s1, save_checkpoint. fold (s1_loop pm crs ckpt (tp :: tfs) d).
  cbn [snd checkpoint_data]. unfold s1_loop.
  change (batch_config
            (checkpoint_data
               (foldl (s1_step pm crs) (s1_init ckpt d)
                  (enumerate
                     (py_slice_from (tp :: tfs)
                        (default 0 (ck_step1_progress ckpt)))
                     (default 0 (ck_step1_progress ckpt) + 1))))
          = batch_config ckpt).
  by rewrite foldl_s1_step_config.
Qed.

(** C10: stage 1 reports failure exactly when there is no input file.
    With any input it reports success and its last act is to persist a
    document with the cursor at the number of items and the completion
    flag set, however many reprojections raised; the driver of the
    [project] mode then deletes the checkpoint.  In the [all] mode the
    driver goes on to stage 2, and the checkpoint is deleted only if that
    succeeds too: when the reprojected directory holds no tile, as after
    a run in which every reprojection failed, the run ends with failure
    and the checkpoint stage 1 wrote is kept; when it holds a tile (and
    the batch size is not 0) the run ends with success and the
    checkpoint is deleted. *)
Theorem stage1_fails_only_without_input pm crs ckpt tfs d :
  ((s1 pm crs ckpt tfs d).1 = false <-> tfs = []) /\
  (tfs <> [] ->
   (s1 pm crs ckpt tfs d).1 = true /\
   checkpoint_doc (disk (s1 pm crs ckpt tfs d).2)
     = Some (checkpoint_data (s1 pm crs ckpt tfs d).2) /\
   last (saved (disk (s1 pm crs ckpt tfs d).2))
     = Some (checkpoint_data (s1 pm crs ckpt tfs d).2) /\
   ck_step1_progress (checkpoint_data (s1 pm crs ckpt tfs d).2)
     = Some (Z.of_nat (length tfs)) /\
   ck_step1_complete (checkpoint_data (s1 pm crs ckpt tfs d).2)
     = Some true) /\
  (tfs <> [] -> ck_crs ckpt = Some crs ->
   forall projected mcas,
   exists d',
     run_new "project" pm ckpt (mkInputs tfs projected mcas) d
       = MainRan true d' /\
     checkpoint_doc d' = None) /\
  (tfs <> [] -> ck_crs ckpt = Some crs ->
   forall bx by_ bs mcas,
     ck_bx ckpt = Some bx -> ck_by ckpt = Some by_ ->
     ck_bs ckpt = Some bs ->
     (run_new "all" pm ckpt (mkInputs tfs [] mcas) d
        = MainRan false (disk (s1 pm crs ckpt tfs d).2) /\
      checkpoint_doc (disk (s1 pm crs ckpt tfs d).2)
        = Some (checkpoint_data (s1 pm crs ckpt tfs d).2)) /\
     (forall projected,
         projected <> [] -> bs <> 0 ->
         exists d',
           run_new "all" pm ckpt (mkInputs tfs projected mcas) d
             = MainRan true d' /\
           checkpoint_doc d' = None)).
Proof.
  split; [|split; [|split]].
  - split.
    + intros Hf. destruct tfs as [|tp tfs]; [done|].
      destruct (s1_nonempty pm crs ckpt (tp :: tfs) d) as [Ht _];
        [done|]. congruence.
    + by intros ->.
  - apply s1_nonempty.
  - intros Hne Hcrs projected mcas.
    destruct (s1_nonempty pm crs ckpt tfs d Hne) as [Hok _].
    unfold run_new. simpl. rewrite Hcrs.
    destruct (s1 pm crs ckpt tfs d) as [ok st] eqn:Hs1.
    simpl in Hok. subst ok. unfold finish.
    by eexists.
  - intros Hne Hcrs bx by_ bs mcas Hbx Hby Hbs.
    destruct (s1_nonempty pm crs ckpt tfs d Hne) as (Hok & Hdoc & _).
    pose proof (s1_config pm crs ckpt tfs d) as Hcfg.
    unfold batch_config in Hcfg. rewrite Hbx, Hby, Hbs in Hcfg.
    injection Hcfg as Hbx' Hby' Hbs'.
    split.
    + split; [|exact Hdoc].
      unfold run_new. simpl. rewrite Hcrs.
      destruct (s1 pm crs ckpt tfs d) as [ok st1].
      simpl in Hok, Hbx', Hby', Hbs' |- *. subst ok.
      unfold run_s2. by rewrite Hbx', Hby', Hbs'.
    + intros projected Hproj Hbs0.
      unfold run_new. simpl. rewrite Hcrs.
      destruct (s1 pm crs ckpt tfs d) as [ok st1].
      simpl in Hok, Hbx', Hby', Hbs' |- *. subst ok.
      unfold run_s2. rewrite Hbx', Hby', Hbs'.
      cbn [in_projected_tifs in_existing_mcas].
      destruct (s2_result pm bx by_ bs (checkpoint_data st1) projected mcas
                  (disk st1))
        as (me & data0 & d0 & sampled & st & _ & _ & Heq); [done..|].
      rewrite Heq. unfold finish. eexists. split; [reflexivity|]. done.
Qed.
End Stage1Driver.

Lemma stage1_fails_only_without_input_witness :
  (@s1 ex_clock ex_rasterio_failing ex_pm "EPSG:6677" ex_config
     ["in/a.tif"; "in/b.tif"] ex_disk).1 = true /\
  processed_count
    (@s1 ex_clock ex_rasterio_failing ex_pm "EPSG:6677" ex_config
       ["in/a.tif"; "in/b.tif"] ex_disk).2 = 0 /\
  ck_step1_progress
    (checkpoint_data
       (@s1 ex_clock ex_rasterio_failing ex_pm "EPSG:6677" ex_config
          ["in/a.tif"; "in/b.tif"] ex_disk).2) = Some 2 /\
  exists d',
    @run_new ex_clock ex_rasterio_failing ex_anvil "project" ex_pm ex_config
      (mkInputs ["in/a.tif"; "in/b.tif"] [] []) ex_disk = MainRan true d' /\
    checkpoint_doc d' = None.
Proof.
  destruct (@stage1_fails_only_without_input ex_clock ex_rasterio_failing
              ex_anvil ex_pm "EPSG:6677" ex_config
              ["in/a.tif"; "in/b.tif"] ex_disk)
    as (_ & Hne & Hdriver & _).
  destruct Hne as (Hok & _ & _ & Hcur & _); [discriminate|].
  split; [exact Hok|]. split; [vm_compute; reflexivity|].
  split; [exact Hcur|].
  apply Hdriver; [discriminate|reflexivity].
Defined.

(** C10 as the specification states it fails: in the [all] mode every
    reprojection of the two input tiles raises, stage 1 reports success
    all the same, stage 2 finds no tile in the reprojected directory and
    reports failure, and the driver leaves the checkpoint on disk, the one
    stage 1 wrote last: the failures of the items have kept the
    checkpoint from being deleted. *)
Lemma failed_tiles_keep_checkpoint_in_mode_all :
  @reproject_raises ex_rasterio_failing "in/a.tif"
    (path_join (projected_dir ex_pm) (basename "in/a.tif")) "EPSG:6677"
    = true /\
  @reproject_raises ex_rasterio_failing "in/b.tif"
    (path_join (projected_dir ex_pm) (basename "in/b.tif")) "EPSG:6677"
    = true /\
  (@s1 ex_clock ex_rasterio_failing ex_pm "EPSG:6677" ex_config
     ["in/a.tif"; "in/b.tif"] ex_disk).1 = true /\
  files
    (disk
       (@s1 ex_clock ex_rasterio_failing ex_pm "EPSG:6677" ex_config
          ["in/a.tif"; "in/b.tif"] ex_disk).2) = ∅ /\
  exists d',
    @run_new ex_clock ex_rasterio_failing ex_anvil "all" ex_pm ex_config
      (mkInputs ["in/a.tif"; "in/b.tif"] [] []) ex_disk = MainRan false d' /\
    ck_step1_complete <$> checkpoint_doc d' = Some (Some true) /\
    ck_step1_progress <$> checkpoint_doc d' = Some (Some 2).
Proof.
  split; [reflexivity|]. split; [reflexivity|]. split; [reflexivity|].
  split; [reflexivity|].
  eexists. split; [reflexivity|]. split; reflexivity.
Qed.
